(** * HAR-RV pipeline: peer selection, walk-forward forecast, skill evaluation

    A shallow embedding of [data_loading.get_peers],
    [forecasting.rolling_forecast] and [evaluation.evaluate_forecast].

    Conventions of the embedding.
    - A pandas column of float64 is a list of IEEE-754 binary64 values
      ([spec_float] at precision 53, NaN without payload); a missing value
      is NaN, as in pandas.
    - A Python exception is the left injection of [result].
    - Calls into statsmodels, scikit-learn and numpy's sort are Section
      variables: the development proves what the repository's own code
      does around them, for every behaviour of the library call that
      meets the hypotheses a theorem names. *)

From Stdlib Require Import List ZArith Lia Bool Permutation Sorted.
From Stdlib Require String.
From Stdlib Require Import Floats.SpecFloat.
Import ListNotations.
Local Open Scope Z_scope.

(** ** Python and pandas primitives *)

Module Py.

Inductive exn : Type :=
| IndexError            (* positional indexer out of bounds *)
| ValueError            (* shape or input validation *)
| LibraryError          (* anything raised inside a fitted model *)
| OutOfBoundsDatetime.  (* a timestamp outside the int64 nanoseconds *)

Definition result (A : Type) : Type := (exn + A)%type.

Definition ret {A} (a : A) : result A := inr a.
Definition raise {A} (e : exn) : result A := inl e.
Definition bind {A B} (m : result A) (k : A -> result B) : result B :=
  match m with
  | inl e => inl e
  | inr a => k a
  end.

(** [range(a, b)] *)
Definition range (a b : Z) : list Z :=
  map (fun k => a + Z.of_nat k) (seq 0 (Z.to_nat (b - a))).

(** How a slice bound [i] is clipped against a sequence of [n] items. *)
Definition slice_bound (n i : Z) : Z :=
  if i <? 0 then Z.max (i + n) 0 else Z.min i n.

(** [l[start:stop]], also [df.iloc[start:stop]]. *)
Definition slice {A} (start stop : Z) (l : list A) : list A :=
  let n := Z.of_nat (length l) in
  let a := slice_bound n start in
  let b := slice_bound n stop in
  firstn (Z.to_nat (b - a)) (skipn (Z.to_nat a) l).

(** [l[start:]] *)
Definition slice_from {A} (start : Z) (l : list A) : list A :=
  skipn (Z.to_nat (slice_bound (Z.of_nat (length l)) start)) l.

(** [a.values[0]], [df.iloc[0]] *)
Definition item0 {A} (l : list A) : result A :=
  match l with
  | [] => raise IndexError
  | x :: _ => ret x
  end.

(** [Series.head(n)] is [iloc[:n]]. *)
Definition head {A} (n : Z) (l : list A) : list A := slice 0 n l.

(** [Series.shift(1)]: every value moves one position down, the first
    position receives the fill value, the last value falls off. *)
Definition shift1 {A} (fill : A) (l : list A) : list A :=
  match l with
  | [] => []
  | _ :: _ => fill :: removelast l
  end.

End Py.

Notation "x <- m ;; k" := (Py.bind m (fun x => k))
  (at level 61, m at next level, right associativity).
Notation "' p <- m ;; k" := (Py.bind m (fun x => match x with p => k end))
  (at level 61, p pattern, m at next level, right associativity).

(** ** binary64 *)

Module F64.

Definition float : Type := spec_float.

Definition prec : Z := 53.
Definition emax : Z := 1024.

Definition nan : float := S754_nan.
Definition sub : float -> float -> float := SFsub prec emax.
Definition add : float -> float -> float := SFadd prec emax.
Definition mul : float -> float -> float := SFmul prec emax.
Definition div : float -> float -> float := SFdiv prec emax.
Definition sqrt : float -> float := SFsqrt prec emax.
Definition abs : float -> float := SFabs.
Definition ltb : float -> float -> bool := SFltb.
Definition eqb : float -> float -> bool := SFeqb.

(** The binary64 value of an integer (round to nearest even). *)
Definition of_Z (z : Z) : float := binary_normalize prec emax z 0 false.


Definition zero : float := S754_zero false.

(** [pd.isna] on a float. *)
Definition isna (x : float) : bool :=
  match x with
  | S754_nan => true
  | _ => false
  end.

(** Neither a number nor finite: what a division by zero leaves. *)
Definition undefined (x : float) : bool :=
  match x with
  | S754_nan | S754_infinity _ => true
  | _ => false
  end.

End F64.

(** ** forecasting.py *)

Module Forecasting.

(** One row of the frame built at the top of [rolling_forecast]: the
    index label and the three columns. *)
Record row (Label : Type) : Type := mk_row {
  label : Label;
  Actual_RV : F64.float;
  Lag_RV : F64.float;
  Peer_Prior : F64.float
}.
Arguments mk_row {Label}.
Arguments label {Label}.
Arguments Actual_RV {Label}.
Arguments Lag_RV {Label}.
Arguments Peer_Prior {Label}.

(** One row of the returned frame. *)
Record forecast_record (Label : Type) : Type := mk_record {
  Timestamp : Label;
  Actual : F64.float;
  Forecast : F64.float
}.
Arguments mk_record {Label}.
Arguments Timestamp {Label}.
Arguments Actual {Label}.
Arguments Forecast {Label}.

Section RollingForecast.

(** Index labels and raw cell contents of the input series. *)
Variables Label cell : Type.

(** [pd.to_numeric(., errors='coerce')] on one cell: its float, NaN
    when it is missing or does not parse. *)
Variable to_numeric : cell -> F64.float.

(** A [pd.Series]: labels with their cells, in index order. *)
Definition Series : Type := list (Label * cell).

Definition index (s : Series) : list Label := map fst s.
Definition values (s : Series) : list cell := map snd s.

(** The two series are given over one index (in [main] they are two
    columns of one frame), so the frame constructor aligns them
    position by position. *)
Definition same_index (a b : Series) : Prop := index a = index b.

(** [to_numeric] after [shift(1)]: the hole left by the shift is NaN. *)
Definition coerce (c : option cell) : F64.float :=
  match c with
  | None => F64.nan
  | Some x => to_numeric x
  end.

Fixpoint zip_rows (idx : list Label) (a l p : list F64.float)
  : list (row Label) :=
  match idx, a, l, p with
  | i :: idx', x :: a', y :: l', z :: p' =>
      mk_row i x y z :: zip_rows idx' a' l' p'
  | _, _, _, _ => []
  end.

(** [pd.DataFrame({'Actual_RV': .., 'Lag_RV': .., 'Peer_Prior': ..})] *)
Definition feature_frame (target_rv_series peer_avg_rv_series : Series)
  : list (row Label) :=
  zip_rows (index target_rv_series)
    (map to_numeric (values target_rv_series))
    (map coerce (Py.shift1 None (map Some (values target_rv_series))))
    (map to_numeric (values peer_avg_rv_series)).

Definition complete (r : row Label) : bool :=
  negb (F64.isna (Actual_RV r) || F64.isna (Lag_RV r)
        || F64.isna (Peer_Prior r)).

(** [.dropna()] *)
Definition dropna (df : list (row Label)) : list (row Label) :=
  filter complete df.

(** The frame [data] the loop walks over ([astype(float)] changes
    nothing after [to_numeric]). *)
Definition aligned_frame (target_rv_series peer_avg_rv_series : Series)
  : list (row Label) :=
  dropna (feature_frame target_rv_series peer_avg_rv_series).

(** The regressors [['Lag_RV', 'Peer_Prior']] of a row. *)
Definition regressors (r : row Label) : F64.float * F64.float :=
  (Lag_RV r, Peer_Prior r).

(** statsmodels: [sm.OLS(y_train, add_constant(X_train)).fit()]
    followed by [.predict(add_constant(X_test, has_constant='add'))];
    one prediction per row of [X_test], or an exception. *)
Variable ols_fit_predict :
  list (F64.float * F64.float) -> list F64.float ->
  list (F64.float * F64.float) -> Py.result (list F64.float).

(** [train = data.iloc[t-window_size:t]] *)
Definition train_window (data : list (row Label)) (window_size t : Z)
  : list (row Label) :=
  Py.slice (t - window_size) t data.

(** [test = data.iloc[t:t+1]] *)
Definition test_row (data : list (row Label)) (t : Z) : list (row Label) :=
  Py.slice t (t + 1) data.

(** The body of the walk-forward loop at step [t]: the forecast and
    the observation it appends. *)
Definition forecast_step (data : list (row Label)) (window_size t : Z)
  : Py.result (F64.float * F64.float) :=
  let train := train_window data window_size t in
  let test := test_row data t in
  let X_train := map regressors train in
  let y_train := map Actual_RV train in
  let X_test := map regressors test in
  forecast <- ols_fit_predict X_train y_train X_test ;;
  p <- Py.item0 forecast ;;
  o <- Py.item0 (map Actual_RV test) ;;
  Py.ret (p, o).

(** The loop, threading the two accumulators. *)
Fixpoint walk (data : list (row Label)) (window_size : Z) (ts : list Z)
  (predictions observations : list F64.float)
  : Py.result (list F64.float * list F64.float) :=
  match ts with
  | [] => Py.ret (predictions, observations)
  | t :: ts' =>
      '(p, o) <- forecast_step data window_size t ;;
      walk data window_size ts' (predictions ++ [p]) (observations ++ [o])
  end.

(** [pd.DataFrame({'Actual': .., 'Forecast': ..}, index=..)]: the
    columns must be as long as the index. *)
Definition results_frame (idx : list Label)
  (observations predictions : list F64.float)
  : Py.result (list (forecast_record Label)) :=
  if (length observations =? length idx)%nat
     && (length predictions =? length idx)%nat
  then Py.ret (map (fun x => mk_record (fst x) (fst (snd x)) (snd (snd x)))
                 (combine idx (combine observations predictions)))
  else Py.raise Py.ValueError.

(** [rolling_forecast] from the loop onwards, on the aligned frame. *)
Definition walk_forward (data : list (row Label)) (window_size : Z)
  : Py.result (list (forecast_record Label)) :=
  '(predictions, observations) <-
     walk data window_size
       (Py.range window_size (Z.of_nat (length data))) [] [] ;;
  results_frame (Py.slice_from window_size (map label data))
    observations predictions.

Definition rolling_forecast (target_rv_series peer_avg_rv_series : Series)
  (window_size : Z) : Py.result (list (forecast_record Label)) :=
  walk_forward (aligned_frame target_rv_series peer_avg_rv_series)
    window_size.

(** The rows of a frame with their positions, and the positions (in
    the shared index) of the rows that survive [dropna]. *)
Definition enumerate {A} (l : list A) : list (nat * A) :=
  combine (seq 0 (length l)) l.

Definition aligned_positions (target_rv_series peer_avg_rv_series : Series)
  : list (nat * row Label) :=
  filter (fun x => complete (snd x))
    (enumerate (feature_frame target_rv_series peer_avg_rv_series)).

(** The observations a run of the loop over the steps [ts] appends. *)
Definition observed (data : list (row Label)) (ts : list Z)
  : list F64.float :=
  flat_map (fun t => map Actual_RV (test_row data t)) ts.

(** Every step of the loop over [data] gets a prediction back from
    the regression. *)
Definition fit_returns (data : list (row Label)) (window_size : Z) : Prop :=
  forall t, In t (Py.range window_size (Z.of_nat (length data))) ->
    exists p ps,
      ols_fit_predict
        (map regressors (train_window data window_size t))
        (map Actual_RV (train_window data window_size t))
        (map regressors (test_row data t)) = inr (p :: ps).

End RollingForecast.

Arguments index {Label cell}.
Arguments values {Label cell}.
Arguments same_index {Label cell}.
Arguments coerce {cell}.
Arguments zip_rows {Label}.
Arguments feature_frame {Label cell}.
Arguments complete {Label}.
Arguments dropna {Label}.
Arguments aligned_frame {Label cell}.
Arguments regressors {Label}.
Arguments train_window {Label}.
Arguments test_row {Label}.
Arguments forecast_step {Label}.
Arguments walk {Label}.
Arguments results_frame {Label}.
Arguments walk_forward {Label}.
Arguments rolling_forecast {Label cell}.
Arguments aligned_positions {Label cell}.
Arguments fit_returns {Label}.
Arguments observed {Label}.

End Forecasting.

(** ** evaluation.py *)

Module Evaluation.

Import Forecasting.

(** The returned dictionary. *)
Record metrics : Type := mk_metrics {
  model_rmse : F64.float;
  naive_rmse : F64.float;
  skill_score : F64.float
}.

(** [Series.fillna(method='bfill')]: a missing value takes the next
    value that is present; a missing tail stays missing. *)
Fixpoint bfill (l : list F64.float) : list F64.float :=
  match l with
  | [] => []
  | x :: tl =>
      let filled := bfill tl in
      (if F64.isna x
       then match filled with
            | [] => x
            | y :: _ => y
            end
       else x) :: filled
  end.

(** [results_df['Actual'].shift(1).fillna(method='bfill')] *)
Definition naive_forecast {Label} (results_df : list (forecast_record Label))
  : list F64.float :=
  bfill (Py.shift1 F64.nan (map Actual results_df)).

Section EvaluateForecast.

Variable Label : Type.

(** scikit-learn's [mean_squared_error(y_true, y_pred)]: the mean of the
    squared differences, or an exception from its input validation. *)
Variable mean_squared_error :
  list F64.float -> list F64.float -> Py.result F64.float.

Definition evaluate_forecast (results_df : list (forecast_record Label))
  : Py.result metrics :=
  mse <- mean_squared_error (map Actual results_df)
           (map Forecast results_df) ;;
  let rmse := F64.sqrt mse in
  let naive := naive_forecast results_df in
  naive_mse <- mean_squared_error (map Actual results_df) naive ;;
  let naive_rmse := F64.sqrt naive_mse in
  let improvement := F64.div (F64.sub naive_rmse rmse) naive_rmse in
  Py.ret (mk_metrics rmse naive_rmse improvement).

End EvaluateForecast.

Arguments evaluate_forecast {Label}.

End Evaluation.

(** ** data_loading.py *)

Module DataLoading.

(** A [pd.Timestamp] in nanoseconds since the epoch; [None] is [NaT]. *)
Definition date : Type := option Z.

(** [pd.Timedelta(days=45)] in nanoseconds. *)
Definition reporting_lag : Z := 45 * 86400 * 1000000000.

(** One row of the IPO universe. A missing ticker or sector is [None]
    (NaN in the frame). *)
Record ipo_record : Type := mk_ipo {
  tic : option String.string;
  ipodate : date;
  gsector : option Z;
  mkvaltq : F64.float;
  rdq : date
}.

(** [column == value] on tickers: a missing ticker equals nothing. *)
Definition tic_eqb (t : option String.string) (s : String.string) : bool :=
  match t with
  | Some x => String.eqb x s
  | None => false
  end.

(** [column == value] on sector codes: NaN equals nothing. *)
Definition sector_eqb (a b : option Z) : bool :=
  match a, b with
  | Some x, Some y => x =? y
  | _, _ => false
  end.

(** [column < value] on timestamps: a comparison with NaT is False. *)
Definition date_ltb (a b : date) : bool :=
  match a, b with
  | Some x, Some y => x <? y
  | _, _ => false
  end.

(** Timestamps are int64 nanoseconds: the smallest int64 stands for
    NaT, the others are timestamps. *)
Definition int64_min : Z := - 2 ^ 63.
Definition int64_max : Z := 2 ^ 63 - 1.

(** Whether [timestamp - timedelta] leaves the int64 range. *)
Definition out_of_bounds (a : date) (d : Z) : bool :=
  match a with
  | Some x => (x - d <? int64_min) || (int64_max <? x - d)
  | None => false
  end.

(** The value of [timestamp - timedelta] inside the int64 range; NaT
    stays NaT, and the difference that is the smallest int64 is NaT. *)
Definition date_sub (a : date) (d : Z) : date :=
  match a with
  | Some x => if x - d =? int64_min then None else Some (x - d)
  | None => None
  end.

(** [timestamp - timedelta] as pandas evaluates it: outside the int64
    range it raises [OutOfBoundsDatetime]. *)
Definition sub_timedelta (a : date) (d : Z) : Py.result date :=
  if out_of_bounds a d then Py.raise Py.OutOfBoundsDatetime
  else Py.ret (date_sub a d).

(** Positional selection [values[indexer]]. A position outside the
    frame, which a permutation of its positions never holds, selects
    nothing. *)
Definition take {A} (l : list A) (indexer : list nat) : list A :=
  flat_map (fun i => match nth_error l i with
                     | Some x => [x]
                     | None => []
                     end) indexer.

Section GetPeers.

(** numpy's [argsort] with the default kind ([quicksort]), reached
    through [sort_values]: the positions of the keys in ascending order
    of key. *)
Variable argsort : list F64.float -> list nat.

(** [keys[i]] *)
Definition key_at (keys : list F64.float) (i : nat) : F64.float :=
  nth i keys F64.nan.

(** What numpy promises of [argsort]: a permutation of the positions
    along which no key is smaller than the one before it. Nothing is
    promised about the order of equal keys: [quicksort] is not a stable
    kind. *)
Definition ascending (keys : list F64.float) (perm : list nat) : Prop :=
  forall k i j,
    nth_error perm k = Some i -> nth_error perm (S k) = Some j ->
    F64.ltb (key_at keys j) (key_at keys i) = false.

Definition argsort_contract : Prop :=
  forall keys,
    Permutation (argsort keys) (seq 0 (length keys))
    /\ ascending keys (argsort keys).

(** Ascending order of distances as [sort_values] leaves them: no
    distance is smaller than the one before it, and the missing ones
    come last. *)
Definition dist_le (x y : F64.float) : Prop :=
  F64.ltb y x = false /\ (F64.isna x = true -> F64.isna y = true).

(** pandas' [nargsort] with [na_position='last']: the keys that are
    present are sorted, the positions of the missing ones follow in
    their original order. *)
Definition non_nans (keys : list F64.float) : list F64.float :=
  filter (fun k => negb (F64.isna k)) keys.

Definition non_nan_idx (keys : list F64.float) : list nat :=
  filter (fun i => negb (F64.isna (key_at keys i))) (seq 0 (length keys)).

Definition nan_idx (keys : list F64.float) : list nat :=
  filter (fun i => F64.isna (key_at keys i)) (seq 0 (length keys)).

Definition nargsort (keys : list F64.float) : list nat :=
  take (non_nan_idx keys) (argsort (non_nans keys)) ++ nan_idx keys.

(** [df.sort_values(col)] with the column given beside the rows. *)
Definition sort_values {A} (rows : list A) (keys : list F64.float) : list A :=
  take rows (nargsort keys).

(** The first filter: same sector, listed before the target, another
    ticker. *)
Definition is_candidate (target_sector : option Z) (target_date : date)
  (target_ticker : String.string) (r : ipo_record) : bool :=
  sector_eqb (gsector r) target_sector
  && date_ltb (ipodate r) target_date
  && negb (tic_eqb (tic r) target_ticker).

(** The second filter: reported more than 45 days before the target's
    listing. The cutoff is read once [get_peers] has evaluated the
    subtraction, so inside the int64 range. *)
Definition reported_in_time (target_date : date) (r : ipo_record) : bool :=
  date_ltb (rdq r) (date_sub target_date reporting_lag).

Definition potential_peers (ipo_universe : list ipo_record)
  (target : ipo_record) (target_ticker : String.string) : list ipo_record :=
  filter (reported_in_time (ipodate target))
    (filter (is_candidate (gsector target) (ipodate target) target_ticker)
       ipo_universe).

(** ['dist'] of a candidate. *)
Definition dist (target_val : F64.float) (r : ipo_record) : F64.float :=
  F64.abs (F64.sub (mkvaltq r) target_val).

(** [get_peers] once the target row is known and the cutoff of the
    second filter is evaluated. *)
Definition peers_of (ipo_universe : list ipo_record) (target : ipo_record)
  (target_ticker : String.string) (n_peers : Z)
  : list (option String.string) :=
  let peers := potential_peers ipo_universe target target_ticker in
  match peers with
  | [] => []
  | _ :: _ =>
      let d := map (dist (mkvaltq target)) peers in
      Py.head n_peers (map tic (sort_values peers d))
  end.

Definition get_peers (ipo_universe : list ipo_record)
  (target_ticker : String.string) (n_peers : Z)
  : Py.result (list (option String.string)) :=
  target <- Py.item0
              (filter (fun r => tic_eqb (tic r) target_ticker) ipo_universe) ;;
  _ <- sub_timedelta (ipodate target) reporting_lag ;;
  Py.ret (peers_of ipo_universe target target_ticker n_peers).

End GetPeers.

End DataLoading.

(** ** numpy's quicksort

    [sort_values] with the default [kind='quicksort'] reaches numpy's
    [argsort]. Its portable implementation ([aquicksort] in
    npysort/quicksort.cpp) is an introsort over an array of positions:
    median-of-three partitions down to ranges of at most seventeen
    cells, insertion sort on those, heapsort once the depth budget is
    spent. Builds for recent x86 processors may dispatch to vectorised
    sorts instead; what all of them promise is [argsort_contract]. *)

Module NumpySort.

Local Open Scope nat_scope.

(** [Tag::less] on doubles: NaN sorts to the end. *)
Definition less (a b : F64.float) : bool :=
  F64.ltb a b || (F64.isna b && negb (F64.isna a)).

(** The index array [tosort] and its cells. *)
Definition get (a : list nat) (i : nat) : nat := nth i a 0.

Definition set (a : list nat) (i x : nat) : list nat :=
  if i <? length a then firstn i a ++ x :: skipn (S i) a else a.

(** [INTP_SWAP(a[i], a[j])] *)
Definition swap (a : list nat) (i j : nat) : list nat :=
  set (set a i (get a j)) j (get a i).

Definition SMALL_QUICKSORT : nat := 16.

Section Keys.

(** The keys [v]. *)
Variable v : list F64.float.

Definition val (i : nat) : F64.float := nth i v F64.nan.

(** [v[a[i]]] *)
Definition key (a : list nat) (i : nat) : F64.float := val (get a i).

(** [do { ++pi; } while (less(v[*pi], vp));] *)
Fixpoint scan_up (fuel : nat) (a : list nat) (vp : F64.float) (pi : nat)
  : nat :=
  match fuel with
  | O => S pi
  | S fuel' =>
      if less (key a (S pi)) vp then scan_up fuel' a vp (S pi) else S pi
  end.

(** [do { --pj; } while (less(vp, v[*pj]));] *)
Fixpoint scan_down (fuel : nat) (a : list nat) (vp : F64.float) (pj : nat)
  : nat :=
  match fuel with
  | O => pj - 1
  | S fuel' =>
      if less vp (key a (pj - 1)) then scan_down fuel' a vp (pj - 1)
      else pj - 1
  end.

(** The [for (;;)] loop of the partition. *)
Fixpoint exchange (fuel : nat) (a : list nat) (vp : F64.float) (pi pj : nat)
  : list nat * nat :=
  match fuel with
  | O => (a, pi)
  | S fuel' =>
      let pi := scan_up (length a) a vp pi in
      let pj := scan_down (length a) a vp pj in
      if pj <=? pi then (a, pi) else exchange fuel' (swap a pi pj) vp pi pj
  end.

(** One quicksort partition of [pl .. pr]: median of three, the pivot
    parked at [pr - 1], the exchange loop, the pivot put in place at
    the returned position. *)
Definition partition (a : list nat) (pl pr : nat) : list nat * nat :=
  let pm := pl + (pr - pl) / 2 in
  let a := if less (key a pm) (key a pl) then swap a pm pl else a in
  let a := if less (key a pr) (key a pm) then swap a pr pm else a in
  let a := if less (key a pm) (key a pl) then swap a pm pl else a in
  let vp := key a pm in
  let pj := pr - 1 in
  let a := swap a pm pj in
  let '(a, pi) := exchange (length a) a vp pl pj in
  (swap a pi (pr - 1), pi).

(** The inner [while] of the insertion sort, then [*pj = vi]. *)
Fixpoint shift_right (fuel : nat) (a : list nat) (vi : nat) (pl pj : nat)
  : list nat :=
  match fuel with
  | O => set a pj vi
  | S fuel' =>
      if (pl <? pj) && less (val vi) (key a (pj - 1))
      then shift_right fuel' (set a pj (get a (pj - 1))) vi pl (pj - 1)
      else set a pj vi
  end.

(** Insertion sort of [pl .. pr]. *)
Definition insertion (a : list nat) (pl pr : nat) : list nat :=
  fold_left (fun a pi => shift_right (length a) a (get a pi) pl pi)
    (seq (S pl) (pr - pl)) a.

(** Heapsort of the [n] cells from [pl] on; the heap is addressed from
    one, cell [k] of the heap being cell [pl + k - 1] of [tosort]. *)
Definition heap_get (a : list nat) (pl k : nat) : nat := get a (pl + k - 1).

Definition heap_set (a : list nat) (pl k x : nat) : list nat :=
  set a (pl + k - 1) x.

Fixpoint sift_down (fuel : nat) (a : list nat) (pl n tmp i j : nat)
  : list nat :=
  match fuel with
  | O => heap_set a pl i tmp
  | S fuel' =>
      if j <=? n then
        let j := if (j <? n)
                    && less (val (heap_get a pl j)) (val (heap_get a pl (j + 1)))
                 then j + 1 else j in
        if less (val tmp) (val (heap_get a pl j))
        then sift_down fuel' (heap_set a pl i (heap_get a pl j)) pl n tmp j (j + j)
        else heap_set a pl i tmp
      else heap_set a pl i tmp
  end.

Definition aheapsort (a : list nat) (pl n : nat) : list nat :=
  let heapify :=
    fold_left (fun a l => sift_down n a pl n (heap_get a pl l) l (l + l))
      (rev (seq 1 (n / 2))) a in
  fold_left
    (fun a m =>
       let tmp := heap_get a pl m in
       let a := heap_set a pl m (heap_get a pl 1) in
       sift_down n a pl (m - 1) tmp 1 2)
    (rev (seq 2 (n - 1))) heapify.

(** The main loop of [aquicksort]: the range at hand, the depth left
    before falling back to heapsort, and the stack of ranges put aside
    with their depths. [partitioning] is set inside the inner [while],
    where the depth is not looked at. *)
Fixpoint aquicksort_loop (fuel : nat) (a : list nat) (pl pr : nat)
  (cdepth : Z) (stack : list (nat * nat * Z)) (partitioning : bool)
  : list nat :=
  match fuel with
  | O => a
  | S fuel' =>
      let stack_pop a :=
        match stack with
        | [] => a
        | (pl', pr', cdepth') :: rest =>
            aquicksort_loop fuel' a pl' pr' cdepth' rest false
        end in
      if negb partitioning && (cdepth <? 0)%Z
      then stack_pop (aheapsort a pl (pr - pl + 1))
      else if SMALL_QUICKSORT <? pr - pl
      then
        let '(a, pi) := partition a pl pr in
        let cdepth := (cdepth - 1)%Z in
        if pi - pl <? pr - pi
        then aquicksort_loop fuel' a pl (pi - 1) cdepth
               ((pi + 1, pr, cdepth) :: stack) true
        else aquicksort_loop fuel' a (pi + 1) pr cdepth
               ((pl, pi - 1, cdepth) :: stack) true
      else stack_pop (insertion a pl pr)
  end.

End Keys.

(** [keys.argsort(kind='quicksort')] *)
Definition argsort (keys : list F64.float) : list nat :=
  let num := length keys in
  aquicksort_loop keys (2 * num + 2) (seq 0 num) 0 (num - 1)
    (2 * Z.log2 (Z.of_nat num)) [] false.

End NumpySort.

(** ** Concrete inputs

    Instances of the library calls and small inputs on which the
    definitions above are evaluated. *)

Module Samples.

Import Forecasting.

(** A regression stand-in that runs the loop on concrete frames: like
    statsmodels it refuses an empty training window; otherwise it
    predicts, for each test row, the lagged value. *)
Definition lag_fit (X_train : list (F64.float * F64.float))
  (y_train : list F64.float) (X_test : list (F64.float * F64.float))
  : Py.result (list F64.float) :=
  match X_train with
  | [] => Py.raise Py.ValueError
  | _ :: _ => Py.ret (map fst X_test)
  end.

(** A float series over the index [0, 1, 2, ...]. *)
Definition series_of (vals : list F64.float) : Series Z F64.float :=
  combine (map Z.of_nat (seq 0 (length vals))) vals.

Definition floats (zs : list Z) : list F64.float := map F64.of_Z zs.

(** Five observations of the target and of the peer average. *)
Definition target5 : Series Z F64.float := series_of (floats [10; 11; 12; 13; 14]).
Definition peer5 : Series Z F64.float := series_of (floats [20; 21; 22; 23; 24]).

(** Two observations: too few for the default window of six. *)
Definition target2 : Series Z F64.float := series_of (floats [10; 11]).
Definition peer2 : Series Z F64.float := series_of (floats [20; 21]).


Definition id_numeric (x : F64.float) : F64.float := x.

(** *** Evaluation *)

Definition finite (x : F64.float) : bool := negb (F64.undefined x).

Definition squared_error (p : F64.float * F64.float) : F64.float :=
  let d := F64.sub (fst p) (snd p) in F64.mul d d.

(** scikit-learn's [mean_squared_error] read directly: it validates its
    input (same length, at least one sample, no NaN and no infinity,
    [ValueError] otherwise) and returns the mean of the squared
    differences, here summed from left to right. *)
Definition mean_squared_error_ref (y_true y_pred : list F64.float)
  : Py.result F64.float :=
  if (length y_true =? length y_pred)%nat
     && negb (length y_true =? 0)%nat
     && forallb finite y_true && forallb finite y_pred
  then Py.ret (F64.div
                 (fold_left F64.add
                    (map squared_error (combine y_true y_pred)) F64.zero)
                 (F64.of_Z (Z.of_nat (length y_true))))
  else Py.raise Py.ValueError.



(** Three records with distinct actual values. *)
Definition rising_records : list (forecast_record Z) :=
  [ mk_record 0 (F64.of_Z 1) (F64.of_Z 1);
    mk_record 1 (F64.of_Z 2) (F64.of_Z 3);
    mk_record 2 (F64.of_Z 4) (F64.of_Z 3) ].

(** What [rolling_forecast] returns on [window_size + 1] aligned rows. *)
Definition single_record : list (forecast_record Z) :=
  [ mk_record 0 (F64.of_Z 1) (F64.of_Z 1) ].

(** *** Peer selection *)

Import DataLoading.

(** Insertion of a (position, key) pair into a list kept in ascending
    key order; [skip x y] says whether [x] goes behind [y]. *)
Fixpoint insert_by (skip : F64.float -> F64.float -> bool)
  (x : nat * F64.float) (l : list (nat * F64.float))
  : list (nat * F64.float) :=
  match l with
  | [] => [x]
  | y :: tl =>
      if skip (snd x) (snd y) then y :: insert_by skip x tl else x :: l
  end.

(** The order [insert_by] keeps: the next key is not smaller. *)
Definition key_le (a b : nat * F64.float) : Prop :=
  F64.ltb (snd b) (snd a) = false.

Definition insertion_argsort (skip : F64.float -> F64.float -> bool)
  (keys : list F64.float) : list nat :=
  map fst
    (fold_left (fun acc x => insert_by skip x acc)
       (combine (seq 0 (length keys)) keys) []).

(** An argsort that keeps equal keys in input order: a key goes behind
    every key that is not greater. *)
Definition stable_argsort : list F64.float -> list nat :=
  insertion_argsort (fun x y => negb (F64.ltb x y)).

(** An argsort that is ascending too, and puts equal keys in reverse
    input order: a key goes behind the smaller keys only. *)
Definition tie_reversing_argsort : list F64.float -> list nat :=
  insertion_argsort (fun x y => F64.ltb y x).

(** Midnight of day [n], in nanoseconds. *)
Definition day (n : Z) : date := Some (n * 86400 * 1000000000).

Definition firm (t : String.string) (listed : Z) (sector : Z) (value : Z)
  (reported : Z) : ipo_record :=
  mk_ipo (Some t) (day listed) (Some sector) (F64.of_Z value) (day reported).

Import String.StringSyntax.
Local Open Scope string_scope.

(** The target, listed on day 1000 in sector 45 with valuation 100. *)
Definition tgt : ipo_record := firm "TGT" 1000 45 100 990.

(** Three valid peers at distances 10, 5 and 1, and one record failing
    each filter: listed the same day, another sector, reported on day
    955 (45 days before the listing, not earlier), never reported. *)
Definition universe : list ipo_record :=
  [ firm "FAR" 100 45 110 900;
    firm "DAY" 1000 45 100 900;
    tgt;
    firm "MID" 200 45 95 900;
    firm "SEC" 300 20 100 900;
    firm "LATE" 400 45 100 955;
    mk_ipo (Some "NORDQ") (day 450) (Some 45) (F64.of_Z 100) None;
    firm "NEAR" 500 45 101 954 ].

(** Two valid peers at the same distance 5. *)
Definition tied_universe : list ipo_record :=
  [ firm "AAA" 100 45 95 900;
    firm "BBB" 200 45 105 900;
    tgt ].

(** Eighteen valid peers, all at distance 5. *)
Definition crowded_universe : list ipo_record :=
  tgt ::
  map (fun t => firm t 100 45 95 900)
    [ "P00"; "P01"; "P02"; "P03"; "P04"; "P05"; "P06"; "P07"; "P08";
      "P09"; "P10"; "P11"; "P12"; "P13"; "P14"; "P15"; "P16"; "P17" ].

(** Two panel rows of one ticker, both valid peers. *)
Definition panel_universe : list ipo_record :=
  [ tgt;
    firm "AAA" 100 45 95 800;
    firm "AAA" 100 45 97 900 ].

(** The target ticker on two records with different listing dates. *)
Definition twice_listed : list ipo_record :=
  [ firm "OLD" 100 45 100 50;
    firm "TGT" 150 45 100 140;
    firm "MID" 200 45 95 190;
    tgt ].

End Samples.

(** ** More concrete inputs *)

Module MoreSamples.

Import Forecasting Samples.

(** The four aligned rows of [target5] and [peer5]. *)
Definition aligned5 : list (row Z) := aligned_frame id_numeric target5 peer5.

(** The same frame with the actual value of row 2 replaced and the row
    after it rewritten. *)
Definition tampered5 : list (row Z) :=
  firstn 2 aligned5
  ++ [ mk_row 3 (F64.of_Z 99) (F64.of_Z 12) (F64.of_Z 23);
       mk_row 4 (F64.of_Z 0) (F64.of_Z 0) (F64.of_Z 0) ].

(** A regression that gives up once the lagged value of the test row
    reaches [limit], and predicts the lagged value below it. *)
Definition fit_below (limit : F64.float)
  (X_train : list (F64.float * F64.float)) (y_train : list F64.float)
  (X_test : list (F64.float * F64.float)) : Py.result (list F64.float) :=
  if forallb (fun x => F64.ltb (fst x) limit) X_test
  then Py.ret (map fst X_test)
  else Py.raise Py.LibraryError.


End MoreSamples.

(** ** The order of distances *)

Module FloatOrder.

(** A float that is not NaN, as a point of the lexicographic order on
    integer triples: class, then exponent, then mantissa. *)
Definition order_key (x : F64.float) : Z * (Z * Z) :=
  match x with
  | S754_infinity true => (0, (0, 0))
  | S754_finite true m e => (1, (- e, - Z.pos m))
  | S754_zero _ => (2, (0, 0))
  | S754_nan => (2, (0, 0))
  | S754_finite false m e => (3, (e, Z.pos m))
  | S754_infinity false => (4, (0, 0))
  end.

Definition key_lt (a b : Z * (Z * Z)) : Prop :=
  fst a < fst b
  \/ (fst a = fst b
      /\ (fst (snd a) < fst (snd b)
          \/ (fst (snd a) = fst (snd b) /\ snd (snd a) < snd (snd b)))).

End FloatOrder.

(** ** Python dictionaries

    A [dict] as the list of its items in insertion order: setting a key
    that is present replaces its value in place, setting a new key
    appends an item. *)

Module Dict.

Section WithKey.

Variables K V : Type.
Variable eqb : K -> K -> bool.

Definition dict : Type := list (K * V).

(** [d[k] = v] *)
Fixpoint set (d : dict) (k : K) (v : V) : dict :=
  match d with
  | [] => [(k, v)]
  | (k', v') :: rest =>
      if eqb k k' then (k', v) :: rest else (k', v') :: set rest k v
  end.

(** [d.get(k)] *)
Fixpoint get (d : dict) (k : K) : option V :=
  match d with
  | [] => None
  | (k', v') :: rest => if eqb k k' then Some v' else get rest k
  end.

(** [k in d] *)
Definition mem (d : dict) (k : K) : bool :=
  match get d k with
  | Some _ => true
  | None => false
  end.

(** [list(d.keys())] *)
Definition keys (d : dict) : list K := map fst d.

End WithKey.

Arguments set {K V}.
Arguments get {K V}.
Arguments mem {K V}.
Arguments keys {K V}.

End Dict.

(** ** data_loading.py: the universe, the targets, the peer map *)

Module Universe.

Import DataLoading.

(** One row of the frame [pd.read_csv] returns: the columns the
    pipeline reads, the three date columns still unparsed. *)
Record csv_row (cell : Type) : Type := mk_csv {
  csv_tic : option String.string;
  csv_ipodate : cell;
  csv_gsector : option Z;
  csv_mkvaltq : F64.float;
  csv_rdq : cell;
  csv_datadate : cell
}.
Arguments mk_csv {cell}.
Arguments csv_tic {cell}.
Arguments csv_ipodate {cell}.
Arguments csv_gsector {cell}.
Arguments csv_mkvaltq {cell}.
Arguments csv_rdq {cell}.
Arguments csv_datadate {cell}.

(** One row of the prepared frame: the columns [get_peers] reads, and
    [datadate]. *)
Record dated_row : Type := mk_dated {
  fundamentals : ipo_record;
  datadate : date
}.

Section Load.

Variable cell : Type.

(** [pd.to_datetime(column, errors='coerce')]: the timestamps of a
    column, [NaT] where a cell does not parse. It is given the whole
    column, as in the source. *)
Variable to_datetime : list cell -> list date.

(** A row of the file with its three converted dates put back in. *)
Definition with_dates (r : csv_row cell) (d : date * (date * date))
  : dated_row :=
  mk_dated
    (mk_ipo (csv_tic r) (fst d) (csv_gsector r) (csv_mkvaltq r)
       (fst (snd d)))
    (snd (snd d)).

(** The loop over ['ipodate', 'rdq', 'datadate']. *)
Definition convert_dates (df : list (csv_row cell)) : list dated_row :=
  map (fun p => with_dates (fst p) (snd p))
    (combine df
       (combine (to_datetime (map csv_ipodate df))
          (combine (to_datetime (map csv_rdq df))
             (to_datetime (map csv_datadate df))))).

(** [column.notnull()] on a timestamp. *)
Definition notnull (d : date) : bool :=
  match d with
  | Some _ => true
  | None => false
  end.

(** [load_and_prepare_data], from the frame read off the file. *)
Definition load_and_prepare_data (df : list (csv_row cell))
  : list dated_row :=
  filter (fun r => notnull (ipodate (fundamentals r))) (convert_dates df).

End Load.

Arguments with_dates {cell}.
Arguments convert_dates {cell}.
Arguments load_and_prepare_data {cell}.

(** [column >= value] on timestamps: a comparison with NaT is False. *)
Definition date_geb (a b : date) : bool :=
  match a, b with
  | Some x, Some y => y <=? x
  | _, _ => false
  end.

(** Equality of two values of the ticker column as [pd.unique] sees
    it: a missing ticker is one value. *)
Definition same_ticker (a b : option String.string) : bool :=
  match a, b with
  | Some x, Some y => String.eqb x y
  | None, None => true
  | _, _ => false
  end.

(** [Series.unique()]: the distinct values in order of first
    appearance. *)
Fixpoint unique (l : list (option String.string))
  : list (option String.string) :=
  match l with
  | [] => []
  | x :: rest => x :: filter (fun y => negb (same_ticker x y)) (unique rest)
  end.

(** [y not in ks] *)
Definition absent (ks : list (option String.string))
  (y : option String.string) : bool :=
  negb (existsb (same_ticker y) ks).

(** The mask of [get_target_list]. [start_date] is the timestamp the
    date string parses to. *)
Definition is_target (sector_code : Z) (start_date : Z) (r : ipo_record)
  : bool :=
  sector_eqb (gsector r) (Some sector_code)
  && date_geb (ipodate r) (Some start_date).

Definition get_target_list (ipo_universe : list ipo_record)
  (sector_code : Z) (start_date : Z) : list (option String.string) :=
  unique (map tic (filter (is_target sector_code start_date) ipo_universe)).

Section PeerMap.

Variable argsort : list F64.float -> list nat.

(** [get_peers(ipo_universe, t, n_peers)] for an element [t] of the
    target array. A missing ticker equals no ticker of the column, so
    the selection is empty and [.iloc[0]] raises. *)
Definition peers_for (ipo_universe : list ipo_record)
  (t : option String.string) (n_peers : Z)
  : Py.result (list (option String.string)) :=
  match t with
  | Some s => get_peers argsort ipo_universe s n_peers
  | None => Py.raise Py.IndexError
  end.

(** The dict comprehension, target by target. *)
Fixpoint fill_peer_map (ipo_universe : list ipo_record)
  (targets : list (option String.string)) (n_peers : Z)
  (peer_map : Dict.dict (option String.string) (list (option String.string)))
  : Py.result
      (Dict.dict (option String.string) (list (option String.string))) :=
  match targets with
  | [] => Py.ret peer_map
  | t :: rest =>
      peers <- peers_for ipo_universe t n_peers ;;
      fill_peer_map ipo_universe rest n_peers
        (Dict.set same_ticker peer_map t peers)
  end.

Definition build_peer_mapping (ipo_universe : list ipo_record)
  (targets : list (option String.string)) (n_peers : Z)
  : Py.result
      (Dict.dict (option String.string) (list (option String.string))) :=
  fill_peer_map ipo_universe targets n_peers [].

End PeerMap.

End Universe.

(** ** data_loading.py: the realized volatility frame *)

Module Volatility.

(** One row of [final_df]: the index label, ['Actual'] and
    ['Peer_Prior']. *)
Definition rv_frame (Label : Type) : Type :=
  list (Label * (F64.float * F64.float)).

(** [final_df['Actual']] and [final_df['Peer_Prior']] *)
Definition Actual_column {Label} (final_df : rv_frame Label)
  : Forecasting.Series Label F64.float :=
  map (fun r => (fst r, fst (snd r))) final_df.

Definition Peer_Prior_column {Label} (final_df : rv_frame Label)
  : Forecasting.Series Label F64.float :=
  map (fun r => (fst r, snd (snd r))) final_df.

(** [frame.dropna()] *)
Definition dropna {Label} (df : rv_frame Label) : rv_frame Label :=
  filter (fun r => negb (F64.isna (fst (snd r)) || F64.isna (snd (snd r))))
    df.

(** ['.'] *)
Definition dot : Ascii.ascii := Ascii.ascii_of_nat 46.

(** [ticker.split('.')[0]]: the characters before the first dot. *)
Fixpoint clean (ticker : String.string) : String.string :=
  match ticker with
  | String.EmptyString => String.EmptyString
  | String.String c rest =>
      if Ascii.eqb c dot then String.EmptyString
      else String.String c (clean rest)
  end.

(** ['.' in ticker] *)
Fixpoint dotted (ticker : String.string) : bool :=
  match ticker with
  | String.EmptyString => false
  | String.String c rest => Ascii.eqb c dot || dotted rest
  end.

Section Wrds.

Variables Label series : Type.

(** What the body of the [try] leaves for the cleaned ticker of the
    [k]-th pass of the loop: the series of absolute returns it stores
    in [rv_data], or nothing when the ticker has no permno, no rows,
    no valid return, or a query raised. *)
Variable fetch : nat -> String.string -> option series.

(** The pandas expression that builds [final_df] from the target
    series and the peer series: the row mean of the peers, shifted by
    one, beside the target, rows with a hole dropped. *)
Variable lagged_peer_frame :
  series -> list series -> Py.result (rv_frame Label).

(** One pass of the loop. *)
Definition store (rv_data : Dict.dict String.string series)
  (pass : nat * String.string) : Dict.dict String.string series :=
  match fetch (fst pass) (snd pass) with
  | Some s => Dict.set String.eqb rv_data (snd pass) s
  | None => rv_data
  end.

(** [rv_data] after the loop over [cleaned_tickers]. *)
Definition fetch_all (cleaned_tickers : list String.string)
  : Dict.dict String.string series :=
  fold_left store
    (combine (seq 0 (length cleaned_tickers)) cleaned_tickers) [].

(** [[rv_data[ticker] for ticker in peer_tickers if ticker in rv_data]] *)
Definition peer_series_list (rv_data : Dict.dict String.string series)
  (peer_tickers : list String.string) : list series :=
  flat_map (fun ticker => match Dict.get String.eqb rv_data ticker with
                          | Some s => [s]
                          | None => []
                          end) peer_tickers.

(** [load_realized_volatility_from_wrds]; [connected] says whether
    [wrds.Connection] returned, and [db.close()] is taken to return.
    [None] is Python's [None]. *)
Definition load_realized_volatility_from_wrds (connected : bool)
  (target_ticker : String.string) (peer_tickers : list String.string)
  : Py.result (option (rv_frame Label)) :=
  if connected then
    let all_tickers := target_ticker :: peer_tickers in
    let cleaned_tickers := map clean all_tickers in
    let rv_data := fetch_all cleaned_tickers in
    match Dict.get String.eqb rv_data target_ticker with
    | Some target_series =>
        if (1 <? length rv_data)%nat then
          match peer_series_list rv_data peer_tickers with
          | [] => Py.ret None
          | peers =>
              final_df <- lagged_peer_frame target_series peers ;;
              Py.ret (Some final_df)
          end
        else Py.ret None
    | None => Py.ret None
    end
  else Py.ret None.

End Wrds.

Arguments store {series}.
Arguments fetch_all {series}.
Arguments peer_series_list {series}.
Arguments load_realized_volatility_from_wrds {Label series}.

(** [0.7] and [0.3] *)
Definition decay : F64.float := F64.div (F64.of_Z 7) (F64.of_Z 10).
Definition gain : F64.float := F64.div (F64.of_Z 3) (F64.of_Z 10).

(** The smoothing loop from position 2 on: [prev] is the value just
    written one position before. *)
Fixpoint smooth_from (prev : F64.float) (rest : list F64.float)
  : list F64.float :=
  match rest with
  | [] => []
  | x :: tl =>
      let y := F64.add (F64.mul decay prev) (F64.mul gain x) in
      y :: smooth_from y tl
  end.

(** [for i in range(2, len(x)): x[i] = 0.7 * x[i-1] + 0.3 * x[i]] *)
Definition smooth (x : list F64.float) : list F64.float :=
  match x with
  | x0 :: x1 :: rest => x0 :: x1 :: smooth_from x1 rest
  | _ => x
  end.

(** [np.roll(x, 1)] *)
Definition roll1 (x : list F64.float) : list F64.float :=
  match x with
  | [] => []
  | _ :: _ => last x F64.nan :: removelast x
  end.

(** [pd.DataFrame({'Actual': .., 'Peer_Prior': ..}, index=dates)] over
    two arrays: their length must be that of the index. *)
Definition data_frame {Label} (dates : list Label)
  (actual peer_prior : list F64.float) : Py.result (rv_frame Label) :=
  if (length actual =? length dates)%nat
     && (length peer_prior =? length dates)%nat
  then Py.ret (combine dates (combine actual peer_prior))
  else Py.raise Py.ValueError.

Section Samples.

Variable Label : Type.

(** The two draws [np.random.exponential(scale, n)] after the seed is
    set, as functions of [n]. *)
Variables target_draw peer_draw : nat -> list F64.float.

(** [create_sample_realized_volatility_data], from the index
    [pd.date_range(start_date, end_date, freq='D')]. *)
Definition create_sample_realized_volatility_data (dates : list Label)
  : Py.result (rv_frame Label) :=
  let target_data := smooth (target_draw (length dates)) in
  let peer_data := smooth (peer_draw (length dates)) in
  final_df <- data_frame dates target_data (roll1 peer_data) ;;
  Py.ret (dropna (Py.slice_from 1 final_df)).

(** [create_sample_data] of test_wrds.py, from its index. *)
Definition create_sample_data (dates : list Label)
  : Py.result (rv_frame Label) :=
  let target_data := target_draw (length dates) in
  let peer_data := peer_draw (length dates) in
  final_df <- data_frame dates target_data (roll1 peer_data) ;;
  Py.ret (Py.slice_from 1 final_df).

End Samples.

Arguments create_sample_realized_volatility_data {Label}.
Arguments create_sample_data {Label}.

End Volatility.

(** ** main.py *)

Module Main.

Import DataLoading Universe Volatility Forecasting Evaluation.

(** What [main] can raise beside the exceptions of the calls it
    makes. *)
Inductive exn : Type :=
| Raised (e : Py.exn)   (* raised inside one of the calls *)
| TypeError             (* [', '.join] over a list that holds a float *)
| AttributeError        (* [.split] on a float *)
| KeyError.             (* [peer_map[key]] without the key *)

Definition result (A : Type) : Type := (exn + A)%type.

Definition lift {A} (m : Py.result A) : result A :=
  match m with
  | inl e => inl (Raised e)
  | inr a => inr a
  end.

Definition bind {A B} (m : result A) (k : A -> result B) : result B :=
  match m with
  | inl e => inl e
  | inr a => k a
  end.

(** The items of a list when all of them are strings. *)
Fixpoint strings (l : list (option String.string))
  : option (list String.string) :=
  match l with
  | [] => Some []
  | Some s :: rest =>
      match strings rest with
      | Some ss => Some (s :: ss)
      | None => None
      end
  | None :: _ => None
  end.

(** The loop that prints the peer map: [', '.join(peers)] needs
    strings. *)
Fixpoint display
  (items : list (option String.string * list (option String.string)))
  : result unit :=
  match items with
  | [] => inr tt
  | (_, peers) :: rest =>
      match strings peers with
      | Some _ => display rest
      | None => inl TypeError
      end
  end.

(** The configuration. *)
Definition sector_code : Z := 45.
(** ['2024-01-01'] as a timestamp: day 19723 of the epoch. *)
Definition start_date : Z := 19723 * 86400 * 1000000000.
Definition window_size : Z := 6.
(** The default [n_peers] of [build_peer_mapping]. *)
Definition n_peers : Z := 10.

(** The tuple [main] returns. *)
Record outcome (Label : Type) : Type := mk_outcome {
  ipo_universe : list dated_row;
  targets : list (option String.string);
  peer_map : Dict.dict (option String.string) (list (option String.string));
  results : list (forecast_record Label);
  metrics : Evaluation.metrics
}.
Arguments mk_outcome {Label}.
Arguments ipo_universe {Label}.
Arguments targets {Label}.
Arguments peer_map {Label}.
Arguments results {Label}.
Arguments metrics {Label}.

Section Pipeline.

Variables cell Label series : Type.

(** The libraries and the outside world of one run: the date parser,
    the sort, the WRDS connection and its tables, the pandas
    expression of the loader, the two random draws, the regression
    and the error measure. *)
Variable to_datetime : list cell -> list date.
Variable argsort : list F64.float -> list nat.
Variable connected : bool.
Variable fetch : nat -> String.string -> option series.
Variable lagged_peer_frame :
  series -> list series -> Py.result (rv_frame Label).
Variables target_draw peer_draw : nat -> list F64.float.
Variable ols_fit_predict :
  list (F64.float * F64.float) -> list F64.float ->
  list (F64.float * F64.float) -> Py.result (list F64.float).
Variable mean_squared_error :
  list F64.float -> list F64.float -> Py.result F64.float.

(** The call of the loader with the tickers as [main] holds them: over
    a connection, [.split] on a ticker that is a float raises; without
    one the loader has returned [None] before. *)
Definition load_call (target_ticker : option String.string)
  (peer_tickers : list (option String.string))
  : result (option (rv_frame Label)) :=
  match target_ticker, strings peer_tickers with
  | Some t, Some ps =>
      lift (load_realized_volatility_from_wrds fetch lagged_peer_frame
              connected t ps)
  | _, _ => if connected then inl AttributeError else inr None
  end.

(** [main], from the frame read off the file and the index
    [pd.date_range(start_date, end_date, freq='D')] of the sample. The
    sample is a frame, never [None], so the last [else] is not
    reached. *)
Definition main (df : list (csv_row cell)) (dates : list Label)
  : result (outcome Label) :=
  let ipo_universe := load_and_prepare_data to_datetime df in
  let records := map fundamentals ipo_universe in
  let targets := get_target_list records sector_code start_date in
  bind (lift (build_peer_mapping argsort records (Py.slice 0 1 targets)
                n_peers)) (fun peer_map =>
  bind (display peer_map) (fun _ =>
  bind (lift (Py.item0 (Dict.keys peer_map))) (fun target_ticker =>
  bind (match Dict.get same_ticker peer_map target_ticker with
        | Some peers => inr peers
        | None => inl KeyError
        end) (fun peer_tickers =>
  bind (load_call target_ticker peer_tickers) (fun loaded =>
  bind (match loaded with
        | Some final_df => inr final_df
        | None =>
            lift (create_sample_realized_volatility_data target_draw
                    peer_draw dates)
        end) (fun final_df =>
  bind (lift (rolling_forecast (fun x => x) ols_fit_predict
                (Actual_column final_df) (Peer_Prior_column final_df)
                window_size)) (fun results =>
  bind (lift (evaluate_forecast mean_squared_error results)) (fun metrics =>
  inr (mk_outcome ipo_universe targets peer_map results metrics))))))))).

End Pipeline.

Arguments load_call {Label series}.
Arguments main {cell Label series}.

End Main.

(** ** Concrete runs of the pipeline *)

Module PipelineSamples.

Import DataLoading Universe Volatility Samples.
Import String.StringSyntax.
Local Open Scope string_scope.

(** A stand-in for the CRSP tables: three tickers have returns. *)
Definition crsp (k : nat) (ticker : String.string)
  : option (list F64.float) :=
  if String.eqb ticker "TGT" then Some (floats [1; 2; 3])
  else if String.eqb ticker "AAA" then Some (floats [4; 5; 6])
  else if String.eqb ticker "BRK" then Some (floats [7; 8; 9])
  else None.

(** A stand-in for the pandas expression of the loader: the target
    beside the first peer series, over the index [0, 1, 2, ...]. *)
Definition beside_first_peer (target_series : list F64.float)
  (peers : list (list F64.float)) : Py.result (rv_frame Z) :=
  match peers with
  | [] => Py.raise Py.ValueError
  | p :: _ =>
      Py.ret (combine (map Z.of_nat (seq 0 (length target_series)))
                (combine target_series p))
  end.

(** The two records of the forecaster on [target5] and [peer5] with a
    window of two, and their metrics. *)
Definition records5 : list (Forecasting.forecast_record Z) :=
  Eval vm_compute in
    match Forecasting.rolling_forecast id_numeric lag_fit target5 peer5 2 with
    | inr records => records
    | inl _ => []
    end.

Definition metrics5 : Evaluation.metrics :=
  Eval vm_compute in
    match Evaluation.evaluate_forecast mean_squared_error_ref records5 with
    | inr m => m
    | inl _ => Evaluation.mk_metrics F64.nan F64.nan F64.nan
    end.

(** Draws [from, from + 1, ..., from + n - 1]. *)
Definition ramp (from : Z) (n : nat) : list F64.float :=
  map (fun k => F64.of_Z (from + Z.of_nat k)) (seq 0 n).

(** Ten days. *)
Definition ten_days : list Z := map Z.of_nat (seq 0 10).

(** A file whose date cells are timestamps already, with the parser
    that leaves them as they are. *)
Definition parsed (column : list date) : list date := column.

Definition csv (t : String.string) (listed sector value reported : Z)
  : csv_row date :=
  mk_csv (Some t) (day listed) (Some sector) (F64.of_Z value) (day reported)
    (day reported).

(** One software listing of 2024 (day 19800) with two older peers, a
    record without listing date and an older listing of another
    sector. *)
Definition listings : list (csv_row date) :=
  [ csv "OLD1" 19000 45 90 19700;
    mk_csv (Some "NODATE") None (Some 45) (F64.of_Z 100) (day 19700)
      (day 19700);
    csv "NEW" 19800 45 100 19790;
    csv "OLD2" 19100 45 104 19600;
    csv "BANK" 19200 40 100 19600 ].

(** A listing on the first day a timestamp can hold (21 September
    1677), before the target of the other universes. *)
Definition ancient : ipo_record :=
  mk_ipo (Some "ANC") (Some (int64_min + 1)) (Some 45) (F64.of_Z 100)
    (day 0).

Definition ancient_universe : list ipo_record := [ancient; tgt].

(** The same listings before 2024 only. *)
Definition old_listings : list (csv_row date) :=
  [ csv "OLD1" 19000 45 90 19700;
    csv "OLD2" 19100 45 104 19600 ].

End PipelineSamples.

(** * Properties *)

(** ** Ranges and slices *)

Module PyFacts.

Import Py.

Lemma range_length (a b : Z) : length (range a b) = Z.to_nat (b - a).
Proof. unfold range. now rewrite length_map, length_seq. Qed.

Lemma In_range (a b t : Z) : In t (range a b) <-> a <= t < b.
Proof.
  unfold range. rewrite in_map_iff. split.
  - intros (k & <- & Hk). apply in_seq in Hk. lia.
  - intros Ht. exists (Z.to_nat (t - a)). split; [lia|].
    apply in_seq. lia.
Qed.

Lemma range_empty (a b : Z) : b <= a -> range a b = [].
Proof.
  intros H. unfold range. now replace (Z.to_nat (b - a)) with 0%nat by lia.
Qed.

Lemma range_shift (s o m : nat) :
  map (fun k => Z.of_nat s + Z.of_nat k) (seq o m)
  = map Z.of_nat (seq (s + o) m).
Proof.
  revert o. induction m as [|m IH]; intros o; simpl; [reflexivity|].
  rewrite IH. f_equal; [lia|].
  now replace (s + S o)%nat with (S (s + o)) by lia.
Qed.

Lemma range_nat (a b : Z) :
  0 <= a ->
  range a b = map Z.of_nat (seq (Z.to_nat a) (Z.to_nat (b - a))).
Proof.
  intros Ha. unfold range.
  rewrite <- (Nat.add_0_r (Z.to_nat a)), <- range_shift.
  apply map_ext. intros k. lia.
Qed.

Lemma slice_bound_in (n i : Z) : 0 <= i <= n -> slice_bound n i = i.
Proof. intros H. unfold slice_bound. destruct (Z.ltb_spec i 0); lia. Qed.

Lemma slice_bound_past (n i : Z) : 0 <= n <= i -> slice_bound n i = n.
Proof. intros H. unfold slice_bound. destruct (Z.ltb_spec i 0); lia. Qed.

(** Inside the sequence a slice is the plain sub-list. *)
Lemma slice_in {A} (a b : Z) (l : list A) :
  0 <= a <= b -> b <= Z.of_nat (length l) ->
  slice a b l = firstn (Z.to_nat b - Z.to_nat a) (skipn (Z.to_nat a) l).
Proof.
  intros Hab Hb. unfold slice.
  rewrite !slice_bound_in by lia. f_equal. lia.
Qed.

Lemma slice_length {A} (a b : Z) (l : list A) :
  0 <= a <= b -> b <= Z.of_nat (length l) ->
  length (slice a b l) = (Z.to_nat b - Z.to_nat a)%nat.
Proof.
  intros Hab Hb. rewrite slice_in by assumption.
  rewrite length_firstn, length_skipn. lia.
Qed.

Lemma slice_nth_error {A} (a b : Z) (l : list A) (i : nat) :
  0 <= a <= b -> b <= Z.of_nat (length l) ->
  (i < Z.to_nat b - Z.to_nat a)%nat ->
  nth_error (slice a b l) i = nth_error l (Z.to_nat a + i).
Proof.
  intros Hab Hb Hi. rewrite slice_in by assumption.
  rewrite nth_error_firstn.
  destruct (Nat.ltb_spec i (Z.to_nat b - Z.to_nat a)); [|lia].
  apply nth_error_skipn.
Qed.

Lemma slice_map {A B} (f : A -> B) (a b : Z) (l : list A) :
  slice a b (map f l) = map f (slice a b l).
Proof.
  unfold slice. rewrite length_map.
  now rewrite <- firstn_map, <- skipn_map.
Qed.

Lemma slice_from_map {A B} (f : A -> B) (a : Z) (l : list A) :
  slice_from a (map f l) = map f (slice_from a l).
Proof. unfold slice_from. now rewrite length_map, skipn_map. Qed.

Lemma slice_from_in {A} (a : Z) (l : list A) :
  0 <= a -> slice_from a l = skipn (Z.to_nat a) l.
Proof.
  intros Ha. unfold slice_from, slice_bound.
  destruct (Z.ltb_spec a 0); [lia|].
  destruct (Z.le_gt_cases a (Z.of_nat (length l))).
  - now rewrite Z.min_l by lia.
  - rewrite Z.min_r by lia. rewrite !skipn_all2; trivial; lia.
Qed.

(** A slice only reads the positions below its upper bound. *)
Lemma slice_prefix {A} (a b : Z) (l l' : list A) :
  0 <= a <= b -> b <= Z.of_nat (length l) -> b <= Z.of_nat (length l') ->
  firstn (Z.to_nat b) l' = firstn (Z.to_nat b) l ->
  slice a b l' = slice a b l.
Proof.
  intros Hab Hl Hl' Hpre.
  rewrite !slice_in by assumption.
  rewrite !firstn_skipn_comm.
  replace (Z.to_nat a + (Z.to_nat b - Z.to_nat a))%nat with (Z.to_nat b) by lia.
  now rewrite Hpre.
Qed.

Lemma In_firstn {A} (n : nat) (l : list A) (x : A) :
  In x (firstn n l) -> In x l.
Proof.
  revert l. induction n as [|n IH]; intros [|y l]; simpl; try tauto.
  intros [->|H]; [now left|right; now apply IH].
Qed.

Lemma In_skipn {A} (n : nat) (l : list A) (x : A) :
  In x (skipn n l) -> In x l.
Proof.
  revert l. induction n as [|n IH]; intros [|y l]; simpl; try tauto.
  intros H. right. now apply IH.
Qed.

Lemma In_slice {A} (a b : Z) (l : list A) (x : A) :
  In x (slice a b l) -> In x l.
Proof. unfold slice. intros H. eapply In_skipn, In_firstn, H. Qed.

Lemma Forall_firstn {A} (P : A -> Prop) (n : nat) (l : list A) :
  Forall P l -> Forall P (firstn n l).
Proof.
  rewrite !Forall_forall. intros H x Hx. eapply H, In_firstn, Hx.
Qed.

Lemma removelast_Forall {A} (P : A -> Prop) (l : list A) :
  Forall P l -> Forall P (removelast l).
Proof.
  intros H. rewrite removelast_firstn_len. now apply Forall_firstn.
Qed.

Lemma removelast_nth_error {A} (l : list A) (i : nat) :
  (i + 1 < length l)%nat -> nth_error (removelast l) i = nth_error l i.
Proof.
  intros Hi. rewrite removelast_firstn_len, nth_error_firstn.
  destruct (Nat.ltb_spec i (Nat.pred (length l))); [reflexivity|lia].
Qed.

Lemma skipn_succ_tl {A} (n : nat) (l : list A) :
  skipn (S n) l = tl (skipn n l).
Proof.
  revert l. induction n as [|n IH]; intros [|x l]; simpl; trivial.
  now rewrite <- IH.
Qed.

(** One-row windows laid side by side give back the tail of the frame. *)
Lemma unit_slices_concat {A} (l : list A) (m s : nat) :
  flat_map (fun k => firstn 1 (skipn k l)) (seq s m)
  = firstn m (skipn s l).
Proof.
  revert s. induction m as [|m IH]; intros s; simpl; [reflexivity|].
  rewrite IH, skipn_succ_tl.
  destruct (skipn s l) as [|x rest]; simpl; [now rewrite firstn_nil|].
  reflexivity.
Qed.

Lemma unit_slice {A} (t : Z) (l : list A) :
  0 <= t < Z.of_nat (length l) ->
  slice t (t + 1) l = firstn 1 (skipn (Z.to_nat t) l).
Proof.
  intros Ht. rewrite slice_in by lia. f_equal. lia.
Qed.

(** The positions a slice of an enumerated list carries. *)
Lemma skipn_enumerate {A} (l : list A) (s k : nat) :
  skipn k (combine (seq s (length l)) l)
  = combine (seq (s + k) (length l - k)) (skipn k l).
Proof.
  revert s l. induction k as [|k IH]; intros s l.
  - simpl. now rewrite Nat.add_0_r, Nat.sub_0_r.
  - destruct l as [|x l]; simpl; [reflexivity|].
    rewrite IH. now replace (S s + k)%nat with (s + S k)%nat by lia.
Qed.

Lemma firstn_enumerate {A} (l : list A) (s m k : nat) :
  firstn k (combine (seq s m) l)
  = combine (seq s (Nat.min k m)) (firstn k l).
Proof.
  revert s m l. induction k as [|k IH]; intros s m l; simpl; [reflexivity|].
  destruct m as [|m]; simpl; [reflexivity|].
  destruct l as [|x l]; simpl; [reflexivity|].
  now rewrite IH.
Qed.

End PyFacts.

(** ** The walk-forward forecaster *)

Module ForecastingFacts.

Import Py PyFacts Forecasting.

Section Frames.

Variables Label cell : Type.
Variable to_numeric : cell -> F64.float.

Implicit Types (data : list (row Label)) (target peer : Series Label cell).

(** The row a step forecasts is the single row at its position. *)
Lemma test_row_single data (t : Z) :
  0 <= t < Z.of_nat (length data) ->
  exists r, nth_error data (Z.to_nat t) = Some r /\ test_row data t = [r].
Proof.
  intros Ht. unfold test_row. rewrite unit_slice by assumption.
  destruct (nth_error data (Z.to_nat t)) as [r|] eqn:E.
  - exists r. split; [reflexivity|].
    apply nth_error_split in E as (l1 & l2 & -> & Hlen).
    rewrite <- Hlen, skipn_app, Nat.sub_diag, skipn_all. reflexivity.
  - apply nth_error_None in E. lia.
Qed.




(** The first row of the frame has no lag and is dropped. *)
Lemma feature_frame_head target peer r rest :
  feature_frame to_numeric target peer = r :: rest ->
  complete r = false.
Proof.
  unfold feature_frame.
  destruct target as [|[i c] target]; [discriminate|].
  destruct peer as [|[j q] peer]; [discriminate|].
  cbn. intros [= <- _]. unfold complete. cbn.
  now rewrite orb_true_r.
Qed.

(** Positions of the rows a filter keeps, counted from [s]. *)
Lemma filter_positions {A} (f : A -> bool) (l : list A) (s k p : nat) (x : A) :
  nth_error (filter (fun y => f (snd y)) (combine (seq s (length l)) l)) k
    = Some (p, x) ->
  (s + k <= p)%nat /\ nth_error l (p - s) = Some x.
Proof.
  revert s k. induction l as [|a l IH]; intros s k; simpl.
  - destruct k; discriminate.
  - destruct (f a) eqn:Ef.
    + destruct k as [|k]; simpl.
      * intros [= <- <-]. rewrite Nat.sub_diag. split; [lia|reflexivity].
      * intros H. apply IH in H as [Hle Hnth]. split; [lia|].
        replace (p - s)%nat with (S (p - S s)) by lia. exact Hnth.
    + intros H. apply IH in H as [Hle Hnth]. split; [lia|].
      replace (p - s)%nat with (S (p - S s)) by lia. exact Hnth.
Qed.



(** The [k]-th surviving row sits at position [k + 1] or later. *)
Lemma aligned_positions_late target peer (k p : nat) (r : row Label) :
  nth_error (aligned_positions to_numeric target peer) k = Some (p, r) ->
  (k + 1 <= p)%nat
  /\ nth_error (feature_frame to_numeric target peer) p = Some r.
Proof.
  unfold aligned_positions, enumerate.
  destruct (feature_frame to_numeric target peer) as [|r0 rest] eqn:E.
  - destruct k; discriminate.
  - apply feature_frame_head in E. cbn [length seq combine filter snd].
    rewrite E. intros H. apply filter_positions in H as [Hle Hnth].
    split; [lia|].
    replace p with (S (p - 1)) by lia. exact Hnth.
Qed.




End Frames.

Section Loop.

Variable Label : Type.
Variable ols_fit_predict :
  list (F64.float * F64.float) -> list F64.float ->
  list (F64.float * F64.float) -> Py.result (list F64.float).

Implicit Types (data : list (row Label)).

Lemma observed_range data (s m : nat) :
  (s + m <= length data)%nat ->
  observed data (map Z.of_nat (seq s m))
  = map Actual_RV (firstn m (skipn s data)).
Proof.
  unfold observed. revert s.
  induction m as [|m IH]; intros s Hs; simpl; [reflexivity|].
  rewrite IH by lia. unfold test_row.
  rewrite unit_slice by lia. rewrite Nat2Z.id, skipn_succ_tl.
  destruct (skipn s data) as [|x rest] eqn:E; simpl; [|reflexivity].
  apply (f_equal (@length _)) in E. rewrite length_skipn in E. simpl in E. lia.
Qed.

(** When every step gets its prediction, the loop appends one
    prediction and one observation per step, in step order. *)
Lemma walk_returns data (w : Z) (ts : list Z) :
  (forall t, In t ts ->
     0 <= t < Z.of_nat (length data)
     /\ exists p ps,
          ols_fit_predict
            (map regressors (train_window data w t))
            (map Actual_RV (train_window data w t))
            (map regressors (test_row data t)) = inr (p :: ps)) ->
  forall predictions observations,
  exists fresh,
    walk ols_fit_predict data w ts predictions observations
    = inr (predictions ++ fresh, observations ++ observed data ts)
    /\ length fresh = length ts.
Proof.
  induction ts as [|t ts IH]; intros Hts predictions observations.
  - exists []. simpl. now rewrite !app_nil_r.
  - destruct (Hts t (or_introl eq_refl)) as (Ht & p & ps & Hfit).
    destruct (test_row_single _ data t Ht) as (r & Hr & Hrow).
    destruct (IH (fun u Hu => Hts u (or_intror Hu))
                (predictions ++ [p]) (observations ++ [Actual_RV r]))
      as (fresh & Hwalk & Hlen).
    exists (p :: fresh). split; [|simpl; now rewrite Hlen].
    cbn [walk]. unfold forecast_step. rewrite Hfit, Hrow. cbn.
    rewrite Hwalk. unfold observed. cbn [flat_map]. rewrite Hrow. cbn.
    now rewrite <- !app_assoc.
Qed.

(** What the frame constructor returns, and when. *)
Lemma results_frame_returns (idx : list Label) (obs preds : list F64.float) :
  length obs = length idx -> length preds = length idx ->
  exists out,
    results_frame idx obs preds = inr out
    /\ map Timestamp out = idx
    /\ map Actual out = obs
    /\ map Forecast out = preds.
Proof.
  intros Ho Hp. unfold results_frame.
  rewrite Ho, Hp, Nat.eqb_refl. cbn.
  eexists. split; [reflexivity|].
  rewrite !map_map. cbn.
  revert obs preds Ho Hp.
  induction idx as [|i idx IH]; intros [|o obs] [|q preds] Ho Hp;
    try discriminate; [now repeat split|].
  cbn in *. destruct (IH obs preds) as (H1 & H2 & H3); [lia|lia|].
  now rewrite H1, H2, H3.
Qed.


(** The whole loop on an aligned frame. *)
Lemma walk_forward_returns data (w : Z) :
  0 <= w ->
  fit_returns ols_fit_predict data w ->
  exists out,
    walk_forward ols_fit_predict data w = inr out
    /\ length out = (length data - Z.to_nat w)%nat
    /\ map Timestamp out = skipn (Z.to_nat w) (map label data)
    /\ map Actual out = skipn (Z.to_nat w) (map Actual_RV data).
Proof.
  intros Hw Hfit. unfold walk_forward.
  destruct (walk_returns data w (range w (Z.of_nat (length data)))) with
    (predictions := @nil F64.float) (observations := @nil F64.float)
    as (fresh & Hwalk & Hlen).
  { intros t Ht. split; [apply In_range in Ht; lia|]. now apply Hfit. }
  rewrite Hwalk. cbn.
  rewrite range_length in Hlen.
  rewrite range_nat by assumption.
  rewrite slice_from_in by assumption.
  destruct (Z.le_gt_cases (Z.of_nat (length data)) w) as [Hshort|Hlong].
  - replace (Z.to_nat (Z.of_nat (length data) - w)) with 0%nat in * by lia.
    destruct fresh; [|discriminate]. cbn.
    rewrite !skipn_all2 by (rewrite ?length_map; lia).
    exists []. cbn. repeat split. lia.
  - rewrite observed_range by lia.
    replace (Z.to_nat (Z.of_nat (length data) - w))
      with (length (skipn (Z.to_nat w) data)) in *
      by (rewrite length_skipn; lia).
    rewrite firstn_all.
    destruct (results_frame_returns (skipn (Z.to_nat w) (map label data))
                (map Actual_RV (skipn (Z.to_nat w) data)) fresh)
      as (out & E & Hidx & Hobs & _).
    { now rewrite !length_map, !length_skipn, length_map. }
    { rewrite Hlen. now rewrite !length_skipn, length_map. }
    exists out. rewrite E. repeat split; trivial.
    + apply (f_equal (@length _)) in Hidx.
      rewrite !length_map, length_skipn, length_map in Hidx. exact Hidx.
    + now rewrite Hobs, skipn_map.
Qed.

(** With too few rows the loop body never runs and the frame is empty. *)
Lemma walk_forward_short data (w : Z) :
  Z.of_nat (length data) < w + 1 ->
  walk_forward ols_fit_predict data w = inr [].
Proof.
  intros Hshort. unfold walk_forward.
  rewrite range_empty by lia. cbn.
  rewrite slice_from_in by lia.
  rewrite skipn_all2 by (rewrite length_map; lia). reflexivity.
Qed.

Lemma enumerate_length {A} (l : list A) : length (enumerate l) = length l.
Proof. unfold enumerate. rewrite length_combine, length_seq. lia. Qed.

(** A window of the enumerated frame carries exactly its positions. *)
Lemma slice_enumerate {A} (a b : Z) (l : list A) :
  0 <= a <= b -> b <= Z.of_nat (length l) ->
  slice a b (enumerate l)
  = combine (seq (Z.to_nat a) (Z.to_nat b - Z.to_nat a)) (slice a b l).
Proof.
  intros Hab Hb.
  rewrite !slice_in by (rewrite ?enumerate_length; assumption).
  unfold enumerate. rewrite skipn_enumerate, firstn_enumerate. cbn.
  f_equal. f_equal. lia.
Qed.

(** C1. At every step [t] of the loop (from [window_size] to
    [len(data) - 1]) the training subset has exactly [window_size] rows,
    they are the rows at positions [t - window_size .. t - 1] of the
    aligned frame, no position of the subset is [t] or later, rows from
    position [t] on have no influence on it, and it is the subset the
    regression of step [t] is fitted on. *)
Theorem C1_training_window_is_causal
  data (window_size t : Z) :
  0 <= window_size ->
  In t (range window_size (Z.of_nat (length data))) ->
  let train := train_window data window_size t in
  let first := Z.to_nat (t - window_size) in
  length train = Z.to_nat window_size
  /\ (forall i, (i < Z.to_nat window_size)%nat ->
        nth_error train i = nth_error data (first + i))
  /\ slice (t - window_size) t (enumerate data)
     = combine (seq first (Z.to_nat window_size)) train
  /\ Forall (fun x => t - window_size <= Z.of_nat (fst x) < t)
       (slice (t - window_size) t (enumerate data))
  /\ (forall data',
        t <= Z.of_nat (length data') ->
        firstn (Z.to_nat t) data' = firstn (Z.to_nat t) data ->
        train_window data' window_size t = train)
  /\ forecast_step ols_fit_predict data window_size t
     = (forecast <- ols_fit_predict (map regressors train)
                      (map Actual_RV train)
                      (map regressors (test_row data t)) ;;
        p <- item0 forecast ;;
        o <- item0 (map Actual_RV (test_row data t)) ;;
        ret (p, o)).
Proof.
  intros Hw Ht train first. apply In_range in Ht.
  assert (Hsize : (Z.to_nat t - Z.to_nat (t - window_size))%nat
                  = Z.to_nat window_size) by lia.
  assert (Henum : slice (t - window_size) t (enumerate data)
                  = combine (seq first (Z.to_nat window_size)) train).
  { rewrite slice_enumerate by lia. now rewrite Hsize. }
  split; [|split; [|split; [|split; [|split]]]].
  - unfold train, train_window. rewrite slice_length by lia. exact Hsize.
  - intros i Hi. unfold train, train_window.
    apply slice_nth_error; lia.
  - exact Henum.
  - rewrite Henum. apply Forall_forall. intros [p r] Hin.
    apply in_combine_l, in_seq in Hin. cbn. lia.
  - intros data' Hlen Hpre. unfold train, train_window.
    apply slice_prefix; trivial; lia.
  - reflexivity.
Qed.

(** C4 (amended). On an aligned frame of at least [window_size + 1]
    rows, provided every step's regression returns a prediction, the
    output has [len(data) - window_size] rows, indexed by the labels of
    the frame from position [window_size] on, in order; the actual
    values are the frame's from that position on. Without the proviso
    the call may raise: the row count alone does not make the
    regression return. *)
Theorem C4_output_length_and_index data (window_size : Z) :
  0 <= window_size ->
  window_size + 1 <= Z.of_nat (length data) ->
  fit_returns ols_fit_predict data window_size ->
  exists out,
    walk_forward ols_fit_predict data window_size = inr out
    /\ Z.of_nat (length out) = Z.of_nat (length data) - window_size
    /\ map Timestamp out = slice_from window_size (map label data)
    /\ map Timestamp out = skipn (Z.to_nat window_size) (map label data)
    /\ map Actual out = skipn (Z.to_nat window_size) (map Actual_RV data).
Proof.
  intros Hw Hlen Hfit.
  destruct (walk_forward_returns data window_size Hw Hfit)
    as (out & E & Hn & Hidx & Hact).
  exists out. repeat split; trivial.
  - lia.
  - now rewrite slice_from_in by assumption.
Qed.

End Loop.

Section Rolling.

Variables Label cell : Type.
Variable to_numeric : cell -> F64.float.
Variable ols_fit_predict :
  list (F64.float * F64.float) -> list F64.float ->
  list (F64.float * F64.float) -> Py.result (list F64.float).

Implicit Types (target peer : Series Label cell).

(** C3 (amended). No length check guards the loop: on an aligned frame
    of fewer than [window_size + 1] rows [rolling_forecast] raises
    nothing and returns the empty frame; on exactly [window_size + 1]
    rows, the regression returning, it returns exactly one record, for
    the last row of the aligned frame. *)
Theorem C3_short_frame_gives_empty_result target peer (window_size : Z) :
  same_index target peer ->
  let data := aligned_frame to_numeric target peer in
  (Z.of_nat (length data) < window_size + 1 ->
   rolling_forecast to_numeric ols_fit_predict target peer window_size
   = inr [])
  /\ (0 <= window_size ->
      Z.of_nat (length data) = window_size + 1 ->
      fit_returns ols_fit_predict data window_size ->
      exists r,
        rolling_forecast to_numeric ols_fit_predict target peer window_size
        = inr [r]
        /\ [Timestamp r] = skipn (Z.to_nat window_size) (map label data)
        /\ [Actual r] = skipn (Z.to_nat window_size) (map Actual_RV data)).
Proof.
  intros _ data. split.
  - intros Hshort. now apply walk_forward_short.
  - intros Hw Hlen Hfit.
    destruct (walk_forward_returns _ ols_fit_predict data window_size Hw Hfit)
      as (out & E & Hn & Hidx & Hact).
    destruct out as [|r [|r' out]]; cbn in Hn; try lia.
    exists r. repeat split; trivial.
Qed.


End Rolling.

(** *** The theorems on concrete series *)

Import Samples.

Lemma lag_fit_returns (data : list (row Z)) (w : Z) :
  0 < w -> fit_returns lag_fit data w.
Proof.
  intros Hw t Ht. apply In_range in Ht.
  destruct (test_row_single _ data t ltac:(lia)) as (r & _ & ->).
  assert (Hlen : length (train_window data w t) = Z.to_nat w).
  { unfold train_window. rewrite slice_length by lia. lia. }
  destruct (train_window data w t) as [|r0 tr]; [simpl in Hlen; lia|].
  cbn. eauto.
Qed.

(** Step 3 of a run with window 2 over the four aligned rows of
    [target5], [peer5]: the window is rows 1 and 2. *)
Lemma C1_witness :
  let data := aligned_frame id_numeric target5 peer5 in
  0 <= 2
  /\ In 3 (range 2 (Z.of_nat (length data)))
  /\ length (train_window data 2 3) = 2%nat
  /\ map fst (slice (3 - 2) 3 (enumerate data)) = [1%nat; 2%nat]
  /\ map label (train_window data 2 3) = [2; 3].
Proof.
  intros data.
  assert (H0 : 0 <= 2) by lia.
  assert (H1 : In 3 (range 2 (Z.of_nat (length data)))).
  { vm_compute. auto. }
  destruct (C1_training_window_is_causal Z lag_fit data 2 3 H0 H1)
    as (Hlen & _ & Henum & _).
  split; [exact H0|]. split; [exact H1|]. split; [exact Hlen|].
  split; [rewrite Henum|]; vm_compute; reflexivity.
Defined.

(** The same run as a whole: two records, labelled 3 and 4. *)
Lemma C4_witness :
  let data := aligned_frame id_numeric target5 peer5 in
  0 <= 2
  /\ 2 + 1 <= Z.of_nat (length data)
  /\ exists out,
       walk_forward lag_fit data 2 = inr out
       /\ Z.of_nat (length out) = Z.of_nat (length data) - 2
       /\ map Timestamp out = [3; 4].
Proof.
  intros data.
  assert (H0 : 0 <= 2) by lia.
  assert (H1 : 2 + 1 <= Z.of_nat (length data)) by (vm_compute; discriminate).
  destruct (C4_output_length_and_index Z lag_fit data 2 H0 H1
              (lag_fit_returns data 2 ltac:(lia)))
    as (out & E & Hn & _ & Hidx & _).
  split; [exact H0|]. split; [exact H1|].
  exists out. split; [exact E|]. split; [exact Hn|].
  rewrite Hidx. vm_compute. reflexivity.
Defined.

(** C4, counterexample. Four aligned rows and window 0: one row is
    asked for and there are four, but every training window
    [data.iloc[t:t]] is empty, the regression refuses it, and the call
    raises instead of returning four records. *)
Lemma C4_counterexample :
  0 + 1 <= Z.of_nat (length (aligned_frame id_numeric target5 peer5))
  /\ rolling_forecast id_numeric lag_fit target5 peer5 0 = inl ValueError.
Proof. split; [vm_compute; discriminate|vm_compute; reflexivity]. Qed.

(** C3, counterexample. Two observations and the default window of six:
    the aligned frame has one row, fewer than seven, and the call
    returns the empty frame instead of raising. *)
Lemma C3_counterexample :
  same_index target2 peer2
  /\ length (aligned_frame id_numeric target2 peer2) = 1%nat
  /\ rolling_forecast id_numeric lag_fit target2 peer2 6 = inr [].
Proof. vm_compute. repeat split. Qed.

(** The short frame gives the empty result; five observations and
    window 3 leave four aligned rows and one record, for label 4. *)
Lemma C3_witness :
  same_index target2 peer2
  /\ Z.of_nat (length (aligned_frame id_numeric target2 peer2)) < 6 + 1
  /\ rolling_forecast id_numeric lag_fit target2 peer2 6 = inr []
  /\ same_index target5 peer5
  /\ Z.of_nat (length (aligned_frame id_numeric target5 peer5)) = 3 + 1
  /\ exists r,
       rolling_forecast id_numeric lag_fit target5 peer5 3 = inr [r]
       /\ Timestamp r = 4.
Proof.
  assert (Hs2 : same_index target2 peer2) by reflexivity.
  assert (Hs5 : same_index target5 peer5) by reflexivity.
  assert (Hl2 : Z.of_nat (length (aligned_frame id_numeric target2 peer2))
                < 6 + 1) by (vm_compute; reflexivity).
  assert (Hl5 : Z.of_nat (length (aligned_frame id_numeric target5 peer5))
                = 3 + 1) by (vm_compute; reflexivity).
  pose proof (C3_short_frame_gives_empty_result Z F64.float id_numeric
                lag_fit target2 peer2 6 Hs2) as [Hshort _].
  pose proof (C3_short_frame_gives_empty_result Z F64.float id_numeric
                lag_fit target5 peer5 3 Hs5) as [_ Hone].
  destruct (Hone ltac:(lia) Hl5 (lag_fit_returns _ 3 ltac:(lia)))
    as (r & E & Hts & _).
  refine (conj Hs2 (conj Hl2 (conj (Hshort Hl2) (conj Hs5 (conj Hl5 _))))).
  exists r. split; [exact E|].
  vm_compute in Hts. now injection Hts.
Defined.


Import MoreSamples.


End ForecastingFacts.

(** ** The skill evaluator *)

Module EvaluationFacts.

Import Py PyFacts Forecasting Evaluation.

(** A series without missing values is left alone by [bfill]. *)
Lemma bfill_present (l : list F64.float) :
  Forall (fun x => F64.isna x = false) l -> bfill l = l.
Proof.
  induction 1 as [|x l Hx _ IH]; simpl; [reflexivity|].
  now rewrite Hx, IH.
Qed.

Lemma bfill_length (l : list F64.float) : length (bfill l) = length l.
Proof. induction l as [|x l IH]; simpl; [reflexivity|]. now rewrite IH. Qed.




Section Evaluate.

Variable Label : Type.
Variable mean_squared_error :
  list F64.float -> list F64.float -> Py.result F64.float.

Implicit Types (results_df : list (forecast_record Label)).


(** C7 (amended). On at least two records whose actual values are all
    present, the baseline has one value per record, none missing: the
    first is the first actual value (the value next to the hole the
    shift leaves), every later one is the actual value one position
    before. *)
Theorem C7_naive_baseline_is_previous_actual results_df :
  (2 <= length results_df)%nat ->
  Forall (fun r => F64.isna (Actual r) = false) results_df ->
  let actual := map Actual results_df in
  let baseline := naive_forecast results_df in
  length baseline = length results_df
  /\ nth_error baseline 0 = nth_error actual 0
  /\ (forall i, (i + 1 < length results_df)%nat ->
        nth_error baseline (S i) = nth_error actual i)
  /\ Forall (fun x => F64.isna x = false) baseline.
Proof.
  intros Hlen Hpresent actual baseline.
  assert (Hact : Forall (fun x => F64.isna x = false) actual).
  { unfold actual. apply Forall_map. exact Hpresent. }
  assert (Hn : length actual = length results_df)
    by (unfold actual; apply length_map).
  assert (Hbase : baseline = hd F64.nan actual :: removelast actual).
  { unfold baseline, naive_forecast. fold actual.
    destruct actual as [|a0 [|a1 rest]] eqn:E; cbn in Hn; try lia.
    unfold shift1. cbn [bfill F64.isna F64.nan hd].
    rewrite bfill_present by (now apply removelast_Forall).
    reflexivity. }
  destruct actual as [|a0 rest] eqn:E; cbn in Hn; [lia|].
  rewrite Hbase. cbn [hd]. repeat split.
  - cbn [length]. rewrite removelast_firstn_len, length_firstn.
    cbn [length]. lia.
  - intros i Hi. cbn [nth_error]. apply removelast_nth_error.
    cbn [length]. lia.
  - constructor; [now inversion Hact|now apply removelast_Forall].
Qed.

End Evaluate.

Import Samples.

(** C7, counterexample. A single record (what [rolling_forecast]
    returns on [window_size + 1] rows): the shift leaves one hole and
    nothing to fill it from, so the only baseline value is missing, and
    with scikit-learn's input validation the evaluation raises. *)
Lemma C7_counterexample :
  length single_record = 1%nat
  /\ naive_forecast single_record = [F64.nan]
  /\ evaluate_forecast mean_squared_error_ref single_record
     = inl ValueError.
Proof. vm_compute. repeat split. Qed.

(** Actual values 1, 2, 4: the baseline is 1, 1, 2. *)
Lemma C7_witness :
  (2 <= length rising_records)%nat
  /\ Forall (fun r => F64.isna (Actual r) = false) rising_records
  /\ naive_forecast rising_records = [F64.of_Z 1; F64.of_Z 1; F64.of_Z 2]
  /\ length (naive_forecast rising_records) = length rising_records
  /\ Forall (fun x => F64.isna x = false) (naive_forecast rising_records).
Proof.
  assert (H2 : (2 <= length rising_records)%nat) by (vm_compute; lia).
  assert (Hp : Forall (fun r => F64.isna (Actual r) = false) rising_records)
    by (repeat constructor).
  destruct (C7_naive_baseline_is_previous_actual Z rising_records H2 Hp)
    as (Hlen & _ & _ & Hall).
  refine (conj H2 (conj Hp (conj _ (conj Hlen Hall)))).
  vm_compute. reflexivity.
Defined.



End EvaluationFacts.

(** ** The peer selector *)

Module DataLoadingFacts.

Import Py PyFacts DataLoading Samples.
Import String.StringSyntax.

(** *** The float order *)

Lemma compare_antisym (x y : F64.float) (c : comparison) :
  SFcompare x y = Some c -> SFcompare y x = Some (CompOpp c).
Proof.
  destruct x as [s|s| |s m e], y as [s'|s'| |s' m' e']; cbn;
    try discriminate;
    try (intros [= <-];
         repeat match goal with b : bool |- _ => destruct b end;
         reflexivity).
  intros [= <-].
  change (Pos.compare_cont Eq m' m) with (Pos.compare m' m).
  change (Pos.compare_cont Eq m m') with (Pos.compare m m').
  rewrite (Z.compare_antisym e e'), (Pos.compare_antisym m m').
  destruct s, s', (e ?= e')%Z, (m ?= m')%positive; reflexivity.
Qed.

Lemma ltb_asym (x y : F64.float) :
  F64.ltb x y = true -> F64.ltb y x = false.
Proof.
  unfold F64.ltb, SFltb.
  destruct (SFcompare x y) as [c|] eqn:E; [|discriminate].
  apply compare_antisym in E. rewrite E.
  destruct c; try discriminate. reflexivity.
Qed.

(** *** Two sorts that meet numpy's contract *)

Lemma Sorted_adjacent {A} (R : A -> A -> Prop) (l : list A) (k : nat) (a b : A) :
  Sorted R l ->
  nth_error l k = Some a -> nth_error l (S k) = Some b -> R a b.
Proof.
  intros Hs. revert k. induction Hs as [|x l Hs IH Hhd]; intros k.
  - destruct k; discriminate.
  - destruct k as [|k]; cbn.
    + intros [= ->]. destruct Hhd as [|y l Hxy]; [discriminate|].
      cbn. now intros [= ->].
    + apply IH.
Qed.

Lemma adjacent_Sorted {A} (R : A -> A -> Prop) (l : list A) :
  (forall k a b, nth_error l k = Some a -> nth_error l (S k) = Some b -> R a b) ->
  Sorted R l.
Proof.
  induction l as [|x l IH]; intros H; constructor.
  - apply IH. intros k a b. apply (H (S k)).
  - destruct l as [|y l]; constructor. now apply (H 0%nat).
Qed.

Section Insertion.

Variable skip : F64.float -> F64.float -> bool.
Hypothesis skip_behind : forall x y, skip x y = true -> F64.ltb x y = false.
Hypothesis skip_before : forall x y, skip x y = false -> F64.ltb y x = false.

Lemma insert_by_perm x l : Permutation (insert_by skip x l) (x :: l).
Proof.
  induction l as [|y l IH]; cbn; [reflexivity|].
  destruct (skip (snd x) (snd y)); [|reflexivity].
  rewrite IH. apply perm_swap.
Qed.

Lemma insert_by_HdRel x y l :
  key_le y x -> HdRel key_le y l -> HdRel key_le y (insert_by skip x l).
Proof.
  intros Hyx Hhd. destruct l as [|z l]; cbn; [now constructor|].
  destruct (skip (snd x) (snd z)); constructor; trivial.
  now inversion Hhd.
Qed.

Lemma insert_by_sorted x l :
  Sorted key_le l -> Sorted key_le (insert_by skip x l).
Proof.
  induction 1 as [|y l Hs IH Hhd]; cbn; [repeat constructor|].
  destruct (skip (snd x) (snd y)) eqn:E.
  - constructor; [exact IH|].
    apply insert_by_HdRel; trivial. now apply skip_behind.
  - constructor; [now constructor|].
    constructor. now apply skip_before.
Qed.

Lemma fold_insert (xs acc : list (nat * F64.float)) :
  Sorted key_le acc ->
  let out := fold_left (fun acc x => insert_by skip x acc) xs acc in
  Sorted key_le out /\ Permutation out (xs ++ acc).
Proof.
  revert acc. induction xs as [|x xs IH]; intros acc Hacc; cbn.
  - split; [exact Hacc|reflexivity].
  - destruct (IH (insert_by skip x acc) (insert_by_sorted x acc Hacc))
      as [Hs Hp].
    split; [exact Hs|].
    rewrite Hp, insert_by_perm. symmetry. apply Permutation_middle.
Qed.

Lemma enumerated_key (keys : list F64.float) (s i : nat) (k : F64.float) :
  In (i, k) (combine (seq s (length keys)) keys) ->
  (s <= i)%nat /\ nth_error keys (i - s) = Some k.
Proof.
  revert s. induction keys as [|x keys IH]; intros s; cbn; [tauto|].
  intros [[= <- <-]|H].
  - rewrite Nat.sub_diag. split; [lia|reflexivity].
  - apply IH in H as [Hle Hnth]. split; [lia|].
    now replace (i - s)%nat with (S (i - S s)) by lia.
Qed.

Lemma enumerated_positions {A} (l : list A) (s : nat) :
  map fst (combine (seq s (length l)) l) = seq s (length l).
Proof.
  revert s. induction l as [|x l IH]; intros s; cbn; [reflexivity|].
  now rewrite IH.
Qed.

Lemma insertion_argsort_contract : argsort_contract (insertion_argsort skip).
Proof.
  intros keys. unfold insertion_argsort.
  destruct (fold_insert (combine (seq 0 (length keys)) keys) [])
    as [Hs Hp]; [constructor|].
  rewrite app_nil_r in Hp.
  set (out := fold_left _ _ _) in *.
  split.
  - rewrite (Permutation_map fst Hp).
    now rewrite enumerated_positions.
  - intros k i j Hi Hj.
    rewrite nth_error_map in Hi, Hj.
    destruct (nth_error out k) as [[i' ki]|] eqn:Ei; [|discriminate].
    destruct (nth_error out (S k)) as [[j' kj]|] eqn:Ej; [|discriminate].
    cbn in Hi, Hj. injection Hi as ->. injection Hj as ->.
    pose proof (Sorted_adjacent _ _ _ _ _ Hs Ei Ej) as Hle.
    unfold key_le in Hle. cbn in Hle.
    assert (Hkey : forall p q, nth_error out p = Some q ->
                               key_at keys (fst q) = snd q).
    { intros p [a ka] Hq. apply nth_error_In in Hq.
      apply (Permutation_in _ Hp) in Hq.
      apply enumerated_key in Hq as [_ Hq]. rewrite Nat.sub_0_r in Hq.
      cbn. unfold key_at. now apply nth_error_nth. }
    pose proof (Hkey _ _ Ei) as Hki. pose proof (Hkey _ _ Ej) as Hkj.
    cbn in Hki, Hkj. now rewrite Hki, Hkj.
Qed.

End Insertion.

Lemma stable_argsort_contract : argsort_contract stable_argsort.
Proof.
  apply insertion_argsort_contract.
  - intros x y H. now apply negb_true_iff in H.
  - intros x y H. apply negb_false_iff in H. now apply ltb_asym.
Qed.

Lemma tie_reversing_argsort_contract : argsort_contract tie_reversing_argsort.
Proof.
  apply insertion_argsort_contract.
  - intros x y H. now apply ltb_asym.
  - intros x y H. exact H.
Qed.

Local Open Scope string_scope.

(** *** Positional selection *)

Lemma take_In {A} (l : list A) (indexer : list nat) (x : A) :
  In x (take l indexer) -> In x l.
Proof.
  unfold take. rewrite in_flat_map. intros (i & _ & Hx).
  destruct (nth_error l i) as [y|] eqn:E; [|contradiction].
  destruct Hx as [<-|[]]. eapply nth_error_In, E.
Qed.

Lemma take_app {A} (l : list A) (i j : list nat) :
  take l (i ++ j) = take l i ++ take l j.
Proof. apply flat_map_app. Qed.

Lemma take_seq {A} (l : list A) (s m : nat) :
  take l (seq s m) = firstn m (skipn s l).
Proof.
  unfold take. revert s. induction m as [|m IH]; intros s; cbn; [reflexivity|].
  rewrite IH, skipn_succ_tl, <- hd_error_skipn.
  destruct (skipn s l) as [|x rest]; cbn; [now rewrite firstn_nil|reflexivity].
Qed.

Lemma take_all {A} (l : list A) : take l (seq 0 (length l)) = l.
Proof. rewrite take_seq. cbn. apply firstn_all. Qed.

Lemma take_perm {A} (l : list A) (i j : list nat) :
  Permutation i j -> Permutation (take l i) (take l j).
Proof. apply Permutation_flat_map. Qed.

(** Along valid positions, a column of the selection is the column
    read at those positions. *)
Lemma take_keys {A} (f : A -> F64.float) (l : list A) (indexer : list nat) :
  Forall (fun i => (i < length l)%nat) indexer ->
  map f (take l indexer) = map (key_at (map f l)) indexer.
Proof.
  unfold take.
  induction 1 as [|i indexer Hi _ IH]; cbn; [reflexivity|].
  rewrite map_app, IH.
  destruct (nth_error l i) as [x|] eqn:E.
  - cbn. f_equal. symmetry. apply nth_error_nth.
    now rewrite nth_error_map, E.
  - apply nth_error_None in E. lia.
Qed.

Lemma perm_seq_valid (p : list nat) (n : nat) :
  Permutation p (seq 0 n) -> Forall (fun i => (i < n)%nat) p.
Proof.
  intros Hp. apply Forall_forall. intros i Hi.
  apply (Permutation_in _ Hp), in_seq in Hi. lia.
Qed.

Lemma filter_split {A} (f : A -> bool) (l : list A) :
  Permutation (filter f l ++ filter (fun x => negb (f x)) l) l.
Proof.
  induction l as [|x l IH]; cbn; [reflexivity|].
  destruct (f x); cbn.
  - now constructor.
  - rewrite <- Permutation_middle. now constructor.
Qed.

(** *** [nargsort] *)

(** The keys that are present, read at their positions. *)
Lemma present_keys (keys : list F64.float) :
  map (key_at keys)
    (filter (fun i => negb (F64.isna (key_at keys i))) (seq 0 (length keys)))
  = filter (fun k => negb (F64.isna k)) keys.
Proof.
  induction keys as [|x keys IH]; [reflexivity|].
  cbn [length seq]. rewrite <- seq_shift.
  cbn [filter]. rewrite filter_map_swap.
  change (key_at (x :: keys) 0) with x.
  destruct (F64.isna x); cbn [negb map]; rewrite map_map;
    change (fun i => key_at (x :: keys) (S i)) with (key_at keys);
    now rewrite <- IH.
Qed.

Section Ranking.

Variable argsort : list F64.float -> list nat.
Hypothesis contract : argsort_contract argsort.

Lemma non_nan_idx_keys keys :
  map (key_at keys) (non_nan_idx keys) = non_nans keys.
Proof.
  apply present_keys.
Qed.

Lemma non_nan_idx_length keys :
  length (non_nan_idx keys) = length (non_nans keys).
Proof. now rewrite <- non_nan_idx_keys, length_map. Qed.

Lemma nargsort_perm keys :
  Permutation (nargsort argsort keys) (seq 0 (length keys)).
Proof.
  unfold nargsort.
  destruct (contract (non_nans keys)) as [Hp _].
  rewrite (take_perm _ _ _ Hp), <- non_nan_idx_length, take_all.
  unfold non_nan_idx, nan_idx.
  rewrite <- (filter_split (fun i => negb (F64.isna (key_at keys i)))
                (seq 0 (length keys))) at 3.
  apply Permutation_app_head.
  erewrite filter_ext; [reflexivity|].
  intros i. cbn. now destruct (F64.isna (key_at keys i)).
Qed.

Lemma nan_idx_keys keys :
  Forall (fun k => F64.isna k = true) (map (key_at keys) (nan_idx keys)).
Proof.
  apply Forall_map, Forall_forall. intros i Hi.
  now apply filter_In in Hi as [_ Hi].
Qed.

Lemma sorted_then_missing (l1 l2 : list F64.float) :
  Sorted dist_le l1 -> Forall (fun k => F64.isna k = true) l2 ->
  Sorted dist_le (l1 ++ l2).
Proof.
  intros Hs Hm.
  assert (Hnan : forall x y, F64.isna y = true -> dist_le x y).
  { intros x y Hy. destruct y; try discriminate.
    split; [|reflexivity]. unfold F64.ltb, SFltb. now destruct x. }
  induction Hs as [|x l1 Hs IH Hhd]; cbn.
  - induction Hm as [|y l2 Hy Hm IH]; constructor; trivial.
    destruct Hm; constructor. now apply Hnan.
  - constructor; [exact IH|].
    destruct Hhd as [|z l1 Hxz]; cbn; [|now constructor].
    destruct Hm; constructor. now apply Hnan.
Qed.

(** The keys read along the indexer ascend, the missing ones last. *)
Lemma nargsort_sorted keys :
  Sorted dist_le (map (key_at keys) (nargsort argsort keys)).
Proof.
  unfold nargsort. rewrite map_app.
  destruct (contract (non_nans keys)) as [Hp Hasc].
  apply sorted_then_missing; [|apply nan_idx_keys].
  rewrite take_keys, non_nan_idx_keys.
  2:{ rewrite non_nan_idx_length. now apply perm_seq_valid. }
  apply adjacent_Sorted. intros k a b Ha Hb.
  rewrite nth_error_map in Ha, Hb.
  destruct (nth_error (argsort (non_nans keys)) k) as [i|] eqn:Ei;
    [|discriminate].
  destruct (nth_error (argsort (non_nans keys)) (S k)) as [j|] eqn:Ej;
    [|discriminate].
  cbn in Ha, Hb. injection Ha as <-. injection Hb as <-.
  split; [exact (Hasc k i j Ei Ej)|].
  intros Hna. exfalso.
  assert (Hi : (i < length (non_nans keys))%nat).
  { apply nth_error_In in Ei.
    apply (Permutation_in _ Hp), in_seq in Ei. lia. }
  assert (Hin : In (key_at (non_nans keys) i) (non_nans keys))
    by (now apply nth_In).
  apply filter_In in Hin as [_ Hin]. now rewrite Hna in Hin.
Qed.

(** [sort_values] rearranges the rows so that their keys ascend. *)
Lemma sort_values_spec {A} (f : A -> F64.float) (rows : list A) :
  let ranked := sort_values argsort rows (map f rows) in
  Permutation ranked rows /\ Sorted dist_le (map f ranked).
Proof.
  cbn. unfold sort_values.
  pose proof (nargsort_perm (map f rows)) as Hp.
  rewrite length_map in Hp. split.
  - rewrite (take_perm _ _ _ Hp). now rewrite take_all.
  - rewrite take_keys by (now apply perm_seq_valid).
    apply nargsort_sorted.
Qed.

End Ranking.

(** *** [get_peers] *)

Lemma take_nil {A} (indexer : list nat) : take (@nil A) indexer = [].
Proof.
  unfold take. induction indexer as [|i indexer IH]; cbn; [reflexivity|].
  now destruct i.
Qed.

Lemma head_firstn {A} (n : Z) (l : list A) :
  0 <= n -> head n l = firstn (Z.to_nat n) l.
Proof.
  intros Hn. unfold head, slice.
  rewrite (slice_bound_in _ 0) by lia. cbn [Z.to_nat skipn].
  rewrite Z.sub_0_r.
  destruct (Z.le_gt_cases n (Z.of_nat (length l))).
  - now rewrite slice_bound_in by lia.
  - rewrite slice_bound_past by lia. rewrite Nat2Z.id, firstn_all.
    symmetry. apply firstn_all2. lia.
Qed.

(** The first record carrying the ticker, when there is one. *)
Lemma first_match (ipo_universe : list ipo_record) ticker :
  match filter (fun r => tic_eqb (tic r) ticker) ipo_universe with
  | [] => forall r, In r ipo_universe -> tic_eqb (tic r) ticker = false
  | target :: _ =>
      exists before after,
        ipo_universe = before ++ target :: after
        /\ tic_eqb (tic target) ticker = true
        /\ forall r, In r before -> tic_eqb (tic r) ticker = false
  end.
Proof.
  induction ipo_universe as [|x l IH]; cbn; [tauto|].
  destruct (tic_eqb (tic x) ticker) eqn:E.
  - exists [], l. cbn. repeat split; tauto.
  - destruct (filter _ l) as [|target rest].
    + intros r [<-|Hr]; auto.
    + destruct IH as (before & after & -> & Ht & Hb).
      exists (x :: before), after. repeat split; trivial.
      intros r [<-|Hr]; auto.
Qed.

Lemma filter_first_match (pre post : list ipo_record) target ticker :
  (forall r, In r pre -> tic_eqb (tic r) ticker = false) ->
  tic_eqb (tic target) ticker = true ->
  item0 (filter (fun r => tic_eqb (tic r) ticker) (pre ++ target :: post))
  = inr target.
Proof.
  intros Hpre Ht. rewrite filter_app.
  replace (filter _ pre) with (@nil ipo_record).
  - cbn. now rewrite Ht.
  - symmetry. induction pre as [|x pre IH]; cbn; [reflexivity|].
    rewrite (Hpre x (or_introl eq_refl)). apply IH.
    intros r Hr. apply Hpre. now right.
Qed.

(** *** The subtraction of the reporting lag *)

Lemma sub_timedelta_in_bounds (a : date) (d : Z) :
  out_of_bounds a d = false -> sub_timedelta a d = inr (date_sub a d).
Proof. intros H. unfold sub_timedelta. now rewrite H. Qed.

Lemma sub_timedelta_raises (a : date) (d : Z) (e : exn) :
  sub_timedelta a d = inl e ->
  e = OutOfBoundsDatetime /\ out_of_bounds a d = true.
Proof.
  unfold sub_timedelta. destruct (out_of_bounds a d); [|discriminate].
  now intros [= <-].
Qed.

Lemma sub_timedelta_returns (a : date) (d : Z) (c : date) :
  sub_timedelta a d = inr c ->
  out_of_bounds a d = false /\ c = date_sub a d.
Proof.
  unfold sub_timedelta. destruct (out_of_bounds a d); [discriminate|].
  now intros [= <-].
Qed.

Lemma date_sub_Some (x d y : Z) :
  date_sub (Some x) d = Some y -> y = x - d.
Proof.
  unfold date_sub. destruct (x - d =? int64_min); [discriminate|].
  now intros [= <-].
Qed.

Section Peers.

Variable argsort : list F64.float -> list nat.

Implicit Types (ipo_universe : list ipo_record) (target : ipo_record)
  (ticker : String.string).

(** [get_peers] from the target row on. *)
Lemma get_peers_target ipo_universe ticker (n_peers : Z) target :
  item0 (filter (fun r => tic_eqb (tic r) ticker) ipo_universe) = inr target ->
  get_peers argsort ipo_universe ticker n_peers
  = (_ <- sub_timedelta (ipodate target) reporting_lag ;;
     inr (peers_of argsort ipo_universe target ticker n_peers)).
Proof. intros H. unfold get_peers. now rewrite H. Qed.

Lemma get_peers_inv ipo_universe ticker (n_peers : Z) out :
  get_peers argsort ipo_universe ticker n_peers = inr out ->
  exists target,
    item0 (filter (fun r => tic_eqb (tic r) ticker) ipo_universe) = inr target
    /\ out_of_bounds (ipodate target) reporting_lag = false
    /\ out = peers_of argsort ipo_universe target ticker n_peers.
Proof.
  unfold get_peers.
  destruct (item0 _) as [e|target]; [discriminate|]. cbn [bind].
  destruct (sub_timedelta _ _) as [e|c] eqn:E; [discriminate|]. cbn [bind].
  intros [= <-]. exists target.
  apply sub_timedelta_returns in E as [E _]. now repeat split.
Qed.

(** Whatever the sort does, a returned id is the ticker of a record
    that passed both filters. *)
Lemma peers_of_In ipo_universe target ticker n_peers p :
  In p (peers_of argsort ipo_universe target ticker n_peers) ->
  exists r, In r (potential_peers ipo_universe target ticker) /\ tic r = p.
Proof.
  unfold peers_of.
  destruct (potential_peers ipo_universe target ticker) as [|r0 rest] eqn:E;
    [intros []|].
  intros Hp. apply In_slice, in_map_iff in Hp as (r & <- & Hr).
  apply take_In in Hr. now exists r.
Qed.

Lemma potential_peers_In ipo_universe target ticker r :
  In r (potential_peers ipo_universe target ticker) <->
  In r ipo_universe
  /\ sector_eqb (gsector r) (gsector target) = true
  /\ date_ltb (ipodate r) (ipodate target) = true
  /\ tic_eqb (tic r) ticker = false
  /\ date_ltb (rdq r) (date_sub (ipodate target) reporting_lag) = true.
Proof.
  unfold potential_peers, reported_in_time, is_candidate.
  rewrite !filter_In, !andb_true_iff, negb_true_iff. tauto.
Qed.

Lemma sector_eqb_true (a b : option Z) :
  sector_eqb a b = true -> exists s, a = Some s /\ b = Some s.
Proof.
  destruct a as [x|], b as [y|]; cbn; try discriminate.
  intros H. apply Z.eqb_eq in H as ->. now exists y.
Qed.

Lemma date_ltb_true (a b : date) :
  date_ltb a b = true -> exists x y, a = Some x /\ b = Some y /\ x < y.
Proof.
  destruct a as [x|], b as [y|]; cbn; try discriminate.
  intros H. apply Z.ltb_lt in H. now exists x, y.
Qed.

Lemma tic_eqb_true (t : option String.string) ticker :
  tic_eqb t ticker = true <-> t = Some ticker.
Proof.
  destruct t as [x|]; cbn.
  - rewrite String.eqb_eq. split; congruence.
  - split; discriminate.
Qed.

Lemma tic_eqb_false (t : option String.string) ticker :
  tic_eqb t ticker = false <-> t <> Some ticker.
Proof.
  rewrite <- tic_eqb_true. now destruct (tic_eqb t ticker).
Qed.

(** C2. Every id that [get_peers] returns is the ticker of a record of
    the universe with the sector code of the target (the first record
    carrying the target ticker), another ticker than the target's, a
    listing date strictly before the target's, and a report date
    strictly before the target's listing date minus 45 days. *)
Theorem C2_returned_peers_pass_the_filters
  ipo_universe ticker (n_peers : Z) out p :
  get_peers argsort ipo_universe ticker n_peers = inr out ->
  In p out ->
  exists target r,
    item0 (filter (fun x => tic_eqb (tic x) ticker) ipo_universe)
    = inr target
    /\ In r ipo_universe
    /\ tic r = p
    /\ (exists s, gsector r = Some s /\ gsector target = Some s)
    /\ tic target = Some ticker
    /\ tic r <> tic target
    /\ exists listed target_listed reported,
         ipodate r = Some listed
         /\ ipodate target = Some target_listed
         /\ rdq r = Some reported
         /\ listed < target_listed
         /\ reported < target_listed - reporting_lag.
Proof.
  intros Hout Hp.
  apply get_peers_inv in Hout as (target & Htarget & _ & ->).
  pose proof (first_match ipo_universe ticker) as Hfirst.
  destruct (filter _ ipo_universe) as [|target' rest] eqn:E; [discriminate|].
  injection Htarget as ->.
  destruct Hfirst as (before & after & _ & Htic & _).
  apply peers_of_In in Hp as (r & Hr & <-).
  apply potential_peers_In in Hr as (Hin & Hsec & Hlist & Hid & Hrep).
  apply tic_eqb_true in Htic. apply tic_eqb_false in Hid.
  apply date_ltb_true in Hlist as (listed & tl & Hl & Htl & Hlt).
  apply date_ltb_true in Hrep as (reported & lim & Hrq & Hlim & Hrlt).
  rewrite Htl in Hlim. apply date_sub_Some in Hlim as ->.
  exists target, r. repeat split; trivial.
  - now apply sector_eqb_true.
  - congruence.
  - now exists listed, tl, reported.
Qed.

(** C8. When no record carries the target ticker, [.iloc[0]] on the
    empty selection raises (Python's [IndexError] is the not-found
    error of [get_peers]); when records carry it, the first one in
    input order is the target, whatever follows it: the call goes on
    with that row, its listing date in the subtraction of the
    reporting lag and its sector, date and valuation in the ranking. *)
Theorem C8_target_is_the_first_match ipo_universe ticker (n_peers : Z) :
  ((forall r, In r ipo_universe -> tic_eqb (tic r) ticker = false) ->
   get_peers argsort ipo_universe ticker n_peers = inl IndexError)
  /\ (forall before target after,
        ipo_universe = before ++ target :: after ->
        (forall r, In r before -> tic_eqb (tic r) ticker = false) ->
        tic_eqb (tic target) ticker = true ->
        get_peers argsort ipo_universe ticker n_peers
        = (_ <- sub_timedelta (ipodate target) reporting_lag ;;
           inr (peers_of argsort ipo_universe target ticker n_peers))).
Proof.
  split.
  - intros Hnone. unfold get_peers.
    pose proof (first_match ipo_universe ticker) as Hfirst.
    destruct (filter _ ipo_universe) as [|target rest]; [reflexivity|].
    destruct Hfirst as (before & after & -> & Htic & _).
    rewrite Hnone in Htic; [discriminate|].
    apply in_or_app. right. now left.
  - intros before target after -> Hbefore Htic.
    apply get_peers_target. now apply filter_first_match.
Qed.

Hypothesis contract : argsort_contract argsort.

(** What [get_peers] returns once the target is found. *)
Lemma get_peers_ranked ipo_universe ticker (n_peers : Z) target :
  0 <= n_peers ->
  item0 (filter (fun r => tic_eqb (tic r) ticker) ipo_universe) = inr target ->
  let peers := potential_peers ipo_universe target ticker in
  let ranked := sort_values argsort peers (map (dist (mkvaltq target)) peers) in
  Permutation ranked peers
  /\ Sorted dist_le (map (dist (mkvaltq target)) ranked)
  /\ get_peers argsort ipo_universe ticker n_peers
     = (_ <- sub_timedelta (ipodate target) reporting_lag ;;
        inr (firstn (Z.to_nat n_peers) (map tic ranked))).
Proof.
  intros Hn Htarget peers ranked.
  destruct (sort_values_spec argsort contract (dist (mkvaltq target)) peers)
    as [Hperm Hsorted].
  repeat split; trivial.
  rewrite (get_peers_target _ _ _ _ Htarget). do 3 f_equal.
  unfold peers_of. fold peers.
  destruct peers as [|r0 rest] eqn:E.
  - unfold ranked, sort_values. now rewrite take_nil, firstn_nil.
  - now rewrite head_firstn.
Qed.

(** C5 (amended). With a positive [n_peers], [get_peers] returns the
    tickers of the surviving candidates rearranged in ascending order
    of distance (candidates without a distance last), cut to the first
    [n_peers]; the result is a function of the inputs. The sort is
    pandas' default, which promises no order among equal distances.
    The list is returned once the subtraction of the reporting lag is
    evaluated, which raises outside the timestamp range. *)
Theorem C5_peers_ascend_by_distance
  ipo_universe ticker (n_peers : Z) target :
  0 < n_peers ->
  item0 (filter (fun r => tic_eqb (tic r) ticker) ipo_universe) = inr target ->
  let peers := potential_peers ipo_universe target ticker in
  let d := dist (mkvaltq target) in
  let ranked := sort_values argsort peers (map d peers) in
  Permutation ranked peers
  /\ Sorted dist_le (map d ranked)
  /\ get_peers argsort ipo_universe ticker n_peers
     = (_ <- sub_timedelta (ipodate target) reporting_lag ;;
        inr (firstn (Z.to_nat n_peers) (map tic ranked)))
  /\ (forall out out',
        get_peers argsort ipo_universe ticker n_peers = inr out ->
        get_peers argsort ipo_universe ticker n_peers = inr out' ->
        out = out').
Proof.
  intros Hn Htarget peers d ranked.
  destruct (get_peers_ranked ipo_universe ticker n_peers target
              ltac:(lia) Htarget) as (Hperm & Hsorted & Hget).
  repeat split; trivial.
  intros out out' H H'. congruence.
Qed.

(** C10. [panel_universe] holds two records of ticker AAA that both
    pass the filters for TGT; whatever order the sort leaves them in,
    [get_peers] returns AAA twice. *)
Theorem C10_duplicate_tickers_are_returned_twice (n_peers : Z) :
  2 <= n_peers ->
  map tic (potential_peers panel_universe tgt "TGT")
  = [Some "AAA"; Some "AAA"]
  /\ get_peers argsort panel_universe "TGT" n_peers
     = inr [Some "AAA"; Some "AAA"].
Proof.
  intros Hn. split; [reflexivity|].
  destruct (get_peers_ranked panel_universe "TGT" n_peers tgt
              ltac:(lia) eq_refl) as (Hperm & _ & ->).
  rewrite sub_timedelta_in_bounds by reflexivity. cbn [bind].
  f_equal.
  apply (Permutation_map tic), Permutation_sym in Hperm.
  change (map tic (potential_peers panel_universe tgt "TGT"))
    with [Some "AAA"; Some "AAA"] in Hperm.
  apply Permutation_length_2_inv in Hperm as [-> | ->];
    (rewrite firstn_all2; [reflexivity|cbn; lia]).
Qed.

End Peers.

(** *** The theorems on concrete universes *)

(** Peers at distances 10, 5 and 1: the two closest come back, the
    closest first. *)
Lemma C5_witness :
  argsort_contract stable_argsort
  /\ 0 < 2
  /\ item0 (filter (fun r => tic_eqb (tic r) "TGT") universe) = inr tgt
  /\ map (dist (mkvaltq tgt)) (potential_peers universe tgt "TGT")
     = [F64.of_Z 10; F64.of_Z 5; F64.of_Z 1]
  /\ get_peers stable_argsort universe "TGT" 2
     = inr [Some "NEAR"; Some "MID"]
  /\ Sorted dist_le
       (map (dist (mkvaltq tgt))
          (sort_values stable_argsort (potential_peers universe tgt "TGT")
             (map (dist (mkvaltq tgt))
                (potential_peers universe tgt "TGT")))).
Proof.
  assert (H0 : 0 < 2) by lia.
  assert (Ht : item0 (filter (fun r => tic_eqb (tic r) "TGT") universe)
               = inr tgt) by reflexivity.
  destruct (C5_peers_ascend_by_distance stable_argsort
              stable_argsort_contract universe "TGT" 2 tgt H0 Ht)
    as (_ & Hsorted & Hget & _).
  refine (conj stable_argsort_contract (conj H0 (conj Ht (conj _ (conj _ Hsorted))))).
  - vm_compute. reflexivity.
  - rewrite Hget. vm_compute. reflexivity.
Defined.

(** C5, counterexample. AAA and BBB pass the filters, in this universe
    order, both at distance 5: an ascending argsort that meets numpy's
    contract may hand equal keys back in either order, and with this
    one [get_peers] returns BBB before AAA. With numpy's own quicksort
    the same happens from eighteen candidates on: of eighteen peers at
    one distance, listed P00, P01, ... in the universe, the two
    returned are P00 and P15. *)
Lemma C5_counterexample :
  (argsort_contract tie_reversing_argsort
   /\ map tic (potential_peers tied_universe tgt "TGT")
      = [Some "AAA"; Some "BBB"]
   /\ map (dist (mkvaltq tgt)) (potential_peers tied_universe tgt "TGT")
      = [F64.of_Z 5; F64.of_Z 5]
   /\ get_peers tie_reversing_argsort tied_universe "TGT" 2
      = inr [Some "BBB"; Some "AAA"])
  /\ (map tic (firstn 2 (potential_peers crowded_universe tgt "TGT"))
      = [Some "P00"; Some "P01"]
      /\ map (dist (mkvaltq tgt)) (potential_peers crowded_universe tgt "TGT")
         = repeat (F64.of_Z 5) 18
      /\ NumpySort.argsort (repeat (F64.of_Z 5) 18)
         = [0; 15; 14; 13; 12; 11; 10; 9; 8; 7; 6; 5; 4; 3; 2; 1; 16; 17]%nat
      /\ get_peers NumpySort.argsort crowded_universe "TGT" 2
         = inr [Some "P00"; Some "P15"]).
Proof.
  split; [split; [exact tie_reversing_argsort_contract|]|];
    vm_compute; repeat split.
Qed.

(** MID, returned for TGT from [universe], is the ticker of a record
    that meets every condition. *)
Lemma C2_witness :
  get_peers stable_argsort universe "TGT" 2 = inr [Some "NEAR"; Some "MID"]
  /\ In (Some "MID") [Some "NEAR"; Some "MID"]
  /\ exists target r,
       In r universe
       /\ tic r = Some "MID"
       /\ tic target = Some "TGT"
       /\ gsector r = gsector target
       /\ exists listed target_listed reported,
            ipodate r = Some listed
            /\ ipodate target = Some target_listed
            /\ rdq r = Some reported
            /\ listed < target_listed
            /\ reported < target_listed - reporting_lag.
Proof.
  assert (Hget : get_peers stable_argsort universe "TGT" 2
                 = inr [Some "NEAR"; Some "MID"]) by (vm_compute; reflexivity).
  assert (Hin : In (Some "MID") [Some "NEAR"; Some "MID"])
    by (simpl; auto).
  destruct (C2_returned_peers_pass_the_filters stable_argsort universe
              "TGT" 2 _ _ Hget Hin)
    as (target & r & _ & Hr & Htic & (sec & Hs & Hs') & Ht & _ & Hdates).
  refine (conj Hget (conj Hin _)).
  exists target, r. repeat split; trivial. congruence.
Defined.

(** The ticker TGT stands on two records of [twice_listed]: the one
    listed on day 150 comes first and is the target, so OLD is the only
    peer; an unknown ticker raises. *)
Lemma C8_witness :
  get_peers stable_argsort universe "NOPE" 10 = inl IndexError
  /\ get_peers stable_argsort twice_listed "TGT" 10
     = inr (peers_of stable_argsort twice_listed
              (firm "TGT" 150 45 100 140) "TGT" 10)
  /\ get_peers stable_argsort twice_listed "TGT" 10 = inr [Some "OLD"].
Proof.
  destruct (C8_target_is_the_first_match stable_argsort universe "NOPE" 10)
    as [Hnone _].
  destruct (C8_target_is_the_first_match stable_argsort twice_listed "TGT" 10)
    as [_ Hfirst].
  split; [|split].
  - apply Hnone. intros r Hr. cbn in Hr.
    repeat (destruct Hr as [<-|Hr]; [reflexivity|]). contradiction.
  - apply (Hfirst [firm "OLD" 100 45 100 50] (firm "TGT" 150 45 100 140)
             [firm "MID" 200 45 95 190; tgt]); [reflexivity| |reflexivity].
    intros r [<-|[]]. reflexivity.
  - vm_compute. reflexivity.
Defined.

(** The panel universe under the order-keeping sort. *)
Lemma C10_witness :
  argsort_contract stable_argsort
  /\ 2 <= 10
  /\ map tic (potential_peers panel_universe tgt "TGT")
     = [Some "AAA"; Some "AAA"]
  /\ get_peers stable_argsort panel_universe "TGT" 10
     = inr [Some "AAA"; Some "AAA"].
Proof.
  assert (H : 2 <= 10) by lia.
  exact (conj stable_argsort_contract
           (conj H (C10_duplicate_tickers_are_returned_twice stable_argsort
                      stable_argsort_contract 10 H))).
Defined.

End DataLoadingFacts.

(** ** More on the walk-forward forecaster *)

Module ForecastingMore.

Import Py PyFacts Forecasting ForecastingFacts.

Lemma zip_rows_nth_error {Label} (idx : list Label) (a l p : list F64.float)
  (n : nat) (r : row Label) :
  nth_error (zip_rows idx a l p) n = Some r ->
  nth_error idx n = Some (label r)
  /\ nth_error a n = Some (Actual_RV r)
  /\ nth_error l n = Some (Lag_RV r)
  /\ nth_error p n = Some (Peer_Prior r).
Proof.
  revert a l p n.
  induction idx as [|i idx IH]; intros [|x a] [|y l] [|z p] n; cbn;
    try (destruct n; discriminate).
  destruct n as [|n]; cbn.
  - intros [= <-]. now repeat split.
  - apply IH.
Qed.

Lemma shift1_nth_error {A} (fill : A) (l : list A) (n : nat) :
  (S n < length l)%nat ->
  nth_error (shift1 fill l) (S n) = nth_error l n.
Proof.
  intros Hn. destruct l as [|x l]; [cbn in Hn; lia|].
  unfold shift1. cbn [nth_error].
  apply removelast_nth_error. lia.
Qed.

Lemma nth_error_map_inv {A B} (f : A -> B) (l : list A) (n : nat) (y : B) :
  nth_error (map f l) n = Some y ->
  exists x, nth_error l n = Some x /\ y = f x.
Proof.
  rewrite nth_error_map.
  destruct (nth_error l n) as [x|]; [|discriminate].
  intros [= <-]. now exists x.
Qed.

Section Frames.

Variables Label cell : Type.
Variable to_numeric : cell -> F64.float.

Implicit Types (target peer : Series Label cell).

(** X1. Each row of the aligned frame stands at a shared position
    [p >= 1] and carries the label and the target value of that
    position, the target value of position [p - 1] as its lag, and the
    peer value of position [p]; none of the three is missing. *)
Theorem aligned_row_carries_previous_target_value
  target peer (k p : nat) (r : row Label) :
  same_index target peer ->
  nth_error (aligned_positions to_numeric target peer) k = Some (p, r) ->
  exists l c c_prev q,
    (1 <= p)%nat
    /\ nth_error target p = Some (l, c)
    /\ nth_error (values target) (p - 1) = Some c_prev
    /\ nth_error peer p = Some (l, q)
    /\ r = mk_row l (to_numeric c) (to_numeric c_prev) (to_numeric q)
    /\ F64.isna (to_numeric c) = false
    /\ F64.isna (to_numeric c_prev) = false
    /\ F64.isna (to_numeric q) = false.
Proof.
  intros Hidx Hk.
  assert (Hcomplete : complete r = true).
  { apply nth_error_In in Hk. unfold aligned_positions in Hk.
    now apply filter_In in Hk as [_ Hk]. }
  apply aligned_positions_late in Hk as [Hp Hrow].
  unfold feature_frame in Hrow.
  apply zip_rows_nth_error in Hrow as (Hl & Ha & Hlag & Hq).
  unfold index in Hl. unfold values in Ha, Hlag, Hq.
  apply nth_error_map_inv in Hl as ([l c] & Ht & Hlabel).
  apply nth_error_map_inv in Ha as (c' & Hc' & Hact).
  rewrite nth_error_map, Ht in Hc'. cbn in Hc'. injection Hc' as <-.
  apply nth_error_map_inv in Hq as (q0 & Hq & Hpeer).
  apply nth_error_map_inv in Hq as ([l' q] & Hpr & ->).
  assert (Hl' : l' = l).
  { apply (f_equal (fun s => nth_error s p)) in Hidx. unfold index in Hidx.
    rewrite !nth_error_map, Ht, Hpr in Hidx. cbn in Hidx. congruence. }
  subst l'.
  destruct p as [|p']; [lia|].
  apply nth_error_map_inv in Hlag as (o & Ho & Hlagv).
  rewrite shift1_nth_error in Ho.
  2:{ rewrite !length_map. apply nth_error_Some. now rewrite Ht. }
  apply nth_error_map_inv in Ho as (c_prev & Hprev & ->).
  cbn in Hlabel, Hlagv, Hpeer.
  unfold complete in Hcomplete.
  rewrite Hact, Hlagv, Hpeer in Hcomplete.
  apply negb_true_iff, orb_false_iff in Hcomplete as [Hc1 Hc3].
  apply orb_false_iff in Hc1 as [Hc1 Hc2].
  exists l, c, c_prev, q.
  cbn [Nat.sub]. rewrite Nat.sub_0_r.
  repeat split; trivial; try lia.
  destruct r as [rl ra rg rp]. cbn in *. congruence.
Qed.

End Frames.

Lemma range_split (a t b : Z) :
  a <= t < b -> range a b = range a t ++ t :: range (t + 1) b.
Proof.
  intros H. unfold range.
  replace (Z.to_nat (b - a))
    with (Z.to_nat (t - a) + S (Z.to_nat (b - (t + 1))))%nat by lia.
  rewrite seq_app, map_app. cbn [seq map]. f_equal. f_equal; [lia|].
  rewrite <- seq_shift, map_map.
  rewrite <- (Nat.add_0_l (Z.to_nat (t - a))) at 1.
  rewrite Nat.add_comm.
  assert (Hshift : forall m s o,
            map (fun k => a + Z.of_nat (S k)) (seq (o + s) m)
            = map (fun k => a + Z.of_nat o + 1 + Z.of_nat k) (seq s m)).
  { induction m as [|m IH]; intros s o; cbn; [reflexivity|].
    f_equal; [lia|]. now rewrite <- IH, Nat.add_succ_r. }
  rewrite Hshift. apply map_ext. intros k. lia.
Qed.

Lemma firstn_exact {A} (l l' : list A) : firstn (length l) (l ++ l') = l.
Proof.
  rewrite firstn_app, Nat.sub_diag, firstn_all. cbn. apply app_nil_r.
Qed.

Lemma nth_error_lt {A} (l : list A) (n : nat) (x : A) :
  nth_error l n = Some x -> (n < length l)%nat.
Proof. intros H. apply nth_error_Some. now rewrite H. Qed.

Lemma firstn_app_exact {A} (n : nat) (l l' : list A) :
  (n <= length l)%nat -> firstn n (l ++ l') = firstn n l.
Proof.
  intros Hn. rewrite firstn_app.
  replace (n - length l)%nat with 0%nat by lia.
  cbn. apply app_nil_r.
Qed.

Section Loop.

Variable Label : Type.
Variable ols_fit_predict :
  list (F64.float * F64.float) -> list F64.float ->
  list (F64.float * F64.float) -> Py.result (list F64.float).

Implicit Types (data : list (row Label)).

Lemma walk_app data (w : Z) (ts1 ts2 : list Z) predictions observations :
  walk ols_fit_predict data w (ts1 ++ ts2) predictions observations
  = Py.bind (walk ols_fit_predict data w ts1 predictions observations)
      (fun x => walk ols_fit_predict data w ts2 (fst x) (snd x)).
Proof.
  revert predictions observations.
  induction ts1 as [|t ts1 IH]; intros predictions observations; cbn.
  - reflexivity.
  - destruct (forecast_step ols_fit_predict data w t) as [e|[p o]]; cbn; [reflexivity|]. apply IH.
Qed.

(** A run that returns has appended one prediction and one observation
    per step. *)
Lemma walk_grows data (w : Z) (ts : list Z) predictions observations ps os :
  walk ols_fit_predict data w ts predictions observations = inr (ps, os) ->
  exists dp d_o,
    ps = predictions ++ dp /\ os = observations ++ d_o
    /\ length dp = length ts /\ length d_o = length ts
    /\ Forall (fun t => exists po, forecast_step ols_fit_predict data w t = inr po) ts.
Proof.
  revert predictions observations.
  induction ts as [|t ts IH]; intros predictions observations; cbn.
  - intros [= <- <-]. exists [], []. now rewrite !app_nil_r.
  - destruct (forecast_step ols_fit_predict data w t) as [e|[p o]] eqn:E; cbn; [discriminate|].
    intros H. apply IH in H as (dp & d_o & -> & -> & Hp & Ho & Hall).
    exists (p :: dp), (o :: d_o). rewrite <- !app_assoc. cbn.
    repeat split; trivial; try lia.
    constructor; [now exists (p, o)|exact Hall].
Qed.

(** Runs over steps on which the loop body agrees agree. *)
Lemma walk_ext data data' (w : Z) (ts : list Z) predictions observations :
  (forall t, In t ts -> forecast_step ols_fit_predict data' w t = forecast_step ols_fit_predict data w t) ->
  walk ols_fit_predict data' w ts predictions observations
  = walk ols_fit_predict data w ts predictions observations.
Proof.
  revert predictions observations.
  induction ts as [|t ts IH]; intros predictions observations H; cbn;
    [reflexivity|].
  rewrite (H t (or_introl eq_refl)).
  destruct (forecast_step ols_fit_predict data w t) as [e|[p o]]; cbn; [reflexivity|].
  apply IH. intros u Hu. apply H. now right.
Qed.

(** The observation a step appends is the actual value of its row. *)
Lemma step_observation data (w t : Z) p o :
  0 <= t < Z.of_nat (length data) ->
  forecast_step ols_fit_predict data w t = inr (p, o) ->
  nth_error (map Actual_RV data) (Z.to_nat t) = Some o.
Proof.
  intros Ht. destruct (test_row_single _ data t Ht) as (r & Hr & Hrow).
  unfold forecast_step. rewrite Hrow.
  destruct (ols_fit_predict _ _ _) as [e|[|q qs]]; cbn; try discriminate.
  intros [= _ <-]. now rewrite nth_error_map, Hr.
Qed.

Lemma walk_observed data (w : Z) (ts : list Z) predictions observations ps os :
  (forall t, In t ts -> 0 <= t < Z.of_nat (length data)) ->
  walk ols_fit_predict data w ts predictions observations = inr (ps, os) ->
  os = observations ++ observed data ts.
Proof.
  revert predictions observations.
  induction ts as [|t ts IH]; intros predictions observations Hts; cbn.
  - intros [= _ <-]. now rewrite app_nil_r.
  - destruct (forecast_step ols_fit_predict data w t) as [e|[p o]] eqn:E; cbn; [discriminate|].
    intros H. apply IH in H; [|intros u Hu; apply Hts; now right].
    rewrite H, <- app_assoc. f_equal. cbn. f_equal.
    destruct (test_row_single _ data t (Hts t (or_introl eq_refl)))
      as (r & Hr & Hrow).
    unfold observed. cbn [flat_map]. rewrite Hrow. cbn.
    unfold forecast_step in E. rewrite Hrow in E.
    destruct (ols_fit_predict _ _ _) as [e|[|q qs]]; cbn in E;
      try discriminate.
    now injection E as _ <-.
Qed.

Lemma results_frame_inv (idx : list Label) (obs preds : list F64.float) out :
  results_frame idx obs preds = inr out ->
  map Timestamp out = idx /\ map Actual out = obs /\ map Forecast out = preds.
Proof.
  unfold results_frame.
  destruct (Nat.eqb_spec (length obs) (length idx)) as [Ho|]; [|discriminate].
  destruct (Nat.eqb_spec (length preds) (length idx)) as [Hp|]; [|discriminate].
  destruct (results_frame_returns _ idx obs preds Ho Hp)
    as (out' & E & H1 & H2 & H3).
  unfold results_frame in E. rewrite Ho, Hp, Nat.eqb_refl in E.
  cbn in *. intros H. rewrite H in E. injection E as <-. now repeat split.
Qed.

(** Whatever the regression produced, a returned frame holds the actual
    values and labels of the aligned frame from [window_size] on. *)
Lemma walk_forward_actuals
  data (window_size : Z) out :
  0 <= window_size ->
  walk_forward ols_fit_predict data window_size = inr out ->
  map Actual out = skipn (Z.to_nat window_size) (map Actual_RV data)
  /\ map Timestamp out = skipn (Z.to_nat window_size) (map label data)
  /\ length out = (length data - Z.to_nat window_size)%nat.
Proof.
  intros Hw. unfold walk_forward.
  destruct (walk ols_fit_predict data window_size _ [] []) as [e|[ps os]] eqn:E;
    [discriminate|]. cbn.
  intros Hout. apply results_frame_inv in Hout as (Hidx & Hact & _).
  apply walk_observed in E.
  2:{ intros t Ht. apply In_range in Ht. lia. }
  cbn in E. rewrite slice_from_in in Hidx by assumption.
  assert (Hobs : os = skipn (Z.to_nat window_size) (map Actual_RV data)).
  { rewrite E, range_nat by assumption.
    destruct (Z.le_gt_cases (Z.of_nat (length data)) window_size).
    - replace (Z.to_nat (Z.of_nat (length data) - window_size))
        with 0%nat by lia.
      cbn. rewrite skipn_all2; [reflexivity|]. rewrite length_map. lia.
    - rewrite observed_range by lia.
      replace (Z.to_nat (Z.of_nat (length data) - window_size))
        with (length (skipn (Z.to_nat window_size) data))
        by (rewrite length_skipn; lia).
      now rewrite firstn_all, skipn_map. }
  repeat split; try congruence.
  apply (f_equal (@length _)) in Hidx.
  now rewrite length_map, length_skipn, length_map in Hidx.
Qed.

(** The loop body at step [t] reads the rows before [t] and the
    regressors of row [t], nothing else. *)
Lemma forecast_step_local data data' (w t : Z) (r r' : row Label) :
  0 <= w <= t ->
  nth_error data (Z.to_nat t) = Some r ->
  nth_error data' (Z.to_nat t) = Some r' ->
  firstn (Z.to_nat t) data' = firstn (Z.to_nat t) data ->
  regressors r' = regressors r ->
  forecast_step ols_fit_predict data' w t
  = match forecast_step ols_fit_predict data w t with
    | inl e => inl e
    | inr (p, _) => inr (p, Actual_RV r')
    end.
Proof.
  intros Hw Hr Hr' Hpre Hreg.
  assert (Ht : 0 <= t < Z.of_nat (length data)).
  { apply nth_error_lt in Hr. lia. }
  assert (Ht' : 0 <= t < Z.of_nat (length data')).
  { apply nth_error_lt in Hr'. lia. }
  destruct (test_row_single _ data t Ht) as (x & Hx & Hrow).
  destruct (test_row_single _ data' t Ht') as (x' & Hx' & Hrow').
  assert (x = r) by congruence. assert (x' = r') by congruence. subst x x'.
  unfold forecast_step, train_window.
  rewrite (slice_prefix (t - w) t data data') by (trivial; lia).
  rewrite Hrow, Hrow'. cbn [map]. rewrite Hreg.
  destruct (ols_fit_predict _ _ _) as [e|[|q qs]]; reflexivity.
Qed.

(** X3. The forecast of step [t] is blind to the actual value of row
    [t] and to every later row: replace them, keeping the regressors
    of row [t], and the step returns the same prediction (or raises
    the same error); only the observation it records changes. *)
Theorem step_forecast_ignores_current_actual_and_future
  data data' (window_size t : Z) (r r' : row Label) :
  0 <= window_size <= t ->
  nth_error data (Z.to_nat t) = Some r ->
  nth_error data' (Z.to_nat t) = Some r' ->
  firstn (Z.to_nat t) data' = firstn (Z.to_nat t) data ->
  regressors r' = regressors r ->
  (forall e, forecast_step ols_fit_predict data window_size t = inl e ->
             forecast_step ols_fit_predict data' window_size t = inl e)
  /\ (forall p o,
        forecast_step ols_fit_predict data window_size t = inr (p, o) ->
        o = Actual_RV r
        /\ forecast_step ols_fit_predict data' window_size t
           = inr (p, Actual_RV r')).
Proof.
  intros Hw Hr Hr' Hpre Hreg.
  pose proof (forecast_step_local data data' window_size t r r'
                Hw Hr Hr' Hpre Hreg) as Hloc.
  split.
  - intros e He. now rewrite Hloc, He.
  - intros p o Hs. rewrite Hloc, Hs. split; [|reflexivity].
    assert (Ht : 0 <= t < Z.of_nat (length data)).
    { apply nth_error_lt in Hr. lia. }
    apply step_observation in Hs; [|exact Ht].
    rewrite nth_error_map, Hr in Hs. cbn in Hs. congruence.
Qed.

Lemma walk_all_return data (w : Z) (ts : list Z) :
  (forall u, In u ts ->
     exists po, forecast_step ols_fit_predict data w u = inr po) ->
  forall predictions observations,
  exists x, walk ols_fit_predict data w ts predictions observations = inr x.
Proof.
  induction ts as [|u us IH]; intros Hall predictions observations; cbn.
  - now eexists.
  - destruct (Hall u (or_introl eq_refl)) as ([p o] & ->). cbn.
    apply IH. intros v Hv. apply Hall. now right.
Qed.

(** X4. An exception at a step ends the call: when the steps before
    [t] return and step [t] raises [e] (from the regression, or
    [IndexError] on an empty prediction), [rolling_forecast] raises
    [e] and returns no partial frame. *)
Theorem first_failing_step_fails_the_call data (window_size t : Z) e :
  window_size <= t < Z.of_nat (length data) ->
  (forall u, window_size <= u < t ->
             exists po, forecast_step ols_fit_predict data window_size u
                        = inr po) ->
  forecast_step ols_fit_predict data window_size t = inl e ->
  walk_forward ols_fit_predict data window_size = inl e.
Proof.
  intros Ht Hbefore Hfail. unfold walk_forward.
  rewrite (range_split window_size t) by assumption.
  rewrite walk_app.
  destruct (walk_all_return data window_size (range window_size t))
    with (predictions := @nil F64.float) (observations := @nil F64.float)
    as ([ps os] & ->).
  { intros u Hu. apply In_range in Hu. now apply Hbefore. }
  cbn. now rewrite Hfail.
Qed.

(** X5. Later observations never rewrite earlier forecasts: when the
    call on a frame extended by further rows returns, the call on the
    frame itself returns the same records, as many as it has steps. *)
Theorem appended_rows_leave_earlier_records_unchanged
  data more (window_size : Z) out :
  0 <= window_size ->
  walk_forward ols_fit_predict (data ++ more) window_size = inr out ->
  walk_forward ols_fit_predict data window_size
  = inr (firstn (length data - Z.to_nat window_size) out).
Proof.
  intros Hw Hout.
  destruct (Z.le_gt_cases (Z.of_nat (length data)) window_size) as [Hs|Hl].
  { rewrite walk_forward_short by lia.
    now replace (length data - Z.to_nat window_size)%nat with 0%nat by lia. }
  unfold walk_forward in *.
  set (n := Z.of_nat (length data)) in *.
  assert (Hrange : range window_size (Z.of_nat (length (data ++ more)))
                   = range window_size n
                     ++ range n (Z.of_nat (length (data ++ more)))).
  { rewrite length_app. unfold range, n.
    replace (Z.to_nat (Z.of_nat (length data + length more) - window_size))
      with (Z.to_nat (Z.of_nat (length data) - window_size)
            + length more)%nat by lia.
    rewrite seq_app, map_app. f_equal.
    replace (Z.to_nat (Z.of_nat (length data + length more)
                       - Z.of_nat (length data))) with (length more) by lia.
    cbn [Nat.add].
    rewrite <- (Nat.add_0_r (Z.to_nat (Z.of_nat (length data) - window_size))).
    generalize 0%nat. induction (length more) as [|m IH]; intros o; cbn;
      [reflexivity|].
    f_equal; [lia|]. rewrite <- IH. f_equal. f_equal. lia. }
  rewrite Hrange, walk_app in Hout.
  assert (Hsame :
    walk ols_fit_predict (data ++ more) window_size (range window_size n) [] []
    = walk ols_fit_predict data window_size (range window_size n) [] []).
  { apply walk_ext. intros t Ht. apply In_range in Ht.
    destruct (nth_error data (Z.to_nat t)) as [r|] eqn:Er.
    2:{ apply nth_error_None in Er. unfold n in Ht. lia. }
    rewrite (forecast_step_local data (data ++ more) window_size t r r);
      trivial; try lia.
    - destruct (forecast_step ols_fit_predict data window_size t)
        as [e|[p o]] eqn:Es; [reflexivity|].
      apply step_observation in Es; [|unfold n in Ht; lia].
      rewrite nth_error_map, Er in Es. cbn in Es. congruence.
    - rewrite nth_error_app1; [exact Er|]. unfold n in Ht. lia.
    - apply firstn_app_exact. unfold n in Ht. lia. }
  rewrite Hsame in Hout.
  destruct (walk ols_fit_predict data window_size (range window_size n) [] [])
    as [e|[ps os]] eqn:E1; [discriminate|].
  cbn in Hout.
  destruct (walk ols_fit_predict (data ++ more) window_size _ ps os)
    as [e|[ps' os']] eqn:E2; [discriminate|].
  cbn in Hout.
  apply walk_grows in E1 as (dp & d_o & Hps & Hos & Hlp & Hlo & _).
  apply walk_grows in E2 as (dp' & d_o' & -> & -> & _).
  cbn in Hps, Hos. subst ps os. rewrite range_length in Hlp, Hlo.
  apply results_frame_inv in Hout as (Hidx & Hact & Hfc). cbn.
  rewrite slice_from_in in * by assumption.
  rewrite map_app, skipn_app, length_map in Hidx.
  replace (Z.to_nat window_size - length data)%nat with 0%nat in Hidx
    by (unfold n in Hl; lia).
  cbn [skipn] in Hidx.
  destruct (results_frame_returns _ (skipn (Z.to_nat window_size)
                                       (map label data)) d_o dp)
    as (out0 & E0 & H1 & H2 & H3).
  { rewrite Hlo, length_skipn, length_map. unfold n. lia. }
  { rewrite Hlp, length_skipn, length_map. unfold n. lia. }
  rewrite E0. f_equal.
  assert (Hk : (length data - Z.to_nat window_size)%nat = length out0).
  { apply (f_equal (@length _)) in H1.
    rewrite length_map, length_skipn, length_map in H1. lia. }
  (* two frames with the same three columns are the same frame *)
  assert (Hcols : forall (a b : list (forecast_record Label)),
            map Timestamp a = map Timestamp b ->
            map Actual a = map Actual b ->
            map Forecast a = map Forecast b -> a = b).
  { induction a as [|[t1 a1 f1] a IH]; intros [|[t2 a2 f2] b]; cbn;
      try discriminate; [reflexivity|].
    intros [= -> Ht] [= -> Ha] [= -> Hf]. f_equal. now apply IH. }
  symmetry. apply Hcols; rewrite <- firstn_map, Hk.
  - rewrite Hidx, <- H1, <- (length_map Timestamp out0). apply firstn_exact.
  - rewrite Hact, <- H2, <- (length_map Actual out0). apply firstn_exact.
  - rewrite Hfc, <- H3, <- (length_map Forecast out0). apply firstn_exact.
Qed.

(** X6. A negative [window_size] never yields a frame: the loop reaches
    step [-1], whose test slice [data.iloc[-1:0]] is empty, and the
    step raises there at the latest. *)
Theorem negative_window_always_raises data (window_size : Z) :
  window_size < 0 ->
  exists e, walk_forward ols_fit_predict data window_size = inl e.
Proof.
  intros Hw.
  assert (Hstep : exists e,
            forecast_step ols_fit_predict data window_size (-1) = inl e).
  { unfold forecast_step, test_row.
    assert (Hempty : slice (-1) (-1 + 1) data = []).
    { unfold slice. change (-1 + 1) with 0.
      rewrite (slice_bound_in _ 0) by lia.
      assert (Hlow : 0 <= slice_bound (Z.of_nat (length data)) (-1)).
      { unfold slice_bound. destruct (Z.ltb_spec (-1) 0); lia. }
      now replace (Z.to_nat (0 - slice_bound (Z.of_nat (length data)) (-1)))
        with 0%nat by lia. }
    rewrite Hempty. cbn [map].
    destruct (ols_fit_predict _ _ _) as [e|[|q qs]]; cbn; eauto. }
  destruct Hstep as (e0 & He0).
  unfold walk_forward.
  assert (Hin : In (-1) (range window_size (Z.of_nat (length data)))).
  { apply In_range. lia. }
  assert (Hwalk : forall ts ps os, In (-1) ts ->
            exists e, walk ols_fit_predict data window_size ts ps os = inl e).
  { induction ts as [|t ts IH]; intros ps os Hts; [destruct Hts|].
    cbn. destruct Hts as [Ht|Ht].
    - subst t. rewrite He0. cbn. eauto.
    - destruct (forecast_step ols_fit_predict data window_size t)
        as [e|[p o]]; cbn; eauto. }
  destruct (Hwalk _ [] [] Hin) as (e & ->). cbn. eauto.
Qed.

End Loop.

Lemma Forall_skipn {A} (P : A -> Prop) (n : nat) (l : list A) :
  Forall P l -> Forall P (skipn n l).
Proof.
  rewrite !Forall_forall. intros H x Hx. eapply H, In_skipn, Hx.
Qed.

Section Rolling.

Variables Label cell : Type.
Variable to_numeric : cell -> F64.float.
Variable ols_fit_predict :
  list (F64.float * F64.float) -> list F64.float ->
  list (F64.float * F64.float) -> Py.result (list F64.float).

Implicit Types (target peer : Series Label cell).

(** X2. Whenever [rolling_forecast] returns, whatever the regression
    produced, it returns one record per aligned row from position
    [window_size] on; each record carries the label and the actual
    value of its row, and no actual value is missing. *)
Theorem returned_records_carry_the_aligned_actuals
  target peer (window_size : Z) out :
  same_index target peer ->
  0 <= window_size ->
  rolling_forecast to_numeric ols_fit_predict target peer window_size
  = inr out ->
  let data := aligned_frame to_numeric target peer in
  length out = (length data - Z.to_nat window_size)%nat
  /\ map Timestamp out = skipn (Z.to_nat window_size) (map label data)
  /\ map Actual out = skipn (Z.to_nat window_size) (map Actual_RV data)
  /\ Forall (fun r => F64.isna (Actual r) = false) out.
Proof.
  intros _ Hw Hout data.
  destruct (walk_forward_actuals _ ols_fit_predict data window_size out Hw Hout)
    as (Hact & Hidx & Hlen).
  repeat split; trivial.
  apply Forall_map with (f := Actual) (P := fun x => F64.isna x = false).
  rewrite Hact. apply Forall_skipn, Forall_map, Forall_forall.
  intros r Hr. unfold data, aligned_frame, dropna in Hr.
  apply filter_In in Hr as [_ Hr]. unfold complete in Hr.
  apply negb_true_iff, orb_false_iff in Hr as [Hr _].
  now apply orb_false_iff in Hr as [Hr _].
Qed.

End Rolling.

(** *** The theorems on concrete series *)

Import Samples MoreSamples.

(** Row 2 of the frame over [target5], [peer5] is the shared position
    3: label 3, actual 13, lag 12, peer 23. *)
Lemma aligned_row_witness :
  same_index target5 peer5
  /\ nth_error (aligned_positions id_numeric target5 peer5) 2
     = Some (3%nat, mk_row 3 (F64.of_Z 13) (F64.of_Z 12) (F64.of_Z 23))
  /\ exists l c c_prev q,
       nth_error target5 3 = Some (l, c)
       /\ nth_error (values target5) 2 = Some c_prev
       /\ nth_error peer5 3 = Some (l, q)
       /\ (l, c, c_prev, q) = (3, F64.of_Z 13, F64.of_Z 12, F64.of_Z 23).
Proof.
  assert (Hs : same_index target5 peer5) by reflexivity.
  assert (Hk : nth_error (aligned_positions id_numeric target5 peer5) 2
               = Some (3%nat,
                       mk_row 3 (F64.of_Z 13) (F64.of_Z 12) (F64.of_Z 23)))
    by (vm_compute; reflexivity).
  destruct (aligned_row_carries_previous_target_value Z F64.float id_numeric
              target5 peer5 2 3 _ Hs Hk)
    as (l & c & c_prev & q & _ & Ht & Hprev & Hp & Hr & _).
  refine (conj Hs (conj Hk _)).
  exists l, c, c_prev, q. repeat split; trivial.
  vm_compute in Ht, Hprev, Hp.
  injection Ht as <- <-. injection Hprev as <-. injection Hp as <-.
  vm_compute. reflexivity.
Defined.

(** A run with window 2 over [target5], [peer5]: records for labels 3
    and 4 with actual values 13 and 14. *)
Lemma returned_records_witness :
  same_index target5 peer5
  /\ 0 <= 2
  /\ rolling_forecast id_numeric lag_fit target5 peer5 2
     = inr [ mk_record 3 (F64.of_Z 13) (F64.of_Z 12);
             mk_record 4 (F64.of_Z 14) (F64.of_Z 13) ]
  /\ Forall (fun r => F64.isna (Actual r) = false)
       [ mk_record 3 (F64.of_Z 13) (F64.of_Z 12);
         mk_record 4 (F64.of_Z 14) (F64.of_Z 13) ].
Proof.
  assert (Hs : same_index target5 peer5) by reflexivity.
  assert (H0 : 0 <= 2) by lia.
  assert (Hr : rolling_forecast id_numeric lag_fit target5 peer5 2
               = inr [ mk_record 3 (F64.of_Z 13) (F64.of_Z 12);
                       mk_record 4 (F64.of_Z 14) (F64.of_Z 13) ])
    by (vm_compute; reflexivity).
  destruct (returned_records_carry_the_aligned_actuals Z F64.float id_numeric
              lag_fit target5 peer5 2 _ Hs H0 Hr) as (_ & _ & _ & Hall).
  exact (conj Hs (conj H0 (conj Hr Hall))).
Defined.

(** Step 2 with window 2: on the tampered frame the prediction is
    still 12, the observation is the new actual value 99. *)
Lemma step_blind_witness :
  0 <= 2 <= 2
  /\ firstn 2 tampered5 = firstn 2 aligned5
  /\ forecast_step lag_fit aligned5 2 2 = inr (F64.of_Z 12, F64.of_Z 13)
  /\ forecast_step lag_fit tampered5 2 2 = inr (F64.of_Z 12, F64.of_Z 99).
Proof.
  assert (Hw : 0 <= 2 <= 2) by lia.
  assert (Hpre : firstn (Z.to_nat 2) tampered5 = firstn (Z.to_nat 2) aligned5)
    by reflexivity.
  assert (Hs : forecast_step lag_fit aligned5 2 2
               = inr (F64.of_Z 12, F64.of_Z 13)) by (vm_compute; reflexivity).
  destruct (step_forecast_ignores_current_actual_and_future Z lag_fit
              aligned5 tampered5 2 2
              (mk_row 3 (F64.of_Z 13) (F64.of_Z 12) (F64.of_Z 23))
              (mk_row 3 (F64.of_Z 99) (F64.of_Z 12) (F64.of_Z 23))
              Hw ltac:(vm_compute; reflexivity) ltac:(vm_compute; reflexivity)
              Hpre ltac:(reflexivity)) as [_ Hok].
  destruct (Hok _ _ Hs) as [_ Hs'].
  exact (conj Hw (conj Hpre (conj Hs Hs'))).
Defined.

(** A regression that gives up at lag 12: steps 0 and 1 of a run with
    window 0 return, step 2 raises, and so does the call. *)
Lemma failing_step_witness :
  0 <= 2 < Z.of_nat (length aligned5)
  /\ forecast_step (fit_below (F64.of_Z 12)) aligned5 0 2 = inl LibraryError
  /\ walk_forward (fit_below (F64.of_Z 12)) aligned5 0 = inl LibraryError.
Proof.
  assert (Ht : 0 <= 2 < Z.of_nat (length aligned5)) by (vm_compute; split;
    [discriminate|reflexivity]).
  assert (Hfail : forecast_step (fit_below (F64.of_Z 12)) aligned5 0 2
                  = inl LibraryError) by (vm_compute; reflexivity).
  refine (conj Ht (conj Hfail _)).
  apply (first_failing_step_fails_the_call Z (fit_below (F64.of_Z 12))
           aligned5 0 2 LibraryError Ht); [|exact Hfail].
  intros u Hu.
  assert (Hcases : u = 0 \/ u = 1) by lia.
  destruct Hcases as [-> | ->]; vm_compute; eauto.
Defined.

(** The frame over [target5], [peer5] is the frame over their first
    four observations with one more row: the longer run returns the
    shorter run's records first. *)
Lemma appended_rows_witness :
  0 <= 2
  /\ walk_forward lag_fit (firstn 3 aligned5 ++ skipn 3 aligned5) 2
     = inr [ mk_record 3 (F64.of_Z 13) (F64.of_Z 12);
             mk_record 4 (F64.of_Z 14) (F64.of_Z 13) ]
  /\ walk_forward lag_fit (firstn 3 aligned5) 2
     = inr [ mk_record 3 (F64.of_Z 13) (F64.of_Z 12) ].
Proof.
  assert (H0 : 0 <= 2) by lia.
  assert (Hlong : walk_forward lag_fit (firstn 3 aligned5 ++ skipn 3 aligned5) 2
                  = inr [ mk_record 3 (F64.of_Z 13) (F64.of_Z 12);
                          mk_record 4 (F64.of_Z 14) (F64.of_Z 13) ])
    by (vm_compute; reflexivity).
  refine (conj H0 (conj Hlong _)).
  exact (appended_rows_leave_earlier_records_unchanged Z lag_fit
           (firstn 3 aligned5) (skipn 3 aligned5) 2 _ H0 Hlong).
Defined.

(** Window -1 over the four aligned rows: the first step is step -1. *)
Lemma negative_window_witness :
  -1 < 0 /\ exists e, walk_forward lag_fit aligned5 (-1) = inl e.
Proof.
  assert (H : -1 < 0) by lia.
  exact (conj H (negative_window_always_raises Z lag_fit aligned5 (-1) H)).
Defined.

End ForecastingMore.

(** ** More on the peer selector *)

Module DataLoadingMore.

Import Py PyFacts DataLoading Samples PipelineSamples DataLoadingFacts
  FloatOrder.
Import String.StringSyntax.
Local Open Scope string_scope.

(** *** The float order is a total preorder on numbers *)

Lemma ltb_order_key (x y : F64.float) :
  F64.isna x = false -> F64.isna y = false ->
  F64.ltb x y = true <-> key_lt (order_key x) (order_key y).
Proof.
  unfold F64.ltb, SFltb, key_lt.
  destruct x as [s|s| |s m e], y as [s'|s'| |s' m' e']; try discriminate;
    intros _ _;
    repeat match goal with b : bool |- _ => destruct b end; cbn;
    try (split; intros Hside; first [discriminate | reflexivity | lia]);
    change (Pos.compare_cont Eq m m') with (Pos.compare m m');
    destruct (Z.compare_spec e e'), (Pos.compare_spec m m'); cbn;
    split; intros Hside; first [discriminate | reflexivity | lia].
Qed.

Lemma dist_le_trans (x y z : F64.float) :
  dist_le x y -> dist_le y z -> dist_le x z.
Proof.
  intros [Hxy Hnxy] [Hyz Hnyz]. split; [|tauto].
  destruct (F64.isna x) eqn:Ex.
  { unfold F64.ltb, SFltb. destruct x; try discriminate. now destruct z. }
  destruct (F64.isna z) eqn:Ez.
  { unfold F64.ltb, SFltb. now destruct z. }
  destruct (F64.isna y) eqn:Ey; [now specialize (Hnyz eq_refl)|].
  destruct (F64.ltb z x) eqn:Ezx; [|reflexivity]. exfalso.
  apply ltb_order_key in Ezx; trivial.
  assert (Hyx : ~ key_lt (order_key y) (order_key x)).
  { intros H. apply ltb_order_key in H; trivial. congruence. }
  assert (Hzy : ~ key_lt (order_key z) (order_key y)).
  { intros H. apply ltb_order_key in H; trivial. congruence. }
  unfold key_lt in *.
  destruct (order_key x) as [a1 [b1 c1]], (order_key y) as [a2 [b2 c2]],
    (order_key z) as [a3 [b3 c3]]. cbn in *. lia.
Qed.

Lemma sorted_split {A} (R : A -> A -> Prop) (l : list A) (n : nat) :
  (forall x y z, R x y -> R y z -> R x z) ->
  Sorted R l ->
  forall x y, In x (firstn n l) -> In y (skipn n l) -> R x y.
Proof.
  intros Htrans Hs. apply Sorted_StronglySorted in Hs; [|exact Htrans].
  revert n. induction Hs as [|a l Hs IH Hall]; intros n x y.
  - now rewrite firstn_nil.
  - destruct n as [|n]; cbn; [intros []|].
    intros [<-|Hx] Hy.
    + rewrite Forall_forall in Hall. eapply Hall, In_skipn, Hy.
    + now apply (IH n).
Qed.

Section Peers.

Variable argsort : list F64.float -> list nat.

Implicit Types (ipo_universe : list ipo_record) (target : ipo_record)
  (ticker : String.string).

(** X7. Whatever the sort does, a non-negative [n_peers] caps the
    number of ids returned. *)
Theorem at_most_n_peers_are_returned ipo_universe ticker (n_peers : Z) out :
  0 <= n_peers ->
  get_peers argsort ipo_universe ticker n_peers = inr out ->
  Z.of_nat (length out) <= n_peers.
Proof.
  intros Hn Hout.
  apply get_peers_inv in Hout as (target & _ & _ & ->). unfold peers_of.
  destruct (potential_peers ipo_universe target ticker); cbn [length];
    [lia|].
  rewrite head_firstn, length_firstn by assumption. lia.
Qed.

(** X8. A target that no record of its sector precedes has no peers,
    and neither has a target without listing date or without sector
    code: the call returns the empty list, unless the subtraction of
    the reporting lag from the target's listing date leaves the
    timestamp range. The subtraction is evaluated whether or not a
    candidate is left, and the call raises [OutOfBoundsDatetime]
    there; a target without listing date never raises. *)
Theorem earliest_listing_has_no_peers ipo_universe ticker (n_peers : Z) target :
  item0 (filter (fun r => tic_eqb (tic r) ticker) ipo_universe) = inr target ->
  (ipodate target = None
   \/ gsector target = None
   \/ (forall r, In r ipo_universe ->
         sector_eqb (gsector r) (gsector target) = true ->
         date_ltb (ipodate r) (ipodate target) = false)) ->
  get_peers argsort ipo_universe ticker n_peers
  = (_ <- sub_timedelta (ipodate target) reporting_lag ;; inr [])
  /\ (out_of_bounds (ipodate target) reporting_lag = false ->
      get_peers argsort ipo_universe ticker n_peers = inr [])
  /\ (out_of_bounds (ipodate target) reporting_lag = true ->
      get_peers argsort ipo_universe ticker n_peers
      = inl OutOfBoundsDatetime)
  /\ (ipodate target = None ->
      get_peers argsort ipo_universe ticker n_peers = inr []).
Proof.
  intros Htarget Hnone.
  assert (Hempty : peers_of argsort ipo_universe target ticker n_peers = []).
  { unfold peers_of.
    destruct (potential_peers ipo_universe target ticker) as [|r rest] eqn:E;
      [reflexivity|].
    exfalso.
    assert (Hr : In r (potential_peers ipo_universe target ticker))
      by (rewrite E; now left).
    apply potential_peers_In in Hr as (Hin & Hsec & Hlist & _).
    destruct Hnone as [Hd|[Hs|Hall]].
    - rewrite Hd in Hlist. now destruct (ipodate r).
    - rewrite Hs in Hsec. now destruct (gsector r).
    - rewrite (Hall r Hin Hsec) in Hlist. discriminate. }
  rewrite (get_peers_target argsort _ _ _ _ Htarget), Hempty.
  split; [reflexivity|]. unfold sub_timedelta. split; [|split].
  - now intros ->.
  - now intros ->.
  - now intros ->.
Qed.

(** X9. A record that fails a filter has no influence: put anywhere
    into the universe, a record that does not carry the target ticker
    and is of another sector, or not listed before the target, or not
    reported more than 45 days before the target's listing, leaves the
    result as it was. *)
Theorem rejected_records_do_not_influence_the_result
  (before after : list ipo_record) (x : ipo_record) ticker (n_peers : Z)
  target :
  item0 (filter (fun r => tic_eqb (tic r) ticker) (before ++ after))
  = inr target ->
  tic_eqb (tic x) ticker = false ->
  sector_eqb (gsector x) (gsector target) = false
  \/ date_ltb (ipodate x) (ipodate target) = false
  \/ date_ltb (rdq x) (date_sub (ipodate target) reporting_lag) = false ->
  get_peers argsort (before ++ x :: after) ticker n_peers
  = get_peers argsort (before ++ after) ticker n_peers.
Proof.
  intros Htarget Hx Hfail. unfold get_peers.
  assert (Hsel : filter (fun r => tic_eqb (tic r) ticker)
                   (before ++ x :: after)
                 = filter (fun r => tic_eqb (tic r) ticker)
                     (before ++ after)).
  { rewrite !filter_app. cbn. now rewrite Hx. }
  rewrite Hsel, Htarget. cbn [bind]. do 3 f_equal.
  unfold peers_of.
  assert (Hpeers : potential_peers (before ++ x :: after) target ticker
                   = potential_peers (before ++ after) target ticker).
  { unfold potential_peers.
    rewrite (filter_app _ before (x :: after)), (filter_app _ before after).
    cbn [filter].
    destruct (is_candidate (gsector target) (ipodate target) ticker x) eqn:Ec;
      [|reflexivity].
    rewrite !filter_app. cbn [filter].
    destruct (reported_in_time (ipodate target) x) eqn:Er; [|reflexivity].
    exfalso. unfold is_candidate in Ec. unfold reported_in_time in Er.
    apply andb_true_iff in Ec as [Ec _]. apply andb_true_iff in Ec as [E1 E2].
    destruct Hfail as [H|[H|H]]; congruence. }
  now rewrite Hpeers.
Qed.

Hypothesis contract : argsort_contract argsort.

(** X10. With a sort that meets numpy's contract the call returns
    [min(n_peers, number of surviving candidates)] ids; when [n_peers]
    reaches that number it returns the ticker of every surviving
    candidate, once per record. The list is returned once the
    subtraction of the reporting lag is evaluated, which raises
    outside the timestamp range. *)
Theorem all_candidates_are_returned_when_n_peers_allows
  ipo_universe ticker (n_peers : Z) target :
  0 <= n_peers ->
  item0 (filter (fun r => tic_eqb (tic r) ticker) ipo_universe) = inr target ->
  let peers := potential_peers ipo_universe target ticker in
  exists out,
    get_peers argsort ipo_universe ticker n_peers
    = (_ <- sub_timedelta (ipodate target) reporting_lag ;; inr out)
    /\ length out = Nat.min (Z.to_nat n_peers) (length peers)
    /\ (Z.of_nat (length peers) <= n_peers ->
        Permutation out (map tic peers)).
Proof.
  intros Hn Htarget peers.
  destruct (get_peers_ranked argsort contract ipo_universe ticker n_peers
              target Hn Htarget) as (Hperm & _ & Hget).
  eexists. split; [exact Hget|].
  pose proof (Permutation_length Hperm) as Hlen.
  split.
  - rewrite length_firstn, length_map. now rewrite Hlen.
  - intros Hall. rewrite firstn_all2.
    + now apply Permutation_map.
    + rewrite length_map, Hlen. unfold peers in Hall. lia.
Qed.

(** X11. The ids returned are those of nearest candidates: under a
    sort that meets numpy's contract, no surviving candidate that was
    left out is strictly closer to the target than a candidate that
    was returned, and none with a distance was left out for one
    without. The list is returned once the subtraction of the
    reporting lag is evaluated, which raises outside the timestamp
    range. *)
Theorem no_candidate_left_out_is_closer
  ipo_universe ticker (n_peers : Z) target :
  0 <= n_peers ->
  item0 (filter (fun r => tic_eqb (tic r) ticker) ipo_universe) = inr target ->
  let peers := potential_peers ipo_universe target ticker in
  let d := dist (mkvaltq target) in
  exists chosen left_out,
    Permutation (chosen ++ left_out) peers
    /\ get_peers argsort ipo_universe ticker n_peers
       = (_ <- sub_timedelta (ipodate target) reporting_lag ;;
          inr (map tic chosen))
    /\ forall r r', In r chosen -> In r' left_out ->
         F64.ltb (d r') (d r) = false
         /\ (F64.isna (d r) = true -> F64.isna (d r') = true).
Proof.
  intros Hn Htarget peers d.
  destruct (get_peers_ranked argsort contract ipo_universe ticker n_peers
              target Hn Htarget) as (Hperm & Hsorted & Hget).
  set (ranked := sort_values argsort peers (map d peers)) in *.
  exists (firstn (Z.to_nat n_peers) ranked), (skipn (Z.to_nat n_peers) ranked).
  split; [now rewrite firstn_skipn|].
  split; [now rewrite <- firstn_map|].
  intros r r' Hr Hr'.
  apply (sorted_split dist_le (map d ranked) (Z.to_nat n_peers) dist_le_trans
           Hsorted).
  - rewrite firstn_map. now apply in_map.
  - rewrite skipn_map. now apply in_map.
Qed.

End Peers.

Lemma at_most_n_peers_witness :
  0 <= 2
  /\ get_peers stable_argsort universe "TGT" 2 = inr [Some "NEAR"; Some "MID"]
  /\ Z.of_nat (length [Some "NEAR"; Some "MID"]) <= 2.
Proof.
  assert (H0 : 0 <= 2) by lia.
  assert (Hget : get_peers stable_argsort universe "TGT" 2
                 = inr [Some "NEAR"; Some "MID"]) by (vm_compute; reflexivity).
  exact (conj H0 (conj Hget
           (at_most_n_peers_are_returned stable_argsort universe "TGT" 2 _
              H0 Hget))).
Defined.

Lemma earliest_listing_witness :
  item0 (filter (fun r => tic_eqb (tic r) "OLD") twice_listed)
  = inr (firm "OLD" 100 45 100 50)
  /\ get_peers stable_argsort twice_listed "OLD" 10 = inr []
  /\ item0 (filter (fun r => tic_eqb (tic r) "ANC") ancient_universe)
     = inr ancient
  /\ get_peers stable_argsort ancient_universe "ANC" 10
     = inl OutOfBoundsDatetime.
Proof.
  assert (Ht : item0 (filter (fun r => tic_eqb (tic r) "OLD") twice_listed)
               = inr (firm "OLD" 100 45 100 50)) by reflexivity.
  assert (Ha : item0 (filter (fun r => tic_eqb (tic r) "ANC")
                        ancient_universe) = inr ancient) by reflexivity.
  refine (conj Ht (conj _ (conj Ha _))).
  - refine (proj1 (proj2 (earliest_listing_has_no_peers stable_argsort
                            twice_listed "OLD" 10 _ Ht _)) eq_refl).
    right. right. intros r Hr _.
    repeat (destruct Hr as [<-|Hr]; [vm_compute; reflexivity|]).
    destruct Hr.
  - refine (proj1 (proj2 (proj2 (earliest_listing_has_no_peers stable_argsort
                                   ancient_universe "ANC" 10 _ Ha _)))
              eq_refl).
    right. right. intros r Hr _.
    repeat (destruct Hr as [<-|Hr]; [vm_compute; reflexivity|]).
    destruct Hr.
Defined.

Lemma rejected_records_witness :
  item0 (filter (fun r => tic_eqb (tic r) "TGT")
           ([firm "FAR" 100 45 110 900] ++ [tgt; firm "MID" 200 45 95 900]))
  = inr tgt
  /\ tic_eqb (tic (firm "SEC" 300 20 100 900)) "TGT" = false
  /\ sector_eqb (gsector (firm "SEC" 300 20 100 900)) (gsector tgt) = false
  /\ get_peers stable_argsort
       ([firm "FAR" 100 45 110 900]
        ++ firm "SEC" 300 20 100 900 :: [tgt; firm "MID" 200 45 95 900])
       "TGT" 5
     = get_peers stable_argsort
         ([firm "FAR" 100 45 110 900] ++ [tgt; firm "MID" 200 45 95 900])
         "TGT" 5.
Proof.
  assert (Ht : item0 (filter (fun r => tic_eqb (tic r) "TGT")
                        ([firm "FAR" 100 45 110 900]
                         ++ [tgt; firm "MID" 200 45 95 900]))
               = inr tgt) by reflexivity.
  assert (Hx : tic_eqb (tic (firm "SEC" 300 20 100 900)) "TGT" = false)
    by reflexivity.
  assert (Hs : sector_eqb (gsector (firm "SEC" 300 20 100 900)) (gsector tgt)
               = false) by reflexivity.
  exact (conj Ht (conj Hx (conj Hs
           (rejected_records_do_not_influence_the_result stable_argsort
              [firm "FAR" 100 45 110 900] [tgt; firm "MID" 200 45 95 900]
              (firm "SEC" 300 20 100 900) "TGT" 5 tgt Ht Hx
              (or_introl Hs))))).
Defined.

Lemma all_candidates_witness :
  argsort_contract stable_argsort
  /\ 0 <= 5
  /\ item0 (filter (fun r => tic_eqb (tic r) "TGT") universe) = inr tgt
  /\ exists out,
       get_peers stable_argsort universe "TGT" 5 = inr out
       /\ length out
          = Nat.min (Z.to_nat 5)
              (length (potential_peers universe tgt "TGT"))
       /\ (Z.of_nat (length (potential_peers universe tgt "TGT")) <= 5 ->
           Permutation out (map tic (potential_peers universe tgt "TGT"))).
Proof.
  assert (H0 : 0 <= 5) by lia.
  assert (Ht : item0 (filter (fun r => tic_eqb (tic r) "TGT") universe)
               = inr tgt) by reflexivity.
  exact (conj stable_argsort_contract (conj H0 (conj Ht
           (all_candidates_are_returned_when_n_peers_allows stable_argsort
              stable_argsort_contract universe "TGT" 5 tgt H0 Ht)))).
Defined.

Lemma no_closer_candidate_witness :
  argsort_contract stable_argsort
  /\ 0 <= 2
  /\ item0 (filter (fun r => tic_eqb (tic r) "TGT") universe) = inr tgt
  /\ exists chosen left_out,
       Permutation (chosen ++ left_out) (potential_peers universe tgt "TGT")
       /\ get_peers stable_argsort universe "TGT" 2 = inr (map tic chosen)
       /\ forall r r', In r chosen -> In r' left_out ->
            F64.ltb (dist (mkvaltq tgt) r') (dist (mkvaltq tgt) r) = false
            /\ (F64.isna (dist (mkvaltq tgt) r) = true ->
                F64.isna (dist (mkvaltq tgt) r') = true).
Proof.
  assert (H0 : 0 <= 2) by lia.
  assert (Ht : item0 (filter (fun r => tic_eqb (tic r) "TGT") universe)
               = inr tgt) by reflexivity.
  exact (conj stable_argsort_contract (conj H0 (conj Ht
           (no_candidate_left_out_is_closer stable_argsort
              stable_argsort_contract universe "TGT" 2 tgt H0 Ht)))).
Defined.

End DataLoadingMore.

(** ** The universe, the targets and the peer map *)

Module UniverseFacts.

Import Py PyFacts DataLoading Samples DataLoadingFacts Universe.
Import String.StringSyntax.
Local Open Scope string_scope.

(** *** Dictionaries *)

Section DictFacts.

Context {K V : Type} (eqb : K -> K -> bool).
Hypothesis eqb_eq : forall a b, eqb a b = true <-> a = b.

Lemma dict_keys_set (d : Dict.dict K V) k v :
  Dict.keys (Dict.set eqb d k v)
  = if existsb (eqb k) (Dict.keys d) then Dict.keys d
    else Dict.keys d ++ [k].
Proof.
  induction d as [|[k' v'] d IH]; cbn; [reflexivity|].
  destruct (eqb k k') eqn:E; cbn; [reflexivity|].
  unfold Dict.keys in *. rewrite IH.
  now destruct (existsb (eqb k) (map fst d)).
Qed.

Lemma dict_set_In (d : Dict.dict K V) k v k' v' :
  In (k', v') (Dict.set eqb d k v) ->
  In (k', v') d \/ (k' = k /\ v' = v).
Proof.
  induction d as [|[k0 v0] d IH]; cbn.
  - intros [[= <- <-]|[]]. now right.
  - destruct (eqb k k0) eqn:E; cbn.
    + intros [[= <- <-]|H]; [|now left; right].
      right. apply eqb_eq in E. now subst.
    + intros [H|H]; [now left; left|].
      destruct (IH H) as [H'|H']; [now left; right|now right].
Qed.

End DictFacts.

(** *** [load_and_prepare_data] *)

Section Load.

Context {cell : Type} (to_datetime : list cell -> list date).

Lemma prepared_dates (df : list (csv_row cell)) (A B C : list date) :
  length A = length df -> length B = length df -> length C = length df ->
  map (fun x => ipodate (fundamentals x))
    (filter (fun r => notnull (ipodate (fundamentals r)))
       (map (fun p => with_dates (fst p) (snd p))
          (combine df (combine A (combine B C)))))
  = filter notnull A.
Proof.
  revert A B C.
  induction df as [|r df IH]; intros [|a A] [|b B] [|c C]; cbn;
    try discriminate; try reflexivity.
  intros [= HA] [= HB] [= HC].
  destruct (notnull a); cbn; now rewrite IH.
Qed.

(** X12. Every row of the prepared frame has a listing date and is a
    row of the file with its ticker, sector code and valuation as read,
    whatever the date parser does. When the parser returns one
    timestamp per cell, the listing dates of the prepared frame are the
    parsed listing dates that are not [NaT], in file order: a row is
    never dropped for a report date that does not parse. *)
Theorem prepared_rows_are_those_with_a_listing_date
  (df : list (csv_row cell)) :
  let prepared := load_and_prepare_data to_datetime df in
  Forall (fun x => ipodate (fundamentals x) <> None) prepared
  /\ (forall x, In x prepared ->
        exists r, In r df
          /\ tic (fundamentals x) = csv_tic r
          /\ gsector (fundamentals x) = csv_gsector r
          /\ mkvaltq (fundamentals x) = csv_mkvaltq r)
  /\ ((forall column, length (to_datetime column) = length column) ->
      map (fun x => ipodate (fundamentals x)) prepared
      = filter notnull (to_datetime (map csv_ipodate df))).
Proof.
  cbn. unfold load_and_prepare_data. repeat split.
  - apply Forall_forall. intros x Hx. apply filter_In in Hx as [_ Hx].
    now destruct (ipodate (fundamentals x)).
  - intros x Hx. apply filter_In in Hx as [Hx _].
    apply in_map_iff in Hx as ([r d] & <- & Hr).
    apply in_combine_l in Hr. now exists r.
  - intros Hlen. apply prepared_dates; now rewrite Hlen, length_map.
Qed.

End Load.

(** *** [unique] *)

Lemma same_ticker_eq (a b : option String.string) :
  same_ticker a b = true <-> a = b.
Proof.
  destruct a as [x|], b as [y|]; cbn; try (split; congruence).
  rewrite String.eqb_eq. split; congruence.
Qed.

Lemma same_ticker_refl (a : option String.string) : same_ticker a a = true.
Proof. now apply same_ticker_eq. Qed.

Lemma same_ticker_neq (a b : option String.string) :
  same_ticker a b = false <-> a <> b.
Proof.
  rewrite <- same_ticker_eq. destruct (same_ticker a b); split; congruence.
Qed.

Lemma filter_twice {A} (f g : A -> bool) (l : list A) :
  filter f (filter g l) = filter (fun x => g x && f x) l.
Proof.
  induction l as [|a l IH]; cbn; [reflexivity|].
  destruct (g a); cbn; [|assumption]. destruct (f a); now rewrite IH.
Qed.

Lemma absent_spec ks y : absent ks y = true <-> ~ In y ks.
Proof.
  unfold absent. rewrite negb_true_iff, <- not_true_iff_false, existsb_exists.
  split; intros H H'; apply H.
  - exists y. split; [assumption|apply same_ticker_refl].
  - destruct H' as (x & Hx & E). apply same_ticker_eq in E. now subst.
Qed.

Lemma unique_In l x : In x (unique l) <-> In x l.
Proof.
  induction l as [|a l IH]; cbn; [tauto|].
  rewrite filter_In, IH, negb_true_iff, same_ticker_neq.
  destruct (same_ticker a x) eqn:E.
  - apply same_ticker_eq in E. subst. tauto.
  - apply same_ticker_neq in E. split; [tauto|].
    intros [H|H]; [tauto|]. right. split; [assumption|]. congruence.
Qed.

Lemma unique_NoDup l : NoDup (unique l).
Proof.
  induction l as [|a l IH]; cbn; constructor.
  - rewrite filter_In, negb_true_iff, same_ticker_neq. tauto.
  - now apply NoDup_filter.
Qed.

Lemma filter_all {A} (f : A -> bool) (l : list A) :
  (forall x, In x l -> f x = true) -> filter f l = l.
Proof.
  induction l as [|a l IH]; cbn; intros H; [reflexivity|].
  rewrite (H a (or_introl eq_refl)), IH; [reflexivity|].
  intros x Hx. apply H. now right.
Qed.

Lemma unique_of_NoDup l : NoDup l -> unique l = l.
Proof.
  induction 1 as [|a l Ha Hl IH]; cbn; [reflexivity|].
  rewrite IH, filter_all; [reflexivity|].
  intros x Hx. rewrite negb_true_iff, same_ticker_neq. congruence.
Qed.

Lemma existsb_without a y (u : list (option String.string)) :
  same_ticker y a = false ->
  existsb (same_ticker y) u
  = existsb (same_ticker y) (filter (fun z => negb (same_ticker a z)) u).
Proof.
  intros E'. induction u as [|b u IHu]; cbn; [reflexivity|].
  destruct (same_ticker a b) eqn:Eb; cbn.
  - apply same_ticker_eq in Eb. subst b. now rewrite E'.
  - now rewrite IHu.
Qed.

Lemma unique_app l l' :
  unique (l ++ l') = unique l ++ filter (absent (unique l)) (unique l').
Proof.
  induction l as [|a l IH]; cbn.
  - symmetry. now apply filter_all.
  - f_equal. rewrite IH, filter_app. f_equal.
    rewrite filter_twice. apply filter_ext_in. intros y _.
    unfold absent. cbn.
    destruct (same_ticker a y) eqn:E.
    + apply same_ticker_eq in E. subst y.
      rewrite same_ticker_refl. cbn. apply andb_false_r.
    + assert (E' : same_ticker y a = false).
      { apply same_ticker_neq. apply same_ticker_neq in E. congruence. }
      rewrite E'. cbn. rewrite andb_true_r. f_equal.
      now apply existsb_without.
Qed.

(** *** [get_target_list] *)

Lemma is_target_spec code start r :
  is_target code start r = true <->
  gsector r = Some code /\ exists d, ipodate r = Some d /\ start <= d.
Proof.
  unfold is_target. rewrite andb_true_iff.
  destruct (gsector r) as [s|], (ipodate r) as [d|]; cbn;
    rewrite ?Z.eqb_eq, ?Z.leb_le.
  - split.
    + intros [-> H]. split; [reflexivity|]. now exists d.
    + intros [[= ->] (d' & [= <-] & H)]. now split.
  - split; [intros [_ H]; discriminate|]. intros [_ (d & H & _)]. discriminate.
  - split; [intros [H _]; discriminate|]. intros [H _]. discriminate.
  - split; [intros [H _]; discriminate|]. intros [H _]. discriminate.
Qed.

(** X13. The targets are the tickers of the records of the sector
    listed on or after the start date, each once: a record without
    listing date or sector code yields no target, and a missing ticker
    of a matching record is a target too. *)
Theorem targets_are_the_distinct_matching_tickers
  (ipo_universe : list ipo_record) (sector_code start_date : Z) :
  let targets := get_target_list ipo_universe sector_code start_date in
  NoDup targets
  /\ forall t, In t targets <->
       exists r d,
         In r ipo_universe /\ tic r = t /\ gsector r = Some sector_code
         /\ ipodate r = Some d /\ start_date <= d.
Proof.
  cbn. unfold get_target_list. split; [apply unique_NoDup|].
  intros t. rewrite unique_In, in_map_iff. split.
  - intros (r & Ht & Hr). apply filter_In in Hr as [Hin Hr].
    apply is_target_spec in Hr as (Hs & d & Hd & Hle). now exists r, d.
  - intros (r & d & Hin & Ht & Hs & Hd & Hle). exists r.
    split; [assumption|]. apply filter_In. split; [assumption|].
    apply is_target_spec. split; [assumption|]. now exists d.
Qed.

(** X14. The targets come in the order in which their first matching
    records stand in the universe: rows appended to the universe leave
    the targets found so far where they are and add new ones behind
    them. *)
Theorem appended_rows_add_targets_at_the_end
  (ipo_universe more : list ipo_record) (sector_code start_date : Z) :
  let targets := get_target_list ipo_universe sector_code start_date in
  get_target_list (ipo_universe ++ more) sector_code start_date
  = targets
    ++ filter (absent targets) (get_target_list more sector_code start_date).
Proof.
  cbn. unfold get_target_list. now rewrite filter_app, map_app, unique_app.
Qed.

(** *** [build_peer_mapping] *)

Section PeerMap.

Variable argsort : list F64.float -> list nat.

Implicit Types (ipo_universe : list ipo_record)
  (targets : list (option String.string))
  (peer_map : Dict.dict (option String.string) (list (option String.string))).

Lemma tic_eqb_Some (t : option String.string) s :
  tic_eqb t s = true <-> t = Some s.
Proof.
  destruct t as [x|]; cbn; [|split; discriminate].
  rewrite String.eqb_eq. split; congruence.
Qed.

Lemma item0_found ipo_universe s target :
  item0 (filter (fun r => tic_eqb (tic r) s) ipo_universe) = inr target ->
  In target ipo_universe /\ tic target = Some s.
Proof.
  destruct (filter _ ipo_universe) as [|r rest] eqn:E; [discriminate|].
  intros [= <-].
  assert (H : In r (filter (fun r => tic_eqb (tic r) s) ipo_universe))
    by (rewrite E; now left).
  apply filter_In in H as [Hin Ht]. now apply tic_eqb_Some in Ht.
Qed.

Lemma item0_unknown ipo_universe s e :
  item0 (filter (fun r => tic_eqb (tic r) s) ipo_universe) = inl e ->
  e = IndexError /\ forall r, In r ipo_universe -> tic r <> Some s.
Proof.
  destruct (filter _ ipo_universe) as [|target rest] eqn:E; [|discriminate].
  intros [= <-]. split; [reflexivity|].
  intros r Hr Ht.
  assert (H : In r (filter (fun r => tic_eqb (tic r) s) ipo_universe)).
  { apply filter_In. split; [assumption|]. now apply tic_eqb_Some. }
  now rewrite E in H.
Qed.

Lemma get_peers_returns ipo_universe s (n_peers : Z) :
  (exists ps, get_peers argsort ipo_universe s n_peers = inr ps) <->
  exists target,
    item0 (filter (fun r => tic_eqb (tic r) s) ipo_universe) = inr target
    /\ out_of_bounds (ipodate target) reporting_lag = false.
Proof.
  split.
  - intros (ps & H). apply get_peers_inv in H as (target & Ht & Hb & _).
    now exists target.
  - intros (target & Ht & Hb).
    rewrite (get_peers_target argsort _ _ _ _ Ht).
    rewrite sub_timedelta_in_bounds by assumption. cbn [bind]. eauto.
Qed.

Lemma get_peers_raises ipo_universe s (n_peers : Z) e :
  get_peers argsort ipo_universe s n_peers = inl e ->
  (e = IndexError /\ forall r, In r ipo_universe -> tic r <> Some s)
  \/ (e = OutOfBoundsDatetime
      /\ exists target,
           item0 (filter (fun r => tic_eqb (tic r) s) ipo_universe)
           = inr target
           /\ out_of_bounds (ipodate target) reporting_lag = true).
Proof.
  destruct (item0 (filter (fun r => tic_eqb (tic r) s) ipo_universe))
    as [e0|target] eqn:Et.
  - unfold get_peers. rewrite Et. cbn [bind]. intros [= <-].
    left. now apply item0_unknown in Et.
  - rewrite (get_peers_target argsort _ _ _ _ Et).
    destruct (sub_timedelta _ _) as [e1|c] eqn:Es; cbn [bind];
      [|discriminate].
    intros [= <-]. apply sub_timedelta_raises in Es as [-> Hb].
    right. split; [reflexivity|]. now exists target.
Qed.

Lemma get_peers_not_self ipo_universe s (n_peers : Z) ps :
  get_peers argsort ipo_universe s n_peers = inr ps -> ~ In (Some s) ps.
Proof.
  intros H Hin. apply get_peers_inv in H as (target & _ & _ & ->).
  apply peers_of_In in Hin as (r & Hr & Ht).
  apply potential_peers_In in Hr as (_ & _ & _ & Hne & _).
  apply tic_eqb_Some in Ht. congruence.
Qed.

Lemma peers_for_returns ipo_universe t (n_peers : Z) :
  (exists ps, peers_for argsort ipo_universe t n_peers = inr ps) <->
  exists s target,
    t = Some s
    /\ item0 (filter (fun r => tic_eqb (tic r) s) ipo_universe) = inr target
    /\ out_of_bounds (ipodate target) reporting_lag = false.
Proof.
  destruct t as [s|]; cbn [peers_for].
  - rewrite get_peers_returns. split.
    + intros (target & H). now exists s, target.
    + intros (s' & target & [= <-] & H). now exists target.
  - split; [intros (ps & H); discriminate|].
    intros (s & target & H & _). discriminate.
Qed.

Lemma peers_for_raises ipo_universe t (n_peers : Z) e :
  peers_for argsort ipo_universe t n_peers = inl e ->
  (e = IndexError
   /\ forall s, t = Some s -> forall r, In r ipo_universe -> tic r <> Some s)
  \/ (e = OutOfBoundsDatetime
      /\ exists s target,
           t = Some s
           /\ item0 (filter (fun r => tic_eqb (tic r) s) ipo_universe)
              = inr target
           /\ out_of_bounds (ipodate target) reporting_lag = true).
Proof.
  destruct t as [s|]; cbn [peers_for].
  - intros H. apply get_peers_raises in H as [[-> H]|[-> (target & H)]].
    + left. split; [reflexivity|]. now intros s' [= <-].
    + right. split; [reflexivity|]. now exists s, target.
  - intros [= <-]. left. split; [reflexivity|]. discriminate.
Qed.

Lemma fill_peer_map_keys ipo_universe targets (n_peers : Z) peer_map out :
  fill_peer_map argsort ipo_universe targets n_peers peer_map = inr out ->
  Dict.keys out
  = Dict.keys peer_map ++ filter (absent (Dict.keys peer_map)) (unique targets).
Proof.
  revert peer_map. induction targets as [|t rest IH]; intros peer_map; cbn.
  - intros [= <-]. now rewrite app_nil_r.
  - destruct (peers_for argsort ipo_universe t n_peers) as [e|ps];
      cbn; [discriminate|].
    intros Hout. rewrite (IH _ Hout), dict_keys_set.
    assert (Ha : absent (Dict.keys peer_map) t
                 = negb (existsb (same_ticker t) (Dict.keys peer_map)))
      by reflexivity.
    destruct (existsb (same_ticker t) (Dict.keys peer_map)) eqn:Et;
      cbn [filter]; rewrite Ha; cbn [negb].
    + f_equal. rewrite filter_twice. apply filter_ext_in. intros y _.
      destruct (same_ticker t y) eqn:E; cbn; [|reflexivity].
      apply same_ticker_eq in E. subst y. unfold absent. now rewrite Et.
    + rewrite <- app_assoc. cbn [app]. f_equal. f_equal.
      rewrite filter_twice. apply filter_ext_in. intros y _.
      unfold absent. rewrite existsb_app. cbn. rewrite orb_false_r.
      rewrite negb_orb.
      destruct (same_ticker t y) eqn:E; cbn.
      * apply same_ticker_eq in E. subst y. rewrite same_ticker_refl.
        cbn. now rewrite andb_false_r.
      * assert (E' : same_ticker y t = false).
        { apply same_ticker_neq. apply same_ticker_neq in E. congruence. }
        rewrite E'. cbn. now rewrite !andb_true_r.
Qed.

Lemma fill_peer_map_values ipo_universe targets (n_peers : Z) peer_map out :
  fill_peer_map argsort ipo_universe targets n_peers peer_map = inr out ->
  (forall t ps, In (t, ps) peer_map ->
     peers_for argsort ipo_universe t n_peers = inr ps) ->
  forall t ps, In (t, ps) out ->
    peers_for argsort ipo_universe t n_peers = inr ps.
Proof.
  revert peer_map. induction targets as [|t rest IH]; intros peer_map; cbn.
  - now intros [= <-].
  - destruct (peers_for argsort ipo_universe t n_peers) as [e|ps] eqn:Ep;
      cbn; [discriminate|].
    intros Hout Hinv. apply (IH _ Hout).
    intros t' ps' Hin.
    apply (dict_set_In same_ticker same_ticker_eq) in Hin as [Hin|[-> ->]];
      [now apply Hinv|assumption].
Qed.

Lemma fill_peer_map_returns ipo_universe targets (n_peers : Z) peer_map :
  (forall t, In t targets ->
     exists ps, peers_for argsort ipo_universe t n_peers = inr ps) ->
  exists out,
    fill_peer_map argsort ipo_universe targets n_peers peer_map = inr out.
Proof.
  revert peer_map. induction targets as [|t rest IH]; intros peer_map H; cbn.
  - eauto.
  - destruct (H t (or_introl eq_refl)) as (ps & ->). cbn.
    apply IH. intros t' Ht'. apply H. now right.
Qed.

Lemma fill_peer_map_raises ipo_universe targets (n_peers : Z) peer_map e :
  fill_peer_map argsort ipo_universe targets n_peers peer_map = inl e ->
  exists t, In t targets
    /\ peers_for argsort ipo_universe t n_peers = inl e.
Proof.
  revert peer_map. induction targets as [|t rest IH]; intros peer_map; cbn;
    [discriminate|].
  destruct (peers_for argsort ipo_universe t n_peers) as [e'|ps] eqn:Ep; cbn.
  - intros [= <-]. exists t. split; [now left|assumption].
  - intros H. destruct (IH _ H) as (t' & Ht' & Hp).
    exists t'. split; [now right|assumption].
Qed.

Lemma fill_peer_map_all ipo_universe targets (n_peers : Z) peer_map out :
  fill_peer_map argsort ipo_universe targets n_peers peer_map = inr out ->
  forall t, In t targets ->
    exists ps, peers_for argsort ipo_universe t n_peers = inr ps.
Proof.
  revert peer_map. induction targets as [|t rest IH]; intros peer_map; cbn;
    [intros _ t []|].
  destruct (peers_for argsort ipo_universe t n_peers) as [e|ps] eqn:Ep; cbn;
    [discriminate|].
  intros H t' [<-|Ht']; [eauto|]. now apply (IH _ H).
Qed.

Lemma absent_nil l : filter (absent []) l = l.
Proof. now apply filter_all. Qed.

(** X15. The peer map has one entry per distinct target, in the order
    in which the targets first stand in the list; the value under a
    target is what [get_peers] returns for it, which never holds the
    target itself. *)
Theorem peer_map_has_one_entry_per_distinct_target
  ipo_universe targets (n_peers : Z) peer_map :
  build_peer_mapping argsort ipo_universe targets n_peers = inr peer_map ->
  Dict.keys peer_map = unique targets
  /\ forall t ps, In (t, ps) peer_map ->
       ~ In t ps
       /\ exists s,
            t = Some s /\ get_peers argsort ipo_universe s n_peers = inr ps.
Proof.
  unfold build_peer_mapping. intros H. split.
  - rewrite (fill_peer_map_keys _ _ _ _ _ H). cbn. apply absent_nil.
  - intros t ps Hin.
    assert (Hp : peers_for argsort ipo_universe t n_peers = inr ps).
    { apply (fill_peer_map_values _ _ _ _ _ H); [intros ? ? []|assumption]. }
    destruct t as [s|]; cbn in Hp; [|discriminate].
    split; [now apply get_peers_not_self in Hp|]. now exists s.
Qed.

(** X16. The peer map is built exactly when every target is a ticker
    that some record of the universe carries and the listing date of
    the first such record, less the reporting lag, stays in the
    timestamp range. When the call raises, the error is that of
    [get_peers] on one of the targets: [IndexError] for a target that
    is missing or that no record carries, [OutOfBoundsDatetime] for a
    target whose row is listed within the reporting lag of the
    smallest timestamp. No partial map is returned. *)
Theorem peer_map_needs_every_target_in_the_universe
  ipo_universe targets (n_peers : Z) :
  ((exists peer_map,
      build_peer_mapping argsort ipo_universe targets n_peers = inr peer_map)
   <-> forall t, In t targets ->
         exists s target,
           t = Some s
           /\ item0 (filter (fun r => tic_eqb (tic r) s) ipo_universe)
              = inr target
           /\ out_of_bounds (ipodate target) reporting_lag = false)
  /\ (forall e,
        build_peer_mapping argsort ipo_universe targets n_peers = inl e ->
        exists t,
          In t targets
          /\ ((e = IndexError
               /\ forall s, t = Some s ->
                    forall r, In r ipo_universe -> tic r <> Some s)
              \/ (e = OutOfBoundsDatetime
                  /\ exists s target,
                       t = Some s
                       /\ item0 (filter (fun r => tic_eqb (tic r) s)
                                   ipo_universe) = inr target
                       /\ out_of_bounds (ipodate target) reporting_lag
                          = true))).
Proof.
  unfold build_peer_mapping. split; [split|].
  - intros (peer_map & H) t Ht.
    apply (peers_for_returns ipo_universe t n_peers).
    eapply fill_peer_map_all; eassumption.
  - intros H. apply fill_peer_map_returns. intros t Ht.
    apply peers_for_returns. now apply H.
  - intros e H. apply fill_peer_map_raises in H as (t & Ht & Hp).
    exists t. split; [assumption|]. now apply peers_for_raises in Hp.
Qed.

(** X17. From the targets to the peer map. When every record of the
    sector listed on or after the start date carries a ticker and no
    record of the universe is listed within the reporting lag of the
    smallest timestamp, the peer map of the targets is built and its
    keys are the targets in their order. When a matching record lacks
    its ticker, the missing value is a target and the call raises:
    [IndexError], unless [OutOfBoundsDatetime] comes first from a row
    listed that early. *)
Theorem peer_map_of_the_target_list
  ipo_universe (sector_code start_date n_peers : Z) :
  let targets := get_target_list ipo_universe sector_code start_date in
  ((forall r, In r ipo_universe ->
      is_target sector_code start_date r = true -> tic r <> None) ->
   (forall r, In r ipo_universe ->
      out_of_bounds (ipodate r) reporting_lag = false) ->
   exists peer_map,
     build_peer_mapping argsort ipo_universe targets n_peers = inr peer_map
     /\ Dict.keys peer_map = targets)
  /\ ((exists r, In r ipo_universe
         /\ is_target sector_code start_date r = true /\ tic r = None) ->
      (exists e,
         build_peer_mapping argsort ipo_universe targets n_peers = inl e
         /\ (e = IndexError \/ e = OutOfBoundsDatetime))
      /\ ((forall r, In r ipo_universe ->
             out_of_bounds (ipodate r) reporting_lag = false) ->
          build_peer_mapping argsort ipo_universe targets n_peers
          = inl IndexError)).
Proof.
  cbn zeta. unfold build_peer_mapping, get_target_list. split.
  - intros Htic Hbounds.
    destruct (fill_peer_map_returns ipo_universe
                (unique (map tic (filter (is_target sector_code start_date)
                                    ipo_universe))) n_peers [])
      as (peer_map & H).
    + intros t Ht. apply peers_for_returns.
      apply unique_In, in_map_iff in Ht as (r & Ht & Hr).
      apply filter_In in Hr as [Hin Hr].
      destruct t as [s|]; [|now apply Htic in Hr].
      destruct (item0 (filter (fun r => tic_eqb (tic r) s) ipo_universe))
        as [e|target] eqn:Et.
      * apply item0_unknown in Et as [_ Hnone]. now apply Hnone in Ht.
      * exists s, target. split; [reflexivity|]. split; [exact Et|].
        apply item0_found in Et as [Hin' _]. now apply Hbounds.
    + exists peer_map. split; [assumption|].
      rewrite (fill_peer_map_keys _ _ _ _ _ H). cbn. rewrite absent_nil.
      apply unique_of_NoDup, unique_NoDup.
  - intros (r & Hin & Hr & Ht).
    assert (Hnone : In None
                      (unique (map tic (filter (is_target sector_code
                                                  start_date) ipo_universe)))).
    { apply unique_In, in_map_iff. exists r. split; [assumption|].
      apply filter_In. now split. }
    destruct (fill_peer_map argsort ipo_universe _ n_peers []) as [e|peer_map]
      eqn:E.
    + pose proof (fill_peer_map_raises _ _ _ _ _ E) as (t & Hin' & Hp).
      apply peers_for_raises in Hp. split.
      * exists e. split; [reflexivity|].
        destruct Hp as [[-> _]|[-> _]]; [now left|now right].
      * intros Hbounds. destruct Hp as [[-> _]|[-> Hp]]; [reflexivity|].
        destruct Hp as (s & target & _ & Hfound & Hout).
        apply item0_found in Hfound as [Hin'' _].
        rewrite (Hbounds target Hin'') in Hout. discriminate.
    + exfalso.
      destruct (fill_peer_map_all _ _ _ _ _ E None Hnone) as (ps & Hps).
      discriminate.
Qed.

End PeerMap.

(** *** The theorems on concrete universes *)

Import PipelineSamples.

Lemma prepared_rows_witness :
  (forall column : list date, length (parsed column) = length column)
  /\ map (fun x => ipodate (fundamentals x))
       (load_and_prepare_data parsed listings)
     = filter notnull (parsed (map csv_ipodate listings)).
Proof.
  assert (H : forall column : list date,
             length (parsed column) = length column) by reflexivity.
  exact (conj H
           (proj2 (proj2 (prepared_rows_are_those_with_a_listing_date parsed
                            listings)) H)).
Defined.

Lemma unknown_target_witness :
  build_peer_mapping stable_argsort universe [Some "TGT"; Some "NOPE"] 2
  = inl IndexError
  /\ build_peer_mapping stable_argsort ancient_universe
       [Some "TGT"; Some "ANC"] 2
     = inl OutOfBoundsDatetime
  /\ exists t,
       In t [Some "TGT"; Some "NOPE"]
       /\ ((IndexError = IndexError
            /\ forall s, t = Some s ->
                 forall r, In r universe -> tic r <> Some s)
           \/ (IndexError = OutOfBoundsDatetime
               /\ exists s target,
                    t = Some s
                    /\ item0 (filter (fun r => tic_eqb (tic r) s) universe)
                       = inr target
                    /\ out_of_bounds (ipodate target) reporting_lag = true)).
Proof.
  assert (H : build_peer_mapping stable_argsort universe
                [Some "TGT"; Some "NOPE"] 2 = inl IndexError)
    by (vm_compute; reflexivity).
  assert (Ha : build_peer_mapping stable_argsort ancient_universe
                 [Some "TGT"; Some "ANC"] 2 = inl OutOfBoundsDatetime)
    by (vm_compute; reflexivity).
  exact (conj H (conj Ha
           (proj2 (peer_map_needs_every_target_in_the_universe
                     stable_argsort universe [Some "TGT"; Some "NOPE"] 2)
              IndexError H))).
Defined.

Lemma target_list_witness :
  (forall r, In r universe ->
     is_target 45 (1000 * 86400 * 1000000000) r = true -> tic r <> None)
  /\ (forall r, In r universe ->
        out_of_bounds (ipodate r) reporting_lag = false)
  /\ exists peer_map,
       build_peer_mapping stable_argsort universe
         (get_target_list universe 45 (1000 * 86400 * 1000000000)) 2
       = inr peer_map
       /\ Dict.keys peer_map
          = get_target_list universe 45 (1000 * 86400 * 1000000000).
Proof.
  assert (H : forall r, In r universe ->
                is_target 45 (1000 * 86400 * 1000000000) r = true ->
                tic r <> None).
  { intros r Hr _.
    repeat (destruct Hr as [<-|Hr]; [discriminate|]). destruct Hr. }
  assert (Hb : forall r, In r universe ->
                 out_of_bounds (ipodate r) reporting_lag = false).
  { intros r Hr.
    repeat (destruct Hr as [<-|Hr]; [reflexivity|]). destruct Hr. }
  exact (conj H (conj Hb
           (proj1 (peer_map_of_the_target_list stable_argsort universe 45
                     (1000 * 86400 * 1000000000) 2) H Hb))).
Defined.

Lemma peer_map_witness :
  build_peer_mapping stable_argsort universe
    [Some "TGT"; Some "MID"; Some "TGT"] 2
  = inr [(Some "TGT", [Some "NEAR"; Some "MID"]); (Some "MID", [])]
  /\ Dict.keys [(Some "TGT", [Some "NEAR"; Some "MID"]); (Some "MID", [])]
     = unique [Some "TGT"; Some "MID"; Some "TGT"]
  /\ forall t ps,
       In (t, ps) [(Some "TGT", [Some "NEAR"; Some "MID"]); (Some "MID", [])] ->
       ~ In t ps
       /\ exists s,
            t = Some s /\ get_peers stable_argsort universe s 2 = inr ps.
Proof.
  assert (H : build_peer_mapping stable_argsort universe
                [Some "TGT"; Some "MID"; Some "TGT"] 2
              = inr [(Some "TGT", [Some "NEAR"; Some "MID"]); (Some "MID", [])])
    by (vm_compute; reflexivity).
  exact (conj H
           (peer_map_has_one_entry_per_distinct_target stable_argsort universe
              [Some "TGT"; Some "MID"; Some "TGT"] 2 _ H)).
Defined.

End UniverseFacts.

(** ** The realized volatility frame *)

Module VolatilityFacts.

Import Py PyFacts Forecasting Volatility.
Import String.StringSyntax.

(** *** Ticker cleaning *)

Lemma clean_undotted (ticker : String.string) : dotted (clean ticker) = false.
Proof.
  induction ticker as [|c rest IH]; cbn [clean dotted]; [reflexivity|].
  destruct (Ascii.eqb c dot) eqn:E; cbn [clean dotted]; [reflexivity|].
  now rewrite E.
Qed.

Lemma clean_fixed (ticker : String.string) :
  clean ticker = ticker <-> dotted ticker = false.
Proof.
  induction ticker as [|c rest IH]; cbn [clean dotted]; [tauto|].
  destruct (Ascii.eqb c dot) eqn:E; cbn [orb].
  - split; discriminate.
  - rewrite <- IH. split; [now intros [= ->]|now intros ->].
Qed.

(** X18. [split('.')[0]] keeps the characters before the first dot:
    the cleaned ticker has no dot, the ticker is the cleaned ticker
    followed by nothing or by a dot and a remainder, and a ticker is
    left as it is exactly when it has no dot. *)
Theorem cleaned_ticker_is_the_part_before_the_first_dot
  (ticker : String.string) :
  dotted (clean ticker) = false
  /\ (exists suffix,
        ticker = String.append (clean ticker) suffix
        /\ (suffix = String.EmptyString
            \/ exists rest, suffix = String.String dot rest))
  /\ (clean ticker = ticker <-> dotted ticker = false)
  /\ clean (clean ticker) = clean ticker.
Proof.
  split; [apply clean_undotted|]. split; [|split].
  - induction ticker as [|c rest IH]; cbn [clean].
    + exists String.EmptyString. split; [reflexivity|now left].
    + destruct (Ascii.eqb c dot) eqn:E.
      * apply Ascii.eqb_eq in E. subst c.
        exists (String.String dot rest). split; [reflexivity|].
        right. now exists rest.
      * destruct IH as (suffix & Hs & Hd).
        exists suffix. split; [|assumption].
        cbn [String.append]. now rewrite <- Hs.
  - apply clean_fixed.
  - apply clean_fixed, clean_undotted.
Qed.

(** *** The dictionary of fetched series *)

Section Wrds.

Context {Label series : Type}.
Variable fetch : nat -> String.string -> option series.
Variable lagged_peer_frame :
  series -> list series -> Py.result (rv_frame Label).

Implicit Types (rv_data : Dict.dict String.string series)
  (ticker : String.string).

Lemma get_key rv_data ticker s :
  Dict.get String.eqb rv_data ticker = Some s -> In ticker (Dict.keys rv_data).
Proof.
  induction rv_data as [|[k v] d IH]; cbn; [discriminate|].
  destruct (String.eqb ticker k) eqn:E.
  - apply String.eqb_eq in E. now left.
  - intros H. right. now apply IH.
Qed.

Lemma set_keys rv_data ticker s k :
  In k (Dict.keys (Dict.set String.eqb rv_data ticker s)) ->
  In k (Dict.keys rv_data) \/ k = ticker.
Proof.
  induction rv_data as [|[k' v'] d IH]; cbn.
  - intros [<-|[]]. now right.
  - destruct (String.eqb ticker k') eqn:E; cbn.
    + tauto.
    + intros [H|H]; [tauto|]. destruct (IH H); tauto.
Qed.

Lemma store_keys (passes : list (nat * String.string)) rv_data k :
  In k (Dict.keys (fold_left (store fetch) passes rv_data)) ->
  In k (Dict.keys rv_data) \/ In k (map snd passes).
Proof.
  revert rv_data. induction passes as [|[i t] passes IH]; intros rv_data;
    cbn; [tauto|].
  intros H. apply IH in H as [H|H]; [|tauto].
  unfold store in H. cbn in H.
  destruct (fetch i t) as [s|]; [|tauto].
  apply set_keys in H as [H|H]; [tauto|]. right. left. now symmetry.
Qed.

Lemma fetch_all_keys (tickers : list String.string) k :
  In k (Dict.keys (fetch_all fetch (map clean tickers))) ->
  dotted k = false.
Proof.
  unfold fetch_all. intros H. apply store_keys in H as [[]|H].
  apply in_map_iff in H as ([i t] & <- & H). apply in_combine_r in H.
  apply in_map_iff in H as (t0 & <- & _). apply clean_undotted.
Qed.

Lemma get_dotted (tickers : list String.string) ticker :
  dotted ticker = true ->
  Dict.get String.eqb (fetch_all fetch (map clean tickers)) ticker = None.
Proof.
  intros Hd.
  destruct (Dict.get _ _ ticker) as [s|] eqn:E; [|reflexivity].
  apply get_key, fetch_all_keys in E. congruence.
Qed.

(** X19. The dictionary is keyed by cleaned tickers and read with the
    tickers as given: a target ticker with a dot is never found, and
    the call returns [None] whatever the database holds. *)
Theorem dotted_target_ticker_gives_no_frame
  (connected : bool) ticker (peer_tickers : list String.string) :
  dotted ticker = true ->
  load_realized_volatility_from_wrds fetch lagged_peer_frame connected
    ticker peer_tickers
  = inr None.
Proof.
  intros Hd. unfold load_realized_volatility_from_wrds.
  destruct connected; [|reflexivity].
  change (clean ticker :: map clean peer_tickers)
    with (map clean (ticker :: peer_tickers)).
  now rewrite get_dotted.
Qed.

Lemma peer_series_undotted (tickers peer_tickers : list String.string) :
  peer_series_list (fetch_all fetch (map clean tickers)) peer_tickers
  = peer_series_list (fetch_all fetch (map clean tickers))
      (filter (fun t => negb (dotted t)) peer_tickers).
Proof.
  unfold peer_series_list.
  induction peer_tickers as [|p ps IH]; cbn [flat_map filter]; [reflexivity|].
  destruct (dotted p) eqn:E; cbn [negb flat_map].
  - now rewrite get_dotted.
  - now rewrite IH.
Qed.

(** X20. A frame is returned only over a connection, for a target
    without a dot whose series was fetched; the series that are
    averaged are those fetched under the peer tickers without a dot,
    in the order of the peer list, and there is at least one. *)
Theorem frame_is_built_from_the_undotted_tickers
  (connected : bool) ticker (peer_tickers : list String.string) final_df :
  load_realized_volatility_from_wrds fetch lagged_peer_frame connected
    ticker peer_tickers
  = inr (Some final_df) ->
  let rv_data := fetch_all fetch (map clean (ticker :: peer_tickers)) in
  let peers :=
    peer_series_list rv_data (filter (fun t => negb (dotted t)) peer_tickers) in
  connected = true
  /\ dotted ticker = false
  /\ peers <> []
  /\ exists target_series,
       Dict.get String.eqb rv_data ticker = Some target_series
       /\ lagged_peer_frame target_series peers = inr final_df.
Proof.
  unfold load_realized_volatility_from_wrds.
  destruct connected; [|discriminate].
  change (clean ticker :: map clean peer_tickers)
    with (map clean (ticker :: peer_tickers)).
  cbn zeta.
  destruct (Dict.get _ _ ticker) as [ts|] eqn:Eg; [|discriminate].
  destruct (1 <? _)%nat; [|discriminate].
  rewrite <- peer_series_undotted.
  destruct (peer_series_list _ peer_tickers) as [|s l] eqn:Ep; [discriminate|].
  destruct (lagged_peer_frame ts (s :: l)) as [e|f] eqn:Ef; cbn;
    [discriminate|].
  intros [= <-]. split; [reflexivity|]. split.
  - destruct (dotted ticker) eqn:Ed; [|reflexivity].
    rewrite get_dotted in Eg by assumption. discriminate.
  - split; [discriminate|]. now exists ts.
Qed.

Lemma two_keys {A} (l : list A) (a b : A) :
  In a l -> In b l -> a <> b -> (1 < length l)%nat.
Proof.
  destruct l as [|x [|y l]]; cbn; [tauto| |lia].
  intros [<-|[]] [<-|[]]. congruence.
Qed.

Lemma peer_series_key rv_data (peer_tickers : list String.string) :
  peer_series_list rv_data peer_tickers <> [] ->
  exists p, In p peer_tickers /\ In p (Dict.keys rv_data).
Proof.
  induction peer_tickers as [|p ps IH]; cbn; [congruence|].
  destruct (Dict.get String.eqb rv_data p) as [s|] eqn:E.
  - intros _. exists p. split; [now left|]. eapply get_key, E.
  - cbn. intros H. destruct (IH H) as (q & Hq & Hk). exists q. tauto.
Qed.

(** X21. For a target that is not in its own peer list (what
    [get_peers] returns never holds the target) the test
    [len(rv_data) > 1] decides nothing: the outcome is that of the
    lookups of the target and of the peers alone. *)
Theorem size_test_is_implied_by_a_fetched_peer
  (connected : bool) ticker (peer_tickers : list String.string) :
  ~ In ticker peer_tickers ->
  let rv_data := fetch_all fetch (map clean (ticker :: peer_tickers)) in
  load_realized_volatility_from_wrds fetch lagged_peer_frame connected
    ticker peer_tickers
  = if connected then
      match Dict.get String.eqb rv_data ticker with
      | Some target_series =>
          match peer_series_list rv_data peer_tickers with
          | [] => inr None
          | peers =>
              final_df <- lagged_peer_frame target_series peers ;;
              inr (Some final_df)
          end
      | None => inr None
      end
    else inr None.
Proof.
  intros Hself. cbn zeta. unfold load_realized_volatility_from_wrds.
  destruct connected; [|reflexivity].
  change (clean ticker :: map clean peer_tickers)
    with (map clean (ticker :: peer_tickers)).
  cbn zeta.
  destruct (Dict.get _ _ ticker) as [ts|] eqn:Eg; [|reflexivity].
  destruct (peer_series_list _ peer_tickers) as [|s l] eqn:Ep.
  - now destruct (1 <? _)%nat.
  - destruct (Nat.ltb_spec 1
                (length (fetch_all fetch (map clean (ticker :: peer_tickers)))))
      as [Hlen|Hlen]; [reflexivity|].
    exfalso.
    destruct (peer_series_key
                (fetch_all fetch (map clean (ticker :: peer_tickers)))
                peer_tickers) as (p & Hp & Hk); [rewrite Ep; discriminate|].
    apply get_key in Eg.
    pose proof (two_keys _ _ _ Eg Hk) as H2.
    unfold Dict.keys in H2. rewrite length_map in H2.
    assert (ticker <> p) by (intros ->; contradiction).
    specialize (H2 H). lia.
Qed.

End Wrds.

(** *** Sample data *)

Lemma smooth_from_length prev l : length (smooth_from prev l) = length l.
Proof.
  revert prev. induction l as [|x l IH]; intros prev; cbn; [reflexivity|].
  now rewrite IH.
Qed.

Lemma smooth_length x : length (smooth x) = length x.
Proof.
  destruct x as [|x0 [|x1 rest]]; cbn; trivial. now rewrite smooth_from_length.
Qed.

Lemma smooth_from_firstn prev l k :
  firstn k (smooth_from prev l) = smooth_from prev (firstn k l).
Proof.
  revert prev l. induction k as [|k IH]; intros prev [|x l]; cbn; trivial.
  now rewrite IH.
Qed.

(** X22. The smoothing never looks ahead and never touches the first
    two draws: it keeps the length, and the first [k] smoothed values
    are the smoothing of the first [k] draws, for every [k]. *)
Theorem smoothed_value_depends_on_earlier_draws_only
  (x : list F64.float) (k : nat) :
  length (smooth x) = length x
  /\ firstn 2 (smooth x) = firstn 2 x
  /\ firstn k (smooth x) = smooth (firstn k x).
Proof.
  split; [apply smooth_length|]. split.
  - now destruct x as [|x0 [|x1 rest]].
  - destruct x as [|x0 [|x1 rest]]; cbn.
    + now destruct k.
    + destruct k as [|[|k]]; cbn; trivial.
    + destruct k as [|[|k]]; cbn; trivial.
      now rewrite smooth_from_firstn.
Qed.

Lemma roll1_length x : length (roll1 x) = length x.
Proof.
  destruct x as [|a x]; [reflexivity|].
  unfold roll1. cbn [length]. rewrite removelast_firstn_len.
  rewrite length_firstn. cbn [length]. lia.
Qed.

Lemma slice_from_1 {A} (l : list A) : slice_from 1 l = tl l.
Proof. rewrite slice_from_in by lia. now destruct l. Qed.

Lemma lagged_rows {Label} (dates : list Label) (actual peer : list F64.float) :
  length actual = length dates -> length peer = length dates ->
  data_frame dates actual (roll1 peer)
  = inr (combine dates (combine actual (roll1 peer)))
  /\ tl (combine dates (combine actual (roll1 peer)))
     = combine (tl dates) (combine (tl actual) (removelast peer)).
Proof.
  intros Ha Hp. split.
  - unfold data_frame. rewrite roll1_length, Ha, Hp, !Nat.eqb_refl.
    reflexivity.
  - destruct dates as [|d ds], actual as [|a act], peer as [|p ps];
      try discriminate; reflexivity.
Qed.

Section Samples.

Context {Label : Type}.
Variables target_draw peer_draw : nat -> list F64.float.

(** X23. The sample frame pairs each day with the peer value of the
    day before: with one draw per day the call returns, row by row
    from the second day on, the day, the smoothed target value of the
    day and the smoothed peer value of the previous day, without the
    rows that hold a NaN. The peer value that [np.roll] wraps around
    to the first day goes with the first row. *)
Theorem sample_rows_pair_each_day_with_the_previous_peer_value
  (dates : list Label) :
  length (target_draw (length dates)) = length dates ->
  length (peer_draw (length dates)) = length dates ->
  let target_data := smooth (target_draw (length dates)) in
  let peer_data := smooth (peer_draw (length dates)) in
  create_sample_realized_volatility_data target_draw peer_draw dates
  = inr (dropna
           (combine (tl dates)
              (combine (tl target_data) (removelast peer_data)))).
Proof.
  intros Ht Hp. cbn zeta. unfold create_sample_realized_volatility_data.
  destruct (lagged_rows dates (smooth (target_draw (length dates)))
              (smooth (peer_draw (length dates)))) as [Hdf Htl];
    try (now rewrite smooth_length).
  rewrite Hdf. cbn. now rewrite slice_from_1, Htl.
Qed.

(** X24. [create_sample_data] of test_wrds.py, with one draw per day:
    it returns one row for each day but the first, the day with its
    target draw and the peer draw of the day before. *)
Theorem test_sample_has_one_row_per_day_but_the_first (dates : list Label) :
  length (target_draw (length dates)) = length dates ->
  length (peer_draw (length dates)) = length dates ->
  exists final_df,
    create_sample_data target_draw peer_draw dates = inr final_df
    /\ final_df
       = combine (tl dates)
           (combine (tl (target_draw (length dates)))
              (removelast (peer_draw (length dates))))
    /\ length final_df = (length dates - 1)%nat.
Proof.
  intros Ht Hp. unfold create_sample_data.
  destruct (lagged_rows dates (target_draw (length dates))
              (peer_draw (length dates)) Ht Hp) as [Hdf Htl].
  rewrite Hdf. cbn. rewrite slice_from_1, Htl.
  eexists. split; [reflexivity|]. split; [reflexivity|].
  rewrite !length_combine, removelast_firstn_len, length_firstn.
  destruct dates as [|d ds]; [reflexivity|].
  destruct (target_draw _) as [|a act]; [discriminate|].
  destruct (peer_draw _) as [|p ps]; [discriminate|].
  cbn in *. lia.
Qed.

End Samples.

(** *** The theorems on concrete tables and draws *)

Import PipelineSamples.
Local Open Scope string_scope.

Lemma dotted_target_witness :
  dotted "BRK.B" = true
  /\ load_realized_volatility_from_wrds crsp beside_first_peer true
       "BRK.B" ["AAA"]
     = inr None.
Proof.
  assert (H : dotted "BRK.B" = true) by reflexivity.
  exact (conj H
           (dotted_target_ticker_gives_no_frame crsp beside_first_peer true
              "BRK.B" ["AAA"] H)).
Defined.

Lemma undotted_tickers_witness :
  exists final_df,
    load_realized_volatility_from_wrds crsp beside_first_peer true
      "TGT" ["BRK.B"; "AAA"]
    = inr (Some final_df)
    /\ dotted "TGT" = false
    /\ peer_series_list
         (fetch_all crsp (map clean ["TGT"; "BRK.B"; "AAA"])) ["AAA"]
       <> []
    /\ exists target_series,
         Dict.get String.eqb
           (fetch_all crsp (map clean ["TGT"; "BRK.B"; "AAA"])) "TGT"
         = Some target_series
         /\ beside_first_peer target_series
              (peer_series_list
                 (fetch_all crsp (map clean ["TGT"; "BRK.B"; "AAA"]))
                 ["AAA"])
            = inr final_df.
Proof.
  assert (H : exists final_df,
             load_realized_volatility_from_wrds crsp beside_first_peer true
               "TGT" ["BRK.B"; "AAA"] = inr (Some final_df))
    by (vm_compute; eexists; reflexivity).
  destruct H as (final_df & H). exists final_df. split; [exact H|].
  exact (proj2 (frame_is_built_from_the_undotted_tickers crsp
                  beside_first_peer true "TGT" ["BRK.B"; "AAA"] final_df H)).
Defined.

Lemma size_test_witness :
  ~ In "TGT" ["AAA"; "ZZZ"]
  /\ load_realized_volatility_from_wrds crsp beside_first_peer true
       "TGT" ["AAA"; "ZZZ"]
     = inr (Some [(0, (F64.of_Z 1, F64.of_Z 4));
                  (1, (F64.of_Z 2, F64.of_Z 5));
                  (2, (F64.of_Z 3, F64.of_Z 6))]).
Proof.
  assert (H : ~ In "TGT" ["AAA"; "ZZZ"]).
  { intros [H|[H|[]]]; discriminate. }
  split; [exact H|].
  rewrite (size_test_is_implied_by_a_fetched_peer crsp beside_first_peer
             true "TGT" ["AAA"; "ZZZ"] H).
  vm_compute. reflexivity.
Defined.

Lemma sample_rows_witness :
  length (ramp 1 (length ten_days)) = length ten_days
  /\ length (ramp 11 (length ten_days)) = length ten_days
  /\ create_sample_realized_volatility_data (ramp 1) (ramp 11) ten_days
     = inr (dropna
              (combine (tl ten_days)
                 (combine (tl (smooth (ramp 1 (length ten_days))))
                    (removelast (smooth (ramp 11 (length ten_days))))))).
Proof.
  assert (H1 : length (ramp 1 (length ten_days)) = length ten_days)
    by reflexivity.
  assert (H2 : length (ramp 11 (length ten_days)) = length ten_days)
    by reflexivity.
  exact (conj H1 (conj H2
           (sample_rows_pair_each_day_with_the_previous_peer_value
              (ramp 1) (ramp 11) ten_days H1 H2))).
Defined.

Lemma test_sample_witness :
  length (ramp 1 (length ten_days)) = length ten_days
  /\ length (ramp 11 (length ten_days)) = length ten_days
  /\ exists final_df,
       create_sample_data (ramp 1) (ramp 11) ten_days = inr final_df
       /\ final_df
          = combine (tl ten_days)
              (combine (tl (ramp 1 (length ten_days)))
                 (removelast (ramp 11 (length ten_days))))
       /\ length final_df = (length ten_days - 1)%nat.
Proof.
  assert (H1 : length (ramp 1 (length ten_days)) = length ten_days)
    by reflexivity.
  assert (H2 : length (ramp 11 (length ten_days)) = length ten_days)
    by reflexivity.
  exact (conj H1 (conj H2
           (test_sample_has_one_row_per_day_but_the_first
              (ramp 1) (ramp 11) ten_days H1 H2))).
Defined.

End VolatilityFacts.

(** ** More on the evaluation *)

Module EvaluationMore.

Import Py PyFacts Forecasting ForecastingFacts Evaluation EvaluationFacts.
Import ForecastingMore.

Lemma bfill_hole (l : list F64.float) :
  existsb F64.isna (bfill l) = F64.isna (last l F64.zero).
Proof.
  induction l as [|x l IH]; [reflexivity|].
  cbn [bfill]. cbv zeta. cbn [existsb].
  pose proof (bfill_length l) as Hlen.
  destruct l as [|y l].
  - cbn. rewrite orb_false_r. destruct (F64.isna x) eqn:Ex; exact Ex.
  - change (last (x :: y :: l) F64.zero) with (last (y :: l) F64.zero).
    rewrite <- IH.
    destruct (bfill (y :: l)) as [|z filled]; [discriminate|].
    destruct (F64.isna x) eqn:Ex; cbn [existsb].
    + now destruct (F64.isna z).
    + now rewrite Ex.
Qed.

Lemma bfill_values (l : list F64.float) :
  Forall (fun v => In v l) (bfill l).
Proof.
  induction l as [|x l IH]; [constructor|].
  cbn [bfill]. cbv zeta. constructor.
  - destruct (F64.isna x); [|now left].
    destruct (bfill l) as [|y filled]; [now left|].
    right. now inversion IH.
  - eapply Forall_impl; [|exact IH]. intros v Hv. now right.
Qed.

Lemma last_shifted (a b : F64.float) (l : list F64.float) d :
  last (shift1 F64.nan (l ++ [a; b])) d = a.
Proof.
  unfold shift1. destruct (l ++ [a; b]) as [|x r] eqn:E;
    [now destruct l|]. rewrite <- E.
  replace (l ++ [a; b]) with ((l ++ [a]) ++ [b])
    by now rewrite <- app_assoc.
  rewrite removelast_last.
  change (F64.nan :: l ++ [a]) with ((F64.nan :: l) ++ [a]).
  apply last_last.
Qed.

(** X25. The baseline keeps a hole exactly when the shifted series
    ends in one: on a single record, and on two or more records when
    the actual value of the record before the last is missing. Missing
    actual values further up are filled from below. Every baseline
    value that is present is an actual value of the frame. *)
Theorem baseline_has_a_hole_only_at_its_end
  {Label} (results_df : list (forecast_record Label)) :
  existsb F64.isna (naive_forecast results_df)
  = match rev (map Actual results_df) with
    | [] => false
    | [_] => true
    | _ :: a :: _ => F64.isna a
    end
  /\ Forall (fun v => F64.isna v = true \/ In v (map Actual results_df))
       (naive_forecast results_df).
Proof.
  unfold naive_forecast. split.
  - rewrite bfill_hole.
    destruct (rev (map Actual results_df)) as [|b [|a r]] eqn:E.
    + apply (f_equal (@rev _)) in E. rewrite rev_involutive in E.
      now rewrite E.
    + apply (f_equal (@rev _)) in E. rewrite rev_involutive in E.
      now rewrite E.
    + apply (f_equal (@rev _)) in E. rewrite rev_involutive in E.
      rewrite E. cbn [rev]. rewrite <- app_assoc. cbn [app].
      now rewrite last_shifted.
  - eapply Forall_impl; [|apply bfill_values].
    intros v Hv. cbn beta in Hv. unfold shift1 in Hv.
    destruct (map Actual results_df) as [|x l] eqn:E; [destruct Hv|].
    destruct Hv as [<-|Hv]; [now left|]. right.
    rewrite removelast_firstn_len in Hv. eapply In_firstn, Hv.
Qed.

Lemma round_not_negative (m e : Z) (l : location) :
  F64.ltb (binary_round_aux F64.prec F64.emax false m e l) F64.zero = false.
Proof.
  unfold binary_round_aux.
  destruct (shr_fexp _ _ m e l) as [mrs e'].
  destruct (shr_fexp _ _ _ e' loc_Exact) as [mrs'' e''].
  destruct (shr_m mrs''); [reflexivity| |reflexivity].
  now destruct (Z.leb _ _).
Qed.

Lemma sqrt_not_negative (x : F64.float) :
  F64.ltb (F64.sqrt x) F64.zero = false.
Proof.
  destruct x as [s|[|]| |[|] m e]; try reflexivity.
  unfold F64.sqrt, SFsqrt.
  destruct (SFsqrt_core_binary _ _ _ e) as [[mz ez] lz].
  apply round_not_negative.
Qed.

Section Evaluate.

Context {Label : Type}.
Variable mean_squared_error :
  list F64.float -> list F64.float -> Py.result F64.float.

(** X26. Whatever the error measure returns, neither root error that
    [evaluate_forecast] reports is below zero (a root error is NaN
    when the measure is negative or NaN), and both are computed from
    the two value columns alone: frames with the same actual values
    and forecasts get the same metrics, whatever their labels. *)
Theorem root_errors_are_never_negative
  (results_df other : list (forecast_record Label)) m :
  evaluate_forecast mean_squared_error results_df = inr m ->
  F64.ltb (model_rmse m) F64.zero = false
  /\ F64.ltb (naive_rmse m) F64.zero = false
  /\ (map Actual other = map Actual results_df ->
      map Forecast other = map Forecast results_df ->
      evaluate_forecast mean_squared_error other = inr m).
Proof.
  unfold evaluate_forecast, naive_forecast.
  destruct (mean_squared_error _ (map Forecast results_df)) as [e|mse] eqn:E1;
    cbn; [discriminate|].
  destruct (mean_squared_error _ (bfill _)) as [e|nmse] eqn:E2; cbn;
    [discriminate|].
  intros [= <-]. cbn. split; [apply sqrt_not_negative|].
  split; [apply sqrt_not_negative|].
  intros -> ->. rewrite E1. cbn. now rewrite E2.
Qed.

End Evaluate.

Section Pipeline.

Variables Label cell : Type.
Variable to_numeric : cell -> F64.float.
Variable ols_fit_predict :
  list (F64.float * F64.float) -> list F64.float ->
  list (F64.float * F64.float) -> Py.result (list F64.float).
Variable mean_squared_error :
  list F64.float -> list F64.float -> Py.result F64.float.

(** X27. From the forecast to the evaluation: with an error measure
    that, like scikit-learn's, refuses an empty sample and a NaN among
    the predictions, the metrics are returned only when the aligned
    frame has at least [window_size + 2] rows. With fewer there is no
    forecast or a single one, whose baseline is a hole. *)
Theorem metrics_need_two_forecasts
  (target peer : Series Label cell) (window_size : Z) results m :
  (forall y_true y_pred,
     y_true = [] \/ existsb F64.isna y_pred = true ->
     exists e, mean_squared_error y_true y_pred = inl e) ->
  same_index target peer ->
  0 <= window_size ->
  rolling_forecast to_numeric ols_fit_predict target peer window_size
  = inr results ->
  evaluate_forecast mean_squared_error results = inr m ->
  (Z.to_nat window_size + 2
   <= length (aligned_frame to_numeric target peer))%nat.
Proof.
  intros Hval _ Hw Hres Hm.
  destruct (walk_forward_actuals _ ols_fit_predict
              (aligned_frame to_numeric target peer) window_size results
              Hw Hres) as (_ & _ & Hlen).
  destruct results as [|r1 [|r2 rest]]; cbn [length] in Hlen; [| |lia].
  - exfalso. unfold evaluate_forecast in Hm. cbn [map] in Hm.
    destruct (Hval [] []) as (e & He); [now left|].
    rewrite He in Hm. discriminate.
  - exfalso. unfold evaluate_forecast in Hm.
    destruct (mean_squared_error _ (map Forecast [r1])) as [e|mse];
      [discriminate|]. cbn [bind] in Hm.
    destruct (Hval (map Actual [r1]) (naive_forecast [r1])) as (e & He);
      [now right|].
    rewrite He in Hm. discriminate.
Qed.

End Pipeline.

(** *** The theorems on concrete records *)

Import Samples PipelineSamples.

Lemma mean_squared_error_ref_validates (y_true y_pred : list F64.float) :
  y_true = [] \/ existsb F64.isna y_pred = true ->
  exists e, mean_squared_error_ref y_true y_pred = inl e.
Proof.
  intros H. unfold mean_squared_error_ref.
  destruct (_ && _) eqn:E; [|now exists ValueError].
  exfalso. apply andb_true_iff in E as [E E4].
  apply andb_true_iff in E as [E E3]. apply andb_true_iff in E as [E1 E2].
  destruct H as [->|H]; [discriminate|].
  apply existsb_exists in H as (x & Hx & Hna).
  rewrite forallb_forall in E4. specialize (E4 x Hx).
  destruct x; discriminate.
Qed.

Lemma root_errors_witness :
  exists m,
    evaluate_forecast mean_squared_error_ref rising_records = inr m
    /\ F64.ltb (model_rmse m) F64.zero = false
    /\ F64.ltb (naive_rmse m) F64.zero = false
    /\ (map Actual rising_records = map Actual rising_records ->
        map Forecast rising_records = map Forecast rising_records ->
        evaluate_forecast mean_squared_error_ref rising_records = inr m).
Proof.
  assert (H : exists m,
             evaluate_forecast mean_squared_error_ref rising_records = inr m)
    by (vm_compute; eexists; reflexivity).
  destruct H as (m & H). exists m. split; [exact H|].
  exact (root_errors_are_never_negative mean_squared_error_ref
           rising_records rising_records m H).
Defined.

Lemma two_forecasts_witness :
  same_index target5 peer5
  /\ 0 <= 2
  /\ rolling_forecast id_numeric lag_fit target5 peer5 2 = inr records5
  /\ evaluate_forecast mean_squared_error_ref records5 = inr metrics5
  /\ (Z.to_nat 2 + 2
      <= length (aligned_frame id_numeric target5 peer5))%nat.
Proof.
  assert (Hidx : same_index target5 peer5) by reflexivity.
  assert (Hw : 0 <= 2) by lia.
  assert (Hres : rolling_forecast id_numeric lag_fit target5 peer5 2
                 = inr records5) by (vm_compute; reflexivity).
  assert (Hm : evaluate_forecast mean_squared_error_ref records5
               = inr metrics5) by (vm_compute; reflexivity).
  exact (conj Hidx (conj Hw (conj Hres (conj Hm
           (metrics_need_two_forecasts Z F64.float id_numeric lag_fit
              mean_squared_error_ref target5 peer5 2 records5 metrics5
              mean_squared_error_ref_validates Hidx Hw Hres Hm))))).
Defined.

End EvaluationMore.

(** ** The pipeline *)

Module MainFacts.

Import Py PyFacts DataLoading DataLoadingFacts Universe UniverseFacts
  Volatility Forecasting Evaluation Main.

Lemma strings_Some l ss :
  strings l = Some ss -> l = map Some ss.
Proof.
  revert ss. induction l as [|[s|] l IH]; intros ss; cbn.
  - now intros [= <-].
  - destruct (strings l) as [ss'|]; [|discriminate].
    intros [= <-]. cbn. now rewrite (IH ss').
  - discriminate.
Qed.

Lemma strings_None l : strings l = None <-> In None l.
Proof.
  induction l as [|[s|] l IH]; cbn.
  - split; [discriminate|tauto].
  - destruct (strings l) as [ss|].
    + split; [discriminate|]. intros [H|H]; [discriminate|].
      now apply IH in H.
    + split; [|reflexivity]. intros _. right. now apply IH.
  - split; [now left|reflexivity].
Qed.

Lemma first_target {A} (l : list A) :
  slice 0 1 l = match l with [] => [] | x :: _ => [x] end.
Proof.
  destruct l as [|x l]; [reflexivity|].
  rewrite slice_in; [reflexivity|lia|cbn [length]; lia].
Qed.

Section Pipeline.

Context {cell Label series : Type}.
Variable to_datetime : list cell -> list date.
Variable argsort : list F64.float -> list nat.
Variable connected : bool.
Variable fetch : nat -> String.string -> option series.
Variable lagged_peer_frame :
  series -> list series -> Py.result (rv_frame Label).
Variables target_draw peer_draw : nat -> list F64.float.
Variable ols_fit_predict :
  list (F64.float * F64.float) -> list F64.float ->
  list (F64.float * F64.float) -> Py.result (list F64.float).
Variable mean_squared_error :
  list F64.float -> list F64.float -> Py.result F64.float.

(** What the first four steps of [main] leave, by the first target. *)
Lemma main_selection (df : list (csv_row cell)) (dates : list Label) :
  match get_target_list (map fundamentals (load_and_prepare_data to_datetime df)) sector_code start_date with
  | [] => main to_datetime argsort connected fetch lagged_peer_frame target_draw
          peer_draw ols_fit_predict mean_squared_error df dates = inl (Raised IndexError)
  | None :: _ => main to_datetime argsort connected fetch lagged_peer_frame target_draw
          peer_draw ols_fit_predict mean_squared_error df dates = inl (Raised IndexError)
  | Some s :: _ =>
      match get_peers argsort (map fundamentals (load_and_prepare_data to_datetime df)) s n_peers with
      | inl e => main to_datetime argsort connected fetch lagged_peer_frame target_draw
          peer_draw ols_fit_predict mean_squared_error df dates = inl (Raised e)
      | inr peers =>
          match strings peers with
          | None => main to_datetime argsort connected fetch lagged_peer_frame target_draw
          peer_draw ols_fit_predict mean_squared_error df dates = inl TypeError
          | Some ps =>
              peers = map Some ps
              /\ main to_datetime argsort connected fetch lagged_peer_frame target_draw
          peer_draw ols_fit_predict mean_squared_error df dates
                 = bind (lift (load_realized_volatility_from_wrds fetch
                                 lagged_peer_frame connected s ps))
                     (fun loaded =>
                      bind (match loaded with
                            | Some final_df => inr final_df
                            | None =>
                                lift (create_sample_realized_volatility_data
                                        target_draw peer_draw dates)
                            end) (fun final_df =>
                      bind (lift (rolling_forecast (fun x => x)
                                    ols_fit_predict (Actual_column final_df)
                                    (Peer_Prior_column final_df) window_size))
                        (fun results =>
                      bind (lift (evaluate_forecast mean_squared_error
                                    results)) (fun metrics =>
                      inr (mk_outcome (load_and_prepare_data to_datetime df)
                             (get_target_list (map fundamentals (load_and_prepare_data to_datetime df)) sector_code
                                start_date)
                             [(Some s, peers)] results metrics)))))
          end
      end
  end.
Proof.
  unfold main.
  rewrite first_target.
  destruct (get_target_list (map fundamentals (load_and_prepare_data to_datetime df)) sector_code start_date)
    as [|t rest]; [reflexivity|]. destruct t as [s|]; [|reflexivity].
  unfold build_peer_mapping. cbn [fill_peer_map peers_for].
  destruct (get_peers argsort (map fundamentals (load_and_prepare_data to_datetime df)) s n_peers) as [e|peers];
    [reflexivity|].
  cbn [Py.bind Py.ret lift bind Dict.set display].
  destruct (strings peers) as [ps|] eqn:Es; [|reflexivity].
  cbn [bind Dict.keys map fst item0 Py.ret Py.raise lift Dict.get].
  rewrite same_ticker_refl. cbn [bind]. unfold load_call. rewrite Es.
  split; [now apply strings_Some|reflexivity].
Qed.

(** X28. Without a record of sector 45 listed on or after 2024-01-01
    [main] raises [IndexError]: the peer map is empty and the first
    key is asked for. No data is loaded before. *)
Theorem main_without_targets_raises_index_error
  (df : list (csv_row cell)) (dates : list Label) :
  get_target_list
    (map fundamentals (load_and_prepare_data to_datetime df))
    sector_code start_date = [] ->
  main to_datetime argsort connected fetch lagged_peer_frame target_draw
    peer_draw ols_fit_predict mean_squared_error df dates
  = inl (Raised IndexError).
Proof.
  intros H. pose proof (main_selection df dates) as Hsel.
  now rewrite H in Hsel.
Qed.

(** X29. When [main] returns, its peer map has one entry: the first
    target, a ticker, with the peers [get_peers] finds for it among
    the prepared records; every peer is a ticker and none is the
    target. *)
Theorem main_follows_the_first_target_only
  (df : list (csv_row cell)) (dates : list Label) o :
  main to_datetime argsort connected fetch lagged_peer_frame target_draw
    peer_draw ols_fit_predict mean_squared_error df dates
  = inr o ->
  exists s ps rest,
    targets o = Some s :: rest
    /\ targets o
       = get_target_list (map fundamentals (ipo_universe o)) sector_code
           start_date
    /\ ipo_universe o = load_and_prepare_data to_datetime df
    /\ peer_map o = [(Some s, map Some ps)]
    /\ get_peers argsort (map fundamentals (ipo_universe o)) s n_peers
       = inr (map Some ps)
    /\ ~ In s ps.
Proof.
  intros Ho. pose proof (main_selection df dates) as Hsel.
  destruct (get_target_list _ sector_code start_date) as [|t rest] eqn:Et;
    [congruence|]. destruct t as [s|]; [|congruence].
  destruct (get_peers argsort _ s n_peers) as [e|peers] eqn:Ep; [congruence|].
  destruct (strings peers) as [ps|]; [|congruence].
  destruct Hsel as [-> Hrun]. rewrite Hrun in Ho.
  destruct (lift (load_realized_volatility_from_wrds _ _ _ _ _))
    as [e|loaded]; [discriminate|]. cbn [bind] in Ho.
  destruct (match loaded with Some _ => _ | None => _ end) as [e|final_df];
    [discriminate|]. cbn [bind] in Ho.
  destruct (lift (rolling_forecast _ _ _ _ _)) as [e|results];
    [discriminate|]. cbn [bind] in Ho.
  destruct (lift (evaluate_forecast _ _)) as [e|metrics];
    [discriminate|]. cbn [bind] in Ho.
  injection Ho as <-. cbn [targets ipo_universe peer_map].
  exists s, ps, rest. repeat split; trivial; [now symmetry|].
  intros Hin. apply (get_peers_not_self argsort _ _ _ _ Ep).
  now apply in_map.
Qed.

(** X30. [main] never calls [.split] on a missing ticker and never
    asks the peer map for a key it lacks: beside the exceptions of the
    calls it makes it raises [TypeError] only, and that exactly when
    the peer list of the first target holds a missing ticker, which
    [join] refuses. *)
Theorem main_raises_type_error_on_a_peer_without_ticker
  (df : list (csv_row cell)) (dates : list Label) :
  (forall e,
     main to_datetime argsort connected fetch lagged_peer_frame target_draw
       peer_draw ols_fit_predict mean_squared_error df dates
     = inl e ->
     e = TypeError \/ exists e', e = Raised e')
  /\ (main to_datetime argsort connected fetch lagged_peer_frame target_draw
        peer_draw ols_fit_predict mean_squared_error df dates
      = inl TypeError
      <-> exists s rest peers,
            get_target_list
              (map fundamentals (load_and_prepare_data to_datetime df))
              sector_code start_date = Some s :: rest
            /\ get_peers argsort
                 (map fundamentals (load_and_prepare_data to_datetime df))
                 s n_peers = inr peers
            /\ In None peers).
Proof.
  pose proof (main_selection df dates) as Hsel.
  assert (Htail : forall s ps peers e,
             bind (lift (load_realized_volatility_from_wrds fetch
                           lagged_peer_frame connected s ps))
               (fun loaded =>
                bind (match loaded with
                      | Some final_df => inr final_df
                      | None =>
                          lift (create_sample_realized_volatility_data
                                  target_draw peer_draw dates)
                      end) (fun final_df =>
                bind (lift (rolling_forecast (fun x => x)
                              ols_fit_predict (Actual_column final_df)
                              (Peer_Prior_column final_df) window_size))
                  (fun results =>
                bind (lift (evaluate_forecast mean_squared_error
                              results)) (fun metrics =>
                inr (mk_outcome (load_and_prepare_data to_datetime df)
                       (get_target_list
                          (map fundamentals
                             (load_and_prepare_data to_datetime df))
                          sector_code start_date)
                       [(Some s, peers)] results metrics)))))
             = inl e -> exists e', e = Raised e').
  { intros s ps peers e.
    destruct (load_realized_volatility_from_wrds _ _ _ _ _) as [e1|loaded];
      cbn [lift bind]; [intros [= <-]; eauto|].
    destruct loaded as [final_df|]; cbn [bind].
    - destruct (rolling_forecast _ _ _ _ _) as [e2|results];
        cbn [lift bind]; [intros [= <-]; eauto|].
      destruct (evaluate_forecast _ _) as [e3|metrics];
        cbn [lift bind]; [intros [= <-]; eauto|discriminate].
    - destruct (create_sample_realized_volatility_data _ _ _)
        as [e2|final_df]; cbn [lift bind]; [intros [= <-]; eauto|].
      destruct (rolling_forecast _ _ _ _ _) as [e3|results];
        cbn [lift bind]; [intros [= <-]; eauto|].
      destruct (evaluate_forecast _ _) as [e4|metrics];
        cbn [lift bind]; [intros [= <-]; eauto|discriminate]. }
  destruct (get_target_list _ sector_code start_date) as [|t rest] eqn:Et;
    [|destruct t as [s|]].
  - rewrite Hsel. split.
    + intros e [= <-]. right. eauto.
    + split; [discriminate|]. intros (s & r & p & H & _). discriminate.
  - destruct (get_peers argsort _ s n_peers) as [e0|peers] eqn:Ep.
    + rewrite Hsel. split.
      * intros e [= <-]. right. eauto.
      * split; [discriminate|].
        intros (s' & r & p & [= <- <-] & H & _). congruence.
    + destruct (strings peers) as [ps|] eqn:Es.
      * destruct Hsel as [Hpeers Hrun]. rewrite Hrun. split.
        -- intros e He. right. eapply Htail, He.
        -- split.
           ++ intros He. apply Htail in He as (e' & He'). discriminate.
           ++ intros (s' & r & p & [= <- <-] & Hp & Hnone).
              rewrite Ep in Hp. injection Hp as <-.
              apply strings_None in Hnone. congruence.
      * rewrite Hsel. split.
        -- intros e [= <-]. now left.
        -- split; [|reflexivity]. intros _.
           exists s, rest, peers. repeat split; trivial.
           now apply strings_None.
  - rewrite Hsel. split.
    + intros e [= <-]. right. eauto.
    + split; [discriminate|]. intros (s & r & p & H & _). discriminate.
Qed.

End Pipeline.

(** *** The theorems on concrete files *)

Import Samples PipelineSamples.

Lemma no_targets_witness :
  get_target_list
    (map fundamentals (load_and_prepare_data parsed old_listings))
    sector_code start_date = []
  /\ main parsed stable_argsort false crsp beside_first_peer (ramp 1)
       (ramp 11) lag_fit mean_squared_error_ref old_listings ten_days
     = inl (Raised IndexError).
Proof.
  assert (H : get_target_list
                (map fundamentals (load_and_prepare_data parsed old_listings))
                sector_code start_date = []) by reflexivity.
  exact (conj H
           (main_without_targets_raises_index_error parsed stable_argsort
              false crsp beside_first_peer (ramp 1) (ramp 11) lag_fit
              mean_squared_error_ref old_listings ten_days H)).
Defined.

Lemma first_target_witness :
  exists o,
    main parsed stable_argsort false crsp beside_first_peer (ramp 1)
      (ramp 11) lag_fit mean_squared_error_ref listings ten_days
    = inr o
    /\ exists s ps rest,
         targets o = Some s :: rest
         /\ targets o
            = get_target_list (map fundamentals (ipo_universe o)) sector_code
                start_date
         /\ ipo_universe o = load_and_prepare_data parsed listings
         /\ peer_map o = [(Some s, map Some ps)]
         /\ get_peers stable_argsort (map fundamentals (ipo_universe o)) s
              n_peers
            = inr (map Some ps)
         /\ ~ In s ps.
Proof.
  assert (H : exists o,
             main parsed stable_argsort false crsp beside_first_peer (ramp 1)
               (ramp 11) lag_fit mean_squared_error_ref listings ten_days
             = inr o)
    by (vm_compute; eexists; reflexivity).
  destruct H as (o & H). exists o. split; [exact H|].
  exact (main_follows_the_first_target_only parsed stable_argsort false crsp
           beside_first_peer (ramp 1) (ramp 11) lag_fit
           mean_squared_error_ref listings ten_days o H).
Defined.

End MainFacts.
